(** * synapse: defensive value coercion

    A shallow embedding of the two source files of the repository,

      - [src/src/index.ts]      (module [Index]),
      - [src/unnamed/part_000]  (module [Part000]),

    together with the pieces of the JavaScript runtime they call
    (strings of UTF-16 code units, [String.prototype.trim], regular
    expressions, [Map], [JSON.parse], [BigInt], plain objects). *)

From Stdlib Require Import List NArith ZArith Bool String Ascii Lia.
Import ListNotations.

Set Implicit Arguments.

(* ================================================================== *)
(** * Strings *)
(* ================================================================== *)

(** A JavaScript string is a finite sequence of UTF-16 code units. *)
Definition jsstring := list N.

(** An ASCII literal of the source, as a sequence of code units. *)
Definition lit (s : string) : jsstring :=
  map N_of_ascii (list_ascii_of_string s).

(** The same, with every apostrophe standing for a double quote (code
    unit 34), to write texts that contain quotes. *)
Definition quoted (s : string) : jsstring :=
  map (fun c => if N.eqb c 39 then 34%N else c) (lit s).

Module Str.

(** [a === b] on two strings. *)
Fixpoint eqb (a b : jsstring) : bool :=
  match a, b with
  | [], [] => true
  | x :: a', y :: b' => N.eqb x y && eqb a' b'
  | _, _ => false
  end.

(** [s.length]. *)
Definition length (s : jsstring) : Z := Z.of_nat (List.length s).

(** WhiteSpace and LineTerminator code units: what [trim] removes and
    what [\s] matches. *)
Definition isWhiteSpace (c : N) : bool :=
  (N.eqb c 9 || N.eqb c 10 || N.eqb c 11 || N.eqb c 12 || N.eqb c 13
   || N.eqb c 32 || N.eqb c 160 || N.eqb c 0x1680
   || (N.leb 0x2000 c && N.leb c 0x200A)
   || N.eqb c 0x2028 || N.eqb c 0x2029 || N.eqb c 0x202F
   || N.eqb c 0x205F || N.eqb c 0x3000 || N.eqb c 0xFEFF)%bool.

Fixpoint trimStart (s : jsstring) : jsstring :=
  match s with
  | [] => []
  | c :: r => if isWhiteSpace c then trimStart r else s
  end.

Definition trimEnd (s : jsstring) : jsstring := rev (trimStart (rev s)).

(** [s.trim()]. *)
Definition trim (s : jsstring) : jsstring := trimEnd (trimStart s).

(** [s[i]]: [None] stands for [undefined]. *)
Definition at_ (s : jsstring) (i : Z) : option N :=
  if (i <? 0)%Z then None else nth_error s (Z.to_nat i).

Definition isHighSurrogate (c : N) : bool := N.leb 0xD800 c && N.leb c 0xDBFF.
Definition isLowSurrogate (c : N) : bool := N.leb 0xDC00 c && N.leb c 0xDFFF.

(** [s.codePointAt(pos)]: [None] stands for [undefined]. *)
Definition codePointAt (s : jsstring) (pos : Z) : option N :=
  match at_ s pos with
  | None => None
  | Some first =>
      if isHighSurrogate first then
        match at_ s (pos + 1) with
        | Some second =>
            if isLowSurrogate second
            then Some ((first - 0xD800) * 0x400 + (second - 0xDC00) + 0x10000)%N
            else Some first
        | None => Some first
        end
      else Some first
  end.

(** [s.slice(start, end)], negative indices counting from the end. *)
Definition slice (s : jsstring) (start end_ : Z) : jsstring :=
  let len := length s in
  let from := if (start <? 0)%Z then Z.max (len + start) 0 else Z.min start len in
  let to := if (end_ <? 0)%Z then Z.max (len + end_) 0 else Z.min end_ len in
  firstn (Z.to_nat (to - from)) (skipn (Z.to_nat from) s).

(** [s.endsWith(t)]. *)
Definition endsWith (s t : jsstring) : bool :=
  (List.length t <=? List.length s)%nat
  && eqb (skipn (List.length s - List.length t) s) t.

(** Lower case of one code unit.  The ASCII and Latin-1 capitals are
    mapped as the runtime maps them and U+212A (KELVIN SIGN) goes to
    [k]; the other code units are left alone, where the runtime has
    more mappings.  The source only compares the lower-cased text with
    words of ASCII letters, and U+212A is the one code unit outside
    ASCII whose lower case is made of ASCII letters only, so these
    comparisons come out as in the runtime. *)
Definition lowerUnit (c : N) : N :=
  if (N.leb 65 c && N.leb c 90)%bool then (c + 32)%N
  else if (N.leb 0xC0 c && N.leb c 0xDE && negb (N.eqb c 0xD7))%bool then (c + 32)%N
  else if N.eqb c 0x212A then 107%N
  else c.

(** [s.toLowerCase()]. *)
Definition toLowerCase (s : jsstring) : jsstring := map lowerUnit s.

End Str.

(* ================================================================== *)
(** * Regular expressions *)
(* ================================================================== *)

Module Rx.

(** Patterns over code units.  [Class p] is a character class. *)
Inductive regex : Type :=
| Void
| Eps
| Unit (c : N)
| Class (p : N -> bool)
| Seq (r s : regex)
| Alt (r s : regex)
| Star (r : regex).

(** [r?], [r+], [r{n}], a run of patterns, a literal text, [[abc]]. *)
Definition opt (r : regex) : regex := Alt r Eps.
Definition plus (r : regex) : regex := Seq r (Star r).
Fixpoint times (n : nat) (r : regex) : regex :=
  match n with O => Eps | S n' => Seq r (times n' r) end.
Definition seq (rs : list regex) : regex := fold_right Seq Eps rs.
Definition text (s : string) : regex := seq (map Unit (lit s)).
Definition oneOf (s : string) : regex :=
  Class (fun c => existsb (N.eqb c) (lit s)).

(** [\d] and [\s]. *)
Definition digit : regex := Class (fun c => N.leb 48 c && N.leb c 57).
Definition space : regex := Class Str.isWhiteSpace.

(** The words matched by a pattern. *)
Inductive Matches : regex -> jsstring -> Prop :=
| MEps : Matches Eps []
| MUnit c : Matches (Unit c) [c]
| MClass p c : p c = true -> Matches (Class p) [c]
| MSeq r s u v : Matches r u -> Matches s v -> Matches (Seq r s) (u ++ v)
| MAltL r s u : Matches r u -> Matches (Alt r s) u
| MAltR r s u : Matches s u -> Matches (Alt r s) u
| MStarNil r : Matches (Star r) []
| MStarCons r u v :
    Matches r u -> Matches (Star r) v -> Matches (Star r) (u ++ v).

(** Matching by derivatives. *)
Fixpoint nullable (r : regex) : bool :=
  match r with
  | Void => false
  | Eps => true
  | Unit _ => false
  | Class _ => false
  | Seq r s => nullable r && nullable s
  | Alt r s => nullable r || nullable s
  | Star _ => true
  end.

Fixpoint deriv (r : regex) (c : N) : regex :=
  match r with
  | Void => Void
  | Eps => Void
  | Unit d => if N.eqb d c then Eps else Void
  | Class p => if p c then Eps else Void
  | Seq r s =>
      if nullable r then Alt (Seq (deriv r c) s) (deriv s c)
      else Seq (deriv r c) s
  | Alt r s => Alt (deriv r c) (deriv s c)
  | Star r => Seq (deriv r c) (Star r)
  end.

(** A pattern that visibly matches no word. *)
Fixpoint dead (r : regex) : bool :=
  match r with
  | Void => true
  | Seq r s => dead r || dead s
  | Alt r s => dead r && dead s
  | _ => false
  end.

(** The whole of [s] matches [r]. *)
Fixpoint accepts (r : regex) (s : jsstring) : bool :=
  match s with
  | [] => nullable r
  | c :: s' => accepts (deriv r c) s'
  end.

(** Some prefix of [s] matches [r]. *)
Fixpoint acceptsPrefix (r : regex) (s : jsstring) : bool :=
  nullable r ||
  match s with
  | [] => false
  | c :: s' => acceptsPrefix (deriv r c) s'
  end.

(** [f] holds of [s] from some position on. *)
Fixpoint anywhere (f : jsstring -> bool) (s : jsstring) : bool :=
  f s ||
  match s with
  | [] => false
  | _ :: s' => anywhere f s'
  end.

(** A RegExp object without the [g], [y] and [m] flags: a pattern,
    and whether it opens with [^] and closes with [$]. *)
Record RegExp : Type :=
  { fromStart : bool; pattern : regex; toEnd : bool }.

(** [re.test(s)]. *)
Definition test (re : RegExp) (s : jsstring) : bool :=
  let here := if toEnd re then accepts (pattern re)
              else acceptsPrefix (pattern re) in
  if fromStart re then here s else anywhere here s.

End Rx.

(* ================================================================== *)
(** * Values, options, completions *)
(* ================================================================== *)

(** A number: the three sentinels of the literal table, or a finite
    value written [(-1)^negative * mantissa * 10^exponent] (the double
    the runtime rounds it to is not modelled). *)
Inductive number : Type :=
| NaN
| PositiveInfinity
| NegativeInfinity
| Finite (negative : bool) (mantissa : N) (exponent : Z).

#[local] Unset Elimination Schemes.

(** Runtime values.  An object is the list of its own enumerable
    string-keyed properties in the order [Object.keys] reports them;
    symbols and functions are identified by a reference. *)
Inductive JSValue : Type :=
| VUndefined
| VNull
| VBool (b : bool)
| VNumber (n : number)
| VBigInt (z : Z)
| VString (s : jsstring)
| VSymbol (ref : N)
| VFunction (ref : N)
| VArray (items : list JSValue)
| VObject (props : list (jsstring * JSValue)).

#[local] Set Elimination Schemes.

(** [typeof v]. *)
Definition typeof (v : JSValue) : string :=
  match v with
  | VUndefined => "undefined"
  | VNull => "object"
  | VBool _ => "boolean"
  | VNumber _ => "number"
  | VBigInt _ => "bigint"
  | VString _ => "string"
  | VSymbol _ => "symbol"
  | VFunction _ => "function"
  | VArray _ => "object"
  | VObject _ => "object"
  end.

(** [v !== undefined]. *)
Definition isDefined (v : JSValue) : bool :=
  match v with VUndefined => false | _ => true end.

(** [type Options = { strict?: boolean }]. *)
Record Options : Type := { strict : option bool }.

(** Truthiness of [options.strict]. *)
Definition isStrict (options : Options) : bool :=
  match strict options with Some true => true | _ => false end.

(** The default [options = {}]. *)
Definition defaultOptions : Options := {| strict := None |}.

(** Thrown values.  [SyntaxError m] and [Error m] are the errors the
    source constructs; [NativeSyntaxError] is the [SyntaxError] that
    [JSON.parse] itself raises, whose message is the engine's own. *)
Inductive exn : Type :=
| SyntaxError (message : jsstring)
| Error (message : jsstring)
| NativeSyntaxError.

(** How a call ends. *)
Inductive completion : Type :=
| Return (v : JSValue)
| Throw (e : exn).

(* ================================================================== *)
(** * Plain objects *)
(* ================================================================== *)

Module Obj.

Definition props := list (jsstring * JSValue).

Definition isDigit (c : N) : bool := N.leb 48 c && N.leb c 57.

(** Value of a run of decimal digits. *)
Definition decimal (s : jsstring) : N :=
  fold_left (fun acc c => (acc * 10 + (c - 48))%N) s 0%N.

(** An array index is the canonical decimal spelling of an integer
    below 2^32 - 1; such keys are enumerated first, in ascending
    order, whatever the order they were created in. *)
Definition arrayIndex (key : jsstring) : option N :=
  match key with
  | [] => None
  | c :: rest =>
      if forallb isDigit key
         && (negb (N.eqb c 48) || match rest with [] => true | _ => false end)
         && (List.length key <=? 10)%nat
         && N.ltb (decimal key) 4294967295
      then Some (decimal key)
      else None
  end.

(** [Object.keys(o)]. *)
Definition keys (o : props) : list jsstring := map fst o.

(** [key in o], for own properties. *)
Definition has (o : props) (key : jsstring) : bool :=
  existsb (fun kv => Str.eqb (fst kv) key) o.

(** [o[key]]; [undefined] when there is no such property. *)
Fixpoint get (o : props) (key : jsstring) : JSValue :=
  match o with
  | [] => VUndefined
  | (k, v) :: rest => if Str.eqb k key then v else get rest key
  end.

Fixpoint replace (o : props) (key : jsstring) (v : JSValue) : props :=
  match o with
  | [] => []
  | (k, w) :: rest =>
      if Str.eqb k key then (k, v) :: rest else (k, w) :: replace rest key v
  end.

(** Place of a new array-index key: before the first key that is not an
    array index or is a larger one. *)
Fixpoint insertIndex (o : props) (i : N) (key : jsstring) (v : JSValue) : props :=
  match o with
  | [] => [(key, v)]
  | (k, w) :: rest =>
      match arrayIndex k with
      | Some j =>
          if N.ltb j i then (k, w) :: insertIndex rest i key v
          else (key, v) :: o
      | None => (key, v) :: o
      end
  end.

(** [o[key] = v] on an object whose property [key], if any, is an own
    data property (also what [JSON.parse] does for each member): an
    existing property keeps its place, a new one is created. *)
Definition set (o : props) (key : jsstring) (v : JSValue) : props :=
  if has o key then replace o key v
  else match arrayIndex key with
       | Some i => insertIndex o i key v
       | None => o ++ [(key, v)]
       end.

End Obj.

(** Whether some object inside [v], at any depth, has an own key [key]. *)
Fixpoint hasKeyDeep (key : jsstring) (v : JSValue) : bool :=
  match v with
  | VArray items => existsb (hasKeyDeep key) items
  | VObject props =>
      (fix go (ps : list (jsstring * JSValue)) : bool :=
         match ps with
         | [] => false
         | (k, w) :: rest => Str.eqb k key || hasKeyDeep key w || go rest
         end) props
  | _ => false
  end.

(* ================================================================== *)
(** * The runtime's JSON.parse and BigInt *)
(* ================================================================== *)

(** The source calls these two functions of the runtime.  They are
    written here after ECMA-262 ([JSON.parse] without a reviver, and
    StringToBigInt), as total functions: a lexer and a parser that
    each read their input once, from left to right. *)

Module JSON.

Inductive token : Type :=
| TBeginArray | TEndArray | TBeginObject | TEndObject
| TNameSeparator | TValueSeparator
| TString (s : jsstring)
| TWord (w : jsstring).

(** ** Lexer: one code unit at a time *)

Inductive mode : Type :=
| Idle
| InWord (acc : jsstring)
| InString (acc : jsstring)
| InEscape (acc : jsstring)
| InHex (acc : jsstring) (more : nat) (value : N).

(** JSON white space: tab, line feed, carriage return, space. *)
Definition isJSONSpace (c : N) : bool :=
  N.eqb c 9 || N.eqb c 10 || N.eqb c 13 || N.eqb c 32.

Definition punctuation (c : N) : option token :=
  if N.eqb c 91 then Some TBeginArray
  else if N.eqb c 93 then Some TEndArray
  else if N.eqb c 123 then Some TBeginObject
  else if N.eqb c 125 then Some TEndObject
  else if N.eqb c 58 then Some TNameSeparator
  else if N.eqb c 44 then Some TValueSeparator
  else None.

Definition hexValue (c : N) : option N :=
  if N.leb 48 c && N.leb c 57 then Some (c - 48)%N
  else if N.leb 65 c && N.leb c 70 then Some (c - 55)%N
  else if N.leb 97 c && N.leb c 102 then Some (c - 87)%N
  else None.

(** The code unit a one-letter escape stands for. *)
Definition escape (c : N) : option N :=
  if N.eqb c 34 then Some 34%N
  else if N.eqb c 92 then Some 92%N
  else if N.eqb c 47 then Some 47%N
  else if N.eqb c 98 then Some 8%N
  else if N.eqb c 102 then Some 12%N
  else if N.eqb c 110 then Some 10%N
  else if N.eqb c 114 then Some 13%N
  else if N.eqb c 116 then Some 9%N
  else None.

(** Tokens are collected in reverse. *)
Fixpoint lex (m : mode) (out : list token) (s : jsstring) : option (list token) :=
  match s with
  | [] =>
      match m with
      | Idle => Some (rev out)
      | InWord acc => Some (rev (TWord (rev acc) :: out))
      | _ => None
      end
  | c :: s' =>
      match m with
      | Idle =>
          if isJSONSpace c then lex Idle out s'
          else if N.eqb c 34 then lex (InString []) out s'
          else match punctuation c with
               | Some t => lex Idle (t :: out) s'
               | None => lex (InWord [c]) out s'
               end
      | InWord acc =>
          if isJSONSpace c then lex Idle (TWord (rev acc) :: out) s'
          else if N.eqb c 34 then lex (InString []) (TWord (rev acc) :: out) s'
          else match punctuation c with
               | Some t => lex Idle (t :: TWord (rev acc) :: out) s'
               | None => lex (InWord (c :: acc)) out s'
               end
      | InString acc =>
          if N.eqb c 34 then lex Idle (TString (rev acc) :: out) s'
          else if N.eqb c 92 then lex (InEscape acc) out s'
          else if N.ltb c 32 then None
          else lex (InString (c :: acc)) out s'
      | InEscape acc =>
          if N.eqb c 117 then lex (InHex acc 4 0) out s'
          else match escape c with
               | Some e => lex (InString (e :: acc)) out s'
               | None => None
               end
      | InHex acc more value =>
          match hexValue c with
          | None => None
          | Some d =>
              let value' := (value * 16 + d)%N in
              match more with
              | S (S n) => lex (InHex acc (S n) value') out s'
              | _ => lex (InString (value' :: acc)) out s'
              end
          end
      end
  end.

(** ** Numbers and the three literal names *)

(** The JSON number grammar: an optional minus, [0] or a digit run
    without a leading zero, an optional fraction, an optional
    exponent. *)
Definition numberRx : Rx.regex :=
  Rx.seq
    [ Rx.opt (Rx.text "-");
      Rx.Alt (Rx.text "0")
             (Rx.Seq (Rx.Class (fun c => N.leb 49 c && N.leb c 57)) (Rx.Star Rx.digit));
      Rx.opt (Rx.Seq (Rx.text ".") (Rx.plus Rx.digit));
      Rx.opt (Rx.seq [Rx.oneOf "eE"; Rx.opt (Rx.oneOf "+-"); Rx.plus Rx.digit]) ].

(** Longest prefix whose units satisfy [p], and the rest. *)
Fixpoint span (p : N -> bool) (s : jsstring) : jsstring * jsstring :=
  match s with
  | [] => ([], [])
  | c :: s' =>
      if p c then let (a, b) := span p s' in (c :: a, b) else ([], s)
  end.

(** The value of a word that matches [numberRx]. *)
Definition numberValue (w : jsstring) : number :=
  let (negative, w1) :=
    match w with
    | c :: r => if N.eqb c 45 then (true, r) else (false, w)
    | [] => (false, w)
    end in
  let (int, w2) := span Obj.isDigit w1 in
  let (frac, w3) :=
    match w2 with
    | c :: r => if N.eqb c 46 then span Obj.isDigit r else ([], w2)
    | [] => ([], w2)
    end in
  let exponent :=
    match w3 with
    | _ :: c :: r =>
        if N.eqb c 45 then (- Z.of_N (Obj.decimal r))%Z
        else if N.eqb c 43 then Z.of_N (Obj.decimal r)
        else Z.of_N (Obj.decimal (c :: r))
    | _ => 0%Z
    end in
  Finite negative (Obj.decimal (int ++ frac))
         (exponent - Z.of_nat (List.length frac)).

Definition wordValue (w : jsstring) : option JSValue :=
  if Str.eqb w (lit "true") then Some (VBool true)
  else if Str.eqb w (lit "false") then Some (VBool false)
  else if Str.eqb w (lit "null") then Some VNull
  else if Rx.accepts numberRx w then Some (VNumber (numberValue w))
  else None.

(** ** Parser: one token at a time, with a stack of open containers *)

Inductive frame : Type :=
| FArray (items : list JSValue)
| FObject (members : Obj.props) (key : option jsstring).

Inductive expect : Type :=
| EValue
| EValueOrEnd
| EKeyOrEnd
| EKey
| EColon
| ECommaOrEnd
| EDone (v : JSValue).

Definition state := (list frame * expect)%type.

(** A value is complete: it is the result, or goes into the innermost
    open container. *)
Definition complete (stack : list frame) (v : JSValue) : option state :=
  match stack with
  | [] => Some ([], EDone v)
  | FArray items :: st => Some (FArray (v :: items) :: st, ECommaOrEnd)
  | FObject members (Some k) :: st =>
      Some (FObject (Obj.set members k v) None :: st, ECommaOrEnd)
  | FObject _ None :: _ => None
  end.

Definition closeArray (stack : list frame) : option state :=
  match stack with
  | FArray items :: st => complete st (VArray (rev items))
  | _ => None
  end.

Definition closeObject (stack : list frame) : option state :=
  match stack with
  | FObject members None :: st => complete st (VObject members)
  | _ => None
  end.

Definition value (stack : list frame) (t : token) : option state :=
  match t with
  | TBeginArray => Some (FArray [] :: stack, EValueOrEnd)
  | TBeginObject => Some (FObject [] None :: stack, EKeyOrEnd)
  | TString s => complete stack (VString s)
  | TWord w =>
      match wordValue w with
      | Some v => complete stack v
      | None => None
      end
  | _ => None
  end.

Definition key (stack : list frame) (t : token) : option state :=
  match t, stack with
  | TString k, FObject members None :: st =>
      Some (FObject members (Some k) :: st, EColon)
  | _, _ => None
  end.

Definition step (st : state) (t : token) : option state :=
  let (stack, e) := st in
  match e with
  | EValue => value stack t
  | EValueOrEnd =>
      match t with
      | TEndArray => closeArray stack
      | _ => value stack t
      end
  | EKeyOrEnd =>
      match t with
      | TEndObject => closeObject stack
      | _ => key stack t
      end
  | EKey => key stack t
  | EColon =>
      match t with
      | TNameSeparator => Some (stack, EValue)
      | _ => None
      end
  | ECommaOrEnd =>
      match t, stack with
      | TValueSeparator, FArray _ :: _ => Some (stack, EValue)
      | TValueSeparator, FObject _ _ :: _ => Some (stack, EKey)
      | TEndArray, _ => closeArray stack
      | TEndObject, _ => closeObject stack
      | _, _ => None
      end
  | EDone _ => None
  end.

Fixpoint run (st : state) (ts : list token) : option JSValue :=
  match ts with
  | [] => match st with (_, EDone v) => Some v | _ => None end
  | t :: ts' =>
      match step st t with
      | Some st' => run st' ts'
      | None => None
      end
  end.

(** [JSON.parse(text)] without a reviver: the value, or a
    [SyntaxError] of the runtime. *)
Definition parse (text : jsstring) : completion :=
  match lex Idle [] text with
  | None => Throw NativeSyntaxError
  | Some ts =>
      match run ([], EValue) ts with
      | Some v => Return v
      | None => Throw NativeSyntaxError
      end
  end.

End JSON.


Module Ecma.

(** Value of a digit run in the given radix, if every unit is a digit
    of that radix. *)
Definition digits (radix : N) (s : jsstring) : option N :=
  match s with
  | [] => None
  | _ =>
      fold_left
        (fun acc c =>
           match acc, JSON.hexValue c with
           | Some a, Some d => if N.ltb d radix then Some (a * radix + d)%N else None
           | _, _ => None
           end)
        s (Some 0%N)
  end.

(** StringToBigInt: surrounding white space is dropped; the empty text
    is zero; then a decimal digit run with an optional sign, or an
    unsigned [0x], [0o] or [0b] literal. *)
Definition StringToBigInt (text : jsstring) : option Z :=
  match Str.trim text with
  | [] => Some 0%Z
  | c :: r =>
      let prefixed :=
        match r with
        | p :: r' =>
            if N.eqb c 48 then
              if N.eqb p 120 || N.eqb p 88 then Some (digits 16 r')
              else if N.eqb p 111 || N.eqb p 79 then Some (digits 8 r')
              else if N.eqb p 98 || N.eqb p 66 then Some (digits 2 r')
              else None
            else None
        | [] => None
        end in
      match prefixed with
      | Some n => option_map Z.of_N n
      | None =>
          if N.eqb c 45 then option_map (fun n => (- Z.of_N n)%Z) (digits 10 r)
          else if N.eqb c 43 then option_map Z.of_N (digits 10 r)
          else option_map Z.of_N (digits 10 (c :: r))
      end
  end.

(** [BigInt(text)] on a string. *)
Definition BigInt (text : jsstring) : completion :=
  match StringToBigInt text with
  | Some z => Return (VBigInt z)
  | None => Throw NativeSyntaxError
  end.

End Ecma.

(** The two runtime functions the source calls.  The results about
    every input are stated for an arbitrary runtime; [ecmascript] is the
    one the examples run on. *)
Record Runtime : Type :=
  { JSON_parse : jsstring -> completion;
    BigInt : jsstring -> completion }.

Definition ecmascript : Runtime :=
  {| JSON_parse := JSON.parse; BigInt := Ecma.BigInt |}.

(** [try { body } catch (error) { handler }]. *)
Definition tryCatch (body : completion) (handler : exn -> completion) : completion :=
  match body with
  | Return v => Return v
  | Throw e => handler e
  end.

(** [o === c] for the result of [codePointAt] or of indexing. *)
Definition equals (o : option N) (c : N) : bool :=
  match o with Some d => N.eqb d c | None => false end.

(* ================================================================== *)
(** * Constants shared by the two files (lines 4 to 25 of both) *)
(* ================================================================== *)

(** An escape [\u00XY]: backslash, [u], [0{2}], then the two given parts. *)
Definition u00 (x : string) (y : Rx.regex) : Rx.regex :=
  Rx.seq [Rx.Unit 92; Rx.text "u"; Rx.times 2 (Rx.text "0"); Rx.text x; y].

(** An escape [\uWXYZ] written out, as in [suspectConstructorRx]. *)
Definition u4 (wxy : string) (z : Rx.regex) : Rx.regex :=
  Rx.seq [Rx.Unit 92; Rx.text "u"; Rx.text wxy; z].

Definition suspectProtoRx : Rx.RegExp :=
  {| Rx.fromStart := false;
     Rx.pattern :=
       Rx.seq
         [ Rx.Unit 34;
           Rx.times 2 (Rx.Alt (Rx.text "_") (u00 "5" (Rx.oneOf "Ff")));
           Rx.Alt (Rx.text "p") (u00 "7" (Rx.text "0"));
           Rx.Alt (Rx.text "r") (u00 "7" (Rx.text "2"));
           Rx.Alt (Rx.text "o") (u00 "6" (Rx.oneOf "Ff"));
           Rx.Alt (Rx.text "t") (u00 "7" (Rx.text "4"));
           Rx.Alt (Rx.text "o") (u00 "6" (Rx.oneOf "Ff"));
           Rx.times 2 (Rx.Alt (Rx.text "_") (u00 "5" (Rx.oneOf "Ff")));
           Rx.Unit 34;
           Rx.Star Rx.space;
           Rx.text ":" ];
     Rx.toEnd := false |}.

Definition suspectConstructorRx : Rx.RegExp :=
  {| Rx.fromStart := false;
     Rx.pattern :=
       Rx.seq
         [ Rx.Unit 34;
           Rx.Alt (Rx.text "c") (u4 "006" (Rx.text "3"));
           Rx.Alt (Rx.text "o") (u4 "006" (Rx.oneOf "Ff"));
           Rx.Alt (Rx.text "n") (u4 "006" (Rx.oneOf "Ee"));
           Rx.Alt (Rx.text "s") (u4 "007" (Rx.text "3"));
           Rx.Alt (Rx.text "t") (u4 "007" (Rx.text "4"));
           Rx.Alt (Rx.text "r") (u4 "007" (Rx.text "2"));
           Rx.Alt (Rx.text "u") (u4 "007" (Rx.text "5"));
           Rx.Alt (Rx.text "c") (u4 "006" (Rx.text "3"));
           Rx.Alt (Rx.text "t") (u4 "007" (Rx.text "4"));
           Rx.Alt (Rx.text "o") (u4 "006" (Rx.oneOf "Ff"));
           Rx.Alt (Rx.text "r") (u4 "007" (Rx.text "2"));
           Rx.Unit 34;
           Rx.Star Rx.space;
           Rx.text ":" ];
     Rx.toEnd := false |}.

(** [/^\s*-?\d/] *)
Definition leadingDigitRegex : Rx.RegExp :=
  {| Rx.fromStart := true;
     Rx.pattern := Rx.seq [Rx.Star Rx.space; Rx.opt (Rx.text "-"); Rx.digit];
     Rx.toEnd := false |}.

(** [/^-?\d+n$/i]: the flag only bears on the letter. *)
Definition BIGINT_REGEX : Rx.RegExp :=
  {| Rx.fromStart := true;
     Rx.pattern := Rx.seq [Rx.opt (Rx.text "-"); Rx.plus Rx.digit; Rx.oneOf "nN"];
     Rx.toEnd := true |}.

Definition KNOWN_VALUES : list (jsstring * JSValue) :=
  [ (lit "true", VBool true);
    (lit "false", VBool false);
    (lit "null", VUndefined);
    (lit "undefined", VUndefined);
    (lit "NaN", VNumber NaN);
    (lit "Infinity", VNumber PositiveInfinity);
    (lit "-Infinity", VNumber NegativeInfinity) ].

(** [map.get(key)] on a [Map] with string keys: [undefined] when the key
    is absent. *)
Fixpoint Map_get (m : list (jsstring * JSValue)) (key : jsstring) : JSValue :=
  match m with
  | [] => VUndefined
  | (k, v) :: rest => if Str.eqb k key then v else Map_get rest key
  end.

(** The step of the cascade that takes an input. *)
Inductive step : Type :=
| KnownLiteral
| EmptyQuoted
| QuotedLiteral
| BigintLiteral
| StructuralJSON
| Fallback.

(* ================================================================== *)
(** * src/src/index.ts *)
(* ================================================================== *)

Module Index.

Section Synapse.

Variable rt : Runtime.

(** Lines 54 to 61: the bigint literal. *)
Definition bigintStep (value : JSValue) (_value : jsstring) (options : Options)
  : completion :=
  tryCatch
    (BigInt rt (Str.slice _value 0 (-1)))
    (fun _ =>
       if isStrict options then
         Throw (SyntaxError (lit "[synapse] Invalid BigInt: " ++ _value))
       else Return value).

(** Lines 72 to 85: the structural JSON candidate.  The runtime's
    parser is handed [value], the text as it came. *)
Definition parseStep (value : JSValue) (text : jsstring) (options : Options)
  : completion :=
  tryCatch
    (if isStrict options
        && (Rx.test suspectProtoRx text || Rx.test suspectConstructorRx text)
     then Throw (Error (lit "[synapse] Possible prototype pollution"))
     else JSON_parse rt text)
    (fun error => if isStrict options then Throw error else Return value).

(** Lines 88 to 91: nothing matched. *)
Definition fallbackStep (value : JSValue) (options : Options) : completion :=
  if isStrict options then Throw (SyntaxError (lit "[synapse] Invalid JSON"))
  else Return value.

(** [synapse(value, options)], lines 27 to 92. *)
Definition synapse (value : JSValue) (options : Options) : completion :=
  match value with
  | VString text =>
      let _value := Str.trim text in
      let len := Str.length _value in
      if (len <=? 10)%Z && isDefined (Map_get KNOWN_VALUES _value) then
        Return (Map_get KNOWN_VALUES _value)
      else if (len =? 2)%Z && equals (Str.codePointAt _value 0) 34 then
        Return (VString [])
      else if equals (Str.codePointAt _value 0) 34
              && equals (Str.codePointAt _value (len - 1)) 34 then
        Return (VString (Str.slice _value 1 (-1)))
      else if Rx.test BIGINT_REGEX _value then
        bigintStep value _value options
      else
        let firstChar := Str.codePointAt _value 0 in
        if equals firstChar 91 || equals firstChar 123 || equals firstChar 34
           || Rx.test leadingDigitRegex _value then
          parseStep value text options
        else fallbackStep value options
  | _ => Return value    (* typeof value !== "string" *)
  end.

(** [safesynapse(value, options)]: [{ ...options, strict: true }]. *)
Definition safesynapse (value : JSValue) (options : Options) : completion :=
  synapse value {| strict := Some true |}.

End Synapse.

(** The step that takes a trimmed candidate: the first guard of
    [synapse] it passes. *)
Definition branch (_value : jsstring) : step :=
  let len := Str.length _value in
  if (len <=? 10)%Z && isDefined (Map_get KNOWN_VALUES _value) then KnownLiteral
  else if (len =? 2)%Z && equals (Str.codePointAt _value 0) 34 then EmptyQuoted
  else if equals (Str.codePointAt _value 0) 34
          && equals (Str.codePointAt _value (len - 1)) 34 then QuotedLiteral
  else if Rx.test BIGINT_REGEX _value then BigintLiteral
  else if equals (Str.codePointAt _value 0) 91
          || equals (Str.codePointAt _value 0) 123
          || equals (Str.codePointAt _value 0) 34
          || Rx.test leadingDigitRegex _value then StructuralJSON
  else Fallback.

(** The failure paths of [synapse]: the candidate went to the parser,
    which rejected the text; it went to [BigInt], which rejected the
    digits; or no step took it. *)
Inductive failure (rt : Runtime) (text : jsstring) : Prop :=
| unparseable (e : exn) :
    branch (Str.trim text) = StructuralJSON ->
    JSON_parse rt text = Throw e -> failure rt text
| rejectedBigint (e : exn) :
    branch (Str.trim text) = BigintLiteral ->
    BigInt rt (Str.slice (Str.trim text) 0 (-1)) = Throw e -> failure rt text
| noMatch :
    branch (Str.trim text) = Fallback -> failure rt text.

End Index.

(* ================================================================== *)
(** * src/unnamed/part_000 *)
(* ================================================================== *)

Module Part000.

(** One round of the loop of lines 37 to 42, reading the cleaned
    value of [key] from [cleaned]. *)
Definition cleanLoop (cleaned result : Obj.props) (key : jsstring) : Obj.props :=
  if Str.eqb key (lit "__proto__") then result
  else Obj.set result key (Obj.get cleaned key).

(** [cleanObject(obj)], lines 27 to 44.  The recursive calls on the
    property values are made first, over the property list, and the
    loop over [Object.keys(obj)] then reads the cleaned values. *)
Fixpoint cleanObject (obj : JSValue) : JSValue :=
  match obj with
  | VArray items => VArray (map cleanObject items)
  | VObject props =>
      let cleaned : Obj.props :=
        (fix values (ps : list (jsstring * JSValue)) : Obj.props :=
           match ps with
           | [] => []
           | (k, v) :: rest => (k, cleanObject v) :: values rest
           end) props in
      VObject (fold_left (Part000.cleanLoop cleaned) (Obj.keys props) [])
  | _ => obj    (* typeof obj !== "object" || obj === null *)
  end.

(** The property list with every value cleaned. *)
Definition cleanValues (props : Obj.props) : Obj.props :=
  map (fun kv => (fst kv, cleanObject (snd kv))) props.

(** No key [__proto__] is left in [o], nor any value that holds one. *)
Definition stripped (o : Obj.props) : Prop :=
  forall k v, In (k, v) o ->
    Str.eqb k (lit "__proto__") = false
    /\ hasKeyDeep (lit "__proto__") v = false.

(** [checkPrototypePollution(value)], lines 46 to 48. *)
Definition checkPrototypePollution (value : jsstring) : bool :=
  Rx.test suspectProtoRx value || Rx.test suspectConstructorRx value.

(** What a call leaves behind: the lines written with [console.warn]
    and the completion. *)
Record outcome : Type :=
  { console : list jsstring; result : completion }.

Definition quiet (c : completion) : outcome :=
  {| console := []; result := c |}.

Section Synapse.

Variable rt : Runtime.

(** Lines 70 to 87: the candidate opens with a quote. *)
Definition quotedStep (value : JSValue) (_value : jsstring) (options : Options)
  : completion :=
  let len := Str.length _value in
  if isStrict options
     && (negb (Str.endsWith _value [34%N]) || (len <? 2)%Z) then
    Throw (SyntaxError (lit "[synapse] Invalid JSON"))
  else if (len =? 2)%Z && equals (Str.at_ _value 1) 34 then
    Return (VString [])
  else
    tryCatch
      (JSON_parse rt _value)
      (fun _ =>
         if isStrict options then
           Throw (SyntaxError (lit "[synapse] Invalid JSON"))
         else Return value).

(** Lines 89 to 98: the bigint literal. *)
Definition bigintStep (value : JSValue) (_value : jsstring) (options : Options)
  : completion :=
  tryCatch
    (BigInt rt (Str.slice _value 0 (-1)))
    (fun _ =>
       if isStrict options then
         Throw (SyntaxError (lit "[synapse] Invalid BigInt: " ++ _value))
       else Return value).

(** Lines 108 to 124: the structural JSON candidate.  The warning is
    written before anything can be thrown. *)
Definition parseStep (value : JSValue) (_value : jsstring) (options : Options)
  : outcome :=
  {| console :=
       if checkPrototypePollution _value
       then [lit "[synapse] Possible prototype pollution"]
       else [];
     result :=
       tryCatch
         (if checkPrototypePollution _value && isStrict options
          then Throw (Error (lit "[synapse] Possible prototype pollution"))
          else match JSON_parse rt _value with
               | Return parsed => Return (cleanObject parsed)
               | Throw e => Throw e
               end)
         (fun error =>
            if isStrict options then Throw error else Return value) |}.

(** Lines 127 to 130: nothing matched. *)
Definition fallbackStep (value : JSValue) (options : Options) : completion :=
  if isStrict options then Throw (SyntaxError (lit "[synapse] Invalid JSON"))
  else Return value.

(** [synapse(value, options)], lines 50 to 131. *)
Definition synapse (value : JSValue) (options : Options) : outcome :=
  match value with
  | VString text =>
      let _value := Str.trim text in
      let len := Str.length _value in
      let lowerValue := Str.toLowerCase _value in
      let knownValue := Map_get KNOWN_VALUES lowerValue in
      if (len <=? 10)%Z
         && (isDefined knownValue
             || Str.eqb lowerValue (lit "null")
             || Str.eqb lowerValue (lit "undefined")) then
        quiet (Return knownValue)
      else if equals (Str.at_ _value 0) 34 then
        quiet (quotedStep value _value options)
      else if Rx.test BIGINT_REGEX _value then
        quiet (bigintStep value _value options)
      else
        let firstChar := Str.at_ _value 0 in
        if equals firstChar 91 || equals firstChar 123 || equals firstChar 34
           || Rx.test leadingDigitRegex _value then
          parseStep value _value options
        else quiet (fallbackStep value options)
  | _ => quiet (Return value)    (* typeof value !== "string" *)
  end.

(** [safesynapse(value, options)]: [{ ...options, strict: true }]. *)
Definition safesynapse (value : JSValue) (options : Options) : outcome :=
  synapse value {| strict := Some true |}.

End Synapse.

(** The step that takes a trimmed candidate: the first guard of
    [synapse] it passes. *)
Definition branch (_value : jsstring) : step :=
  let len := Str.length _value in
  let lowerValue := Str.toLowerCase _value in
  if (len <=? 10)%Z
     && (isDefined (Map_get KNOWN_VALUES lowerValue)
         || Str.eqb lowerValue (lit "null")
         || Str.eqb lowerValue (lit "undefined")) then KnownLiteral
  else if equals (Str.at_ _value 0) 34 then
    if (len =? 2)%Z && equals (Str.at_ _value 1) 34 then EmptyQuoted
    else QuotedLiteral
  else if Rx.test BIGINT_REGEX _value then BigintLiteral
  else if equals (Str.at_ _value 0) 91
          || equals (Str.at_ _value 0) 123
          || equals (Str.at_ _value 0) 34
          || Rx.test leadingDigitRegex _value then StructuralJSON
  else Fallback.

(** The failure paths of [synapse]: the parser rejected a quoted or a
    structural candidate; [BigInt] rejected the digits; or no step took
    the candidate. *)
Inductive failure (rt : Runtime) (text : jsstring) : Prop :=
| unparseableQuoted (e : exn) :
    branch (Str.trim text) = QuotedLiteral ->
    JSON_parse rt (Str.trim text) = Throw e -> failure rt text
| unparseable (e : exn) :
    branch (Str.trim text) = StructuralJSON ->
    JSON_parse rt (Str.trim text) = Throw e -> failure rt text
| rejectedBigint (e : exn) :
    branch (Str.trim text) = BigintLiteral ->
    BigInt rt (Str.slice (Str.trim text) 0 (-1)) = Throw e -> failure rt text
| noMatch :
    branch (Str.trim text) = Fallback -> failure rt text.

End Part000.

(* ================================================================== *)
(** * The specification's notion of a suspect key *)
(* ================================================================== *)

(** These definitions follow the specification's words, not the source:
    a key "spelled" with some of its characters written as [\uXXXX]
    escapes, "immediately followed by optional whitespace and a colon".
    They are what the two patterns of the source are compared with. *)

(** The hexadecimal digit of [d], below 16, in either case. *)
Definition hexDigit (upper : bool) (d : N) : N :=
  if N.ltb d 10 then (48 + d)%N
  else if upper then (55 + d)%N else (87 + d)%N.

(** The escape [\uXXXX] of a code unit. *)
Definition escapeOf (upper : bool) (c : N) : jsstring :=
  [ 92%N; 117%N;
    hexDigit upper (N.modulo (N.div c 4096) 16);
    hexDigit upper (N.modulo (N.div c 256) 16);
    hexDigit upper (N.modulo (N.div c 16) 16);
    hexDigit upper (N.modulo c 16) ].

(** One character of a key, as it stands or escaped. *)
Inductive SpelledUnit (c : N) : jsstring -> Prop :=
| AsIs : SpelledUnit c [c]
| Escaped (upper : bool) : SpelledUnit c (escapeOf upper c).

(** [Spelled key text]: [text] spells [key], character by character. *)
Inductive Spelled : jsstring -> jsstring -> Prop :=
| SpelledNil : Spelled [] []
| SpelledCons (c : N) (key e text : jsstring) :
    SpelledUnit c e -> Spelled key text -> Spelled (c :: key) (e ++ text).

(** [text] contains the key between quotes, then optional white space
    and a colon. *)
Definition containsKey (key text : jsstring) : Prop :=
  exists pre spelling ws post,
    text = pre ++ 34%N :: spelling ++ 34%N :: ws ++ 58%N :: post
    /\ Spelled key spelling
    /\ forallb Str.isWhiteSpace ws = true.

(* ================================================================== *)
(** * Texts of the specification's examples *)
(* ================================================================== *)

(** [{"__proto__":{"polluted":true},"a":1}] *)
Definition pollutedText : jsstring := quoted "{'__proto__':{'polluted':true},'a':1}".

(** [{"__proto__":{"x":1}}] *)
Definition protoText : jsstring := quoted "{'__proto__':{'x':1}}".

(** The same key with its four underscores spelled as escapes, the
    backslashes being part of the text. *)
Definition escapedProtoText : jsstring :=
  quoted "{'\u005f\u005fproto\u005f\u005f':1}".

(** [{"constructor":{"x":1}}] *)
Definition constructorText : jsstring := quoted "{'constructor':{'x':1}}".

(** ["a\nb"]: a quote, [a], a backslash, [n], [b], a quote. *)
Definition escapedNewlineText : jsstring := quoted "'a\nb'".

(** The word [__proto__] between quotes, a colon, and two quotes: a text
    that starts and ends with a quote and is no JSON. *)
Definition keyOnlyText : jsstring := quoted "'__proto__':''".

(** The message of the pollution error. *)
Definition pollutionMessage : jsstring := lit "[synapse] Possible prototype pollution".

(** The number [n] as [JSON.parse] reads it from its decimal digits. *)
Definition int (n : N) : JSValue := VNumber (Finite false n 0).

(* ================================================================== *)
(** * Objects as the runtime lists them, and what the walk computes *)
(* ================================================================== *)

(** [before k1 k2]: the key [k1] can stand before the different key
    [k2] in the list of an object's own keys: array indices come first,
    in ascending order, then the other keys. *)
Definition before (k1 k2 : jsstring) : bool :=
  match Obj.arrayIndex k1, Obj.arrayIndex k2 with
  | Some i, Some j => N.ltb i j
  | Some _, None => true
  | None, Some _ => false
  | None, None => negb (Str.eqb k1 k2)
  end.

(** A list of distinct keys in the order [Object.keys] reports them. *)
Fixpoint ordered (ks : list jsstring) : bool :=
  match ks with
  | [] => true
  | k :: rest => forallb (before k) rest && ordered rest
  end.

(** A value all of whose objects, at any depth, list their properties in
    that order: the values the runtime builds. *)
Fixpoint wellFormed (v : JSValue) : bool :=
  match v with
  | VArray items => forallb wellFormed items
  | VObject props =>
      ordered (Obj.keys props)
      && (fix all (ps : list (jsstring * JSValue)) : bool :=
            match ps with
            | [] => true
            | (_, w) :: rest => wellFormed w && all rest
            end) props
  | _ => true
  end.

(** The values held by an open container of the parser are well
    formed, and so is a finished value. *)
Definition frameWellFormed (f : JSON.frame) : bool :=
  match f with
  | JSON.FArray items => forallb wellFormed items
  | JSON.FObject members _ => wellFormed (VObject members)
  end.

Definition stateWellFormed (st : JSON.state) : bool :=
  forallb frameWellFormed (fst st)
  && match snd st with
     | JSON.EDone v => wellFormed v
     | _ => true
     end.

(** A property that is not named [__proto__]. *)
Definition notProto (kv : jsstring * JSValue) : bool :=
  negb (Str.eqb (fst kv) (lit "__proto__")).

(** The value without its properties named [__proto__], at any depth,
    everything else left where it is. *)
Fixpoint strip (v : JSValue) : JSValue :=
  match v with
  | VArray items => VArray (map strip items)
  | VObject props =>
      VObject
        ((fix kept (ps : list (jsstring * JSValue)) : Obj.props :=
            match ps with
            | [] => []
            | (k, w) :: rest =>
                if Str.eqb k (lit "__proto__") then kept rest
                else (k, strip w) :: kept rest
            end) props)
  | _ => v
  end.

(* ================================================================== *)
(** * Facts about the runtime model *)
(* ================================================================== *)

Lemma Str_eqb_eq (a b : jsstring) : Str.eqb a b = true <-> a = b.
Proof.
  revert b; induction a as [|x a IH]; intros [|y b]; simpl;
    try (split; (discriminate || reflexivity)).
  rewrite andb_true_iff, N.eqb_eq, IH.
  split; [intros [-> ->]; reflexivity | intros H; inversion H; auto].
Qed.

Lemma Str_eqb_refl (a : jsstring) : Str.eqb a a = true.
Proof. apply Str_eqb_eq; reflexivity. Qed.

Lemma Str_eqb_neq (a b : jsstring) : Str.eqb a b = false <-> a <> b.
Proof.
  rewrite <- Str_eqb_eq. destruct (Str.eqb a b); split; congruence.
Qed.

Lemma Str_eqb_sym (a b : jsstring) : Str.eqb a b = Str.eqb b a.
Proof.
  destruct (Str.eqb a b) eqn:E.
  - apply Str_eqb_eq in E; subst; symmetry; apply Str_eqb_refl.
  - symmetry; apply Str_eqb_neq; apply Str_eqb_neq in E; congruence.
Qed.

(** ** Matching by derivatives is matching *)

Lemma nullable_Matches (r : Rx.regex) : Rx.nullable r = true <-> Rx.Matches r [].
Proof.
  split.
  - induction r; simpl; intros H; try discriminate.
    + constructor.
    + apply andb_true_iff in H as [H1 H2].
      apply (Rx.MSeq (u := []) (v := [])); auto.
    + apply orb_true_iff in H as [H | H];
        [apply Rx.MAltL | apply Rx.MAltR]; auto.
    + constructor.
  - intros H. remember [] as w eqn:Ew in H.
    induction H; try discriminate; try reflexivity; simpl.
    + apply app_eq_nil in Ew as [-> ->]. rewrite IHMatches1, IHMatches2; auto.
    + rewrite IHMatches; auto.
    + rewrite IHMatches; auto. apply orb_true_r.
Qed.

(** A non-empty word of a starred pattern starts with a non-empty word
    of the pattern. *)
Lemma Matches_Star_cons (r : Rx.regex) (c : N) (s : jsstring) :
  Rx.Matches (Rx.Star r) (c :: s) ->
  exists u v, s = u ++ v /\ Rx.Matches r (c :: u) /\ Rx.Matches (Rx.Star r) v.
Proof.
  intros H. remember (Rx.Star r) as R eqn:ER. remember (c :: s) as w eqn:Ew.
  induction H; try discriminate.
  inversion ER; subst r0. destruct u as [|d u]; simpl in Ew.
  - apply IHMatches2; auto.
  - inversion Ew; subst. exists u, v. auto.
Qed.

Lemma Matches_Seq_inv (r s : Rx.regex) (w : jsstring) :
  Rx.Matches (Rx.Seq r s) w ->
  exists u v, w = u ++ v /\ Rx.Matches r u /\ Rx.Matches s v.
Proof. intros H. inversion H; subst. eauto. Qed.

Lemma Matches_Alt_inv (r s : Rx.regex) (w : jsstring) :
  Rx.Matches (Rx.Alt r s) w -> Rx.Matches r w \/ Rx.Matches s w.
Proof. intros H. inversion H; subst; auto. Qed.

Lemma deriv_Matches (r : Rx.regex) (c : N) :
  forall s, Rx.Matches (Rx.deriv r c) s <-> Rx.Matches r (c :: s).
Proof.
  induction r as [ | | d | p | r1 IH1 r2 IH2 | r1 IH1 r2 IH2 | r IH]; intros s; simpl.
  - split; intros H; inversion H.
  - split; intros H; inversion H.
  - destruct (N.eqb_spec d c) as [-> | Hd]; split; intros H; inversion H; subst.
    + constructor.
    + constructor.
    + congruence.
  - destruct (p c) eqn:Hp; split; intros H; inversion H; subst.
    + constructor; exact Hp.
    + constructor.
    + congruence.
  - assert (Hseq : Rx.Matches (Rx.Seq (Rx.deriv r1 c) r2) s ->
                   Rx.Matches (Rx.Seq r1 r2) (c :: s)).
    { intros H. inversion H; subst.
      apply (Rx.MSeq (u := c :: u)); [apply IH1|]; assumption. }
    split.
    + destruct (Rx.nullable r1) eqn:Hn; [|exact Hseq].
      intros H. inversion H; subst; [auto|].
      apply (Rx.MSeq (u := [])); [apply nullable_Matches; exact Hn | apply IH2; assumption].
    + intros H. apply Matches_Seq_inv in H as [u [v [E [Hu Hv]]]].
      destruct u as [|d u]; simpl in E.
      * subst v. apply nullable_Matches in Hu. rewrite Hu.
        apply Rx.MAltR, IH2, Hv.
      * injection E as Ec Es. subst d s.
        assert (Hs : Rx.Matches (Rx.Seq (Rx.deriv r1 c) r2) (u ++ v))
          by (constructor; [apply IH1|]; assumption).
        destruct (Rx.nullable r1); [apply Rx.MAltL|]; exact Hs.
  - split; intros H; inversion H; subst.
    + apply Rx.MAltL, IH1; assumption.
    + apply Rx.MAltR, IH2; assumption.
    + apply Rx.MAltL, IH1; assumption.
    + apply Rx.MAltR, IH2; assumption.
  - split; intros H.
    + inversion H; subst.
      apply (Rx.MStarCons (u := c :: u)); [apply IH|]; assumption.
    + apply Matches_Star_cons in H as [u [v [-> [Hu Hv]]]].
      constructor; [apply IH|]; assumption.
Qed.

Lemma accepts_Matches (s : jsstring) :
  forall r, Rx.accepts r s = true <-> Rx.Matches r s.
Proof.
  induction s as [|c s IH]; intros r; simpl.
  - apply nullable_Matches.
  - rewrite IH. apply deriv_Matches.
Qed.

Lemma acceptsPrefix_Matches (s : jsstring) :
  forall r, Rx.acceptsPrefix r s = true <->
            exists u v, s = u ++ v /\ Rx.Matches r u.
Proof.
  induction s as [|c s IH]; intros r; simpl; rewrite orb_true_iff, nullable_Matches.
  - split.
    + intros [H | H]; [exists [], []; auto | discriminate].
    + intros [u [v [E H]]]. symmetry in E. apply app_eq_nil in E as [-> _]. auto.
  - rewrite IH. split.
    + intros [H | [u [v [-> H]]]].
      * exists [], (c :: s); auto.
      * exists (c :: u), v. split; [reflexivity | apply deriv_Matches; exact H].
    + intros [[|d u] [v [E H]]]; [auto|].
      inversion E; subst. right. exists u, v.
      split; [reflexivity | apply deriv_Matches; exact H].
Qed.

Lemma anywhere_spec (f : jsstring -> bool) (s : jsstring) :
  Rx.anywhere f s = true <-> exists pre post, s = pre ++ post /\ f post = true.
Proof.
  induction s as [|c s IH]; simpl; rewrite orb_true_iff.
  - split.
    + intros [H | H]; [exists [], []; auto | discriminate].
    + intros [pre [post [E H]]]. symmetry in E.
      apply app_eq_nil in E as [_ ->]. auto.
  - rewrite IH. split.
    + intros [H | [pre [post [-> H]]]].
      * exists [], (c :: s); auto.
      * exists (c :: pre), post; auto.
    + intros [[|d pre] [post [E H]]]; simpl in E.
      * subst post; auto.
      * inversion E; subst. right. exists pre, post; auto.
Qed.

(** What [test] decides, for each way a pattern is anchored. *)
Lemma test_whole (re : Rx.RegExp) (s : jsstring) :
  Rx.fromStart re = true -> Rx.toEnd re = true ->
  Rx.test re s = true <-> Rx.Matches (Rx.pattern re) s.
Proof. unfold Rx.test. intros -> ->. apply accepts_Matches. Qed.

Lemma test_prefix (re : Rx.RegExp) (s : jsstring) :
  Rx.fromStart re = true -> Rx.toEnd re = false ->
  Rx.test re s = true <-> exists u v, s = u ++ v /\ Rx.Matches (Rx.pattern re) u.
Proof. unfold Rx.test. intros -> ->. apply acceptsPrefix_Matches. Qed.

Lemma test_search (re : Rx.RegExp) (s : jsstring) :
  Rx.fromStart re = false -> Rx.toEnd re = false ->
  Rx.test re s = true <->
  exists pre u post, s = pre ++ u ++ post /\ Rx.Matches (Rx.pattern re) u.
Proof.
  unfold Rx.test. intros -> ->. rewrite anywhere_spec. split.
  - intros [pre [rest [-> H]]]. apply acceptsPrefix_Matches in H as [u [post [-> H]]].
    exists pre, u, post; auto.
  - intros [pre [u [post [-> H]]]]. exists pre, (u ++ post).
    split; [reflexivity|]. apply acceptsPrefix_Matches. exists u, post; auto.
Qed.

(** Induction over values, through arrays and property lists. *)
Lemma JSValue_ind (P : JSValue -> Prop)
  (Hundef : P VUndefined) (Hnull : P VNull)
  (Hbool : forall b, P (VBool b)) (Hnum : forall n, P (VNumber n))
  (Hbig : forall z, P (VBigInt z)) (Hstr : forall s, P (VString s))
  (Hsym : forall r, P (VSymbol r)) (Hfun : forall r, P (VFunction r))
  (Harr : forall items, Forall P items -> P (VArray items))
  (Hobj : forall props, Forall (fun kv => P (snd kv)) props -> P (VObject props)) :
  forall v, P v.
Proof.
  fix IH 1. intros [ | | b | n | z | s | r | r | items | props].
  - exact Hundef.
  - exact Hnull.
  - apply Hbool.
  - apply Hnum.
  - apply Hbig.
  - apply Hstr.
  - apply Hsym.
  - apply Hfun.
  - apply Harr. induction items as [|x items IHi]; constructor.
    + apply IH.
    + exact IHi.
  - apply Hobj. induction props as [|[k x] props IHp]; constructor.
    + apply IH.
    + exact IHp.
Qed.

(** ** Strings *)

Lemma at_last (l : jsstring) (x : N) :
  Str.at_ (l ++ [x]) (Str.length (l ++ [x]) - 1) = Some x.
Proof.
  unfold Str.at_, Str.length. rewrite length_app; simpl.
  destruct (Z.ltb_spec (Z.of_nat (List.length l + 1) - 1) 0); [lia|].
  replace (Z.to_nat (Z.of_nat (List.length l + 1) - 1)) with (List.length l) by lia.
  rewrite nth_error_app2, Nat.sub_diag by lia. reflexivity.
Qed.

Lemma slice_inner (a b : N) (inner : jsstring) :
  Str.slice (a :: inner ++ [b]) 1 (-1) = inner.
Proof.
  unfold Str.slice, Str.length. simpl List.length. rewrite length_app; simpl List.length.
  destruct (Z.ltb_spec 1 0); [lia|]. destruct (Z.ltb_spec (-1) 0); [|lia].
  rewrite Z.min_l, Z.max_l by lia. simpl skipn.
  replace (Z.to_nat _) with (List.length inner + 0)%nat by lia.
  rewrite firstn_app_2. simpl. apply app_nil_r.
Qed.

Lemma codePointAt_plain (s : jsstring) (pos : Z) (c : N) :
  Str.at_ s pos = Some c -> Str.isHighSurrogate c = false ->
  Str.codePointAt s pos = Some c.
Proof. unfold Str.codePointAt. intros -> ->. reflexivity. Qed.

(** ** The literal table *)

(** No key of the table starts with a quote, a bracket or a brace. *)
Lemma Map_get_KNOWN_VALUES_opening (c : N) (rest : jsstring) :
  c = 34%N \/ c = 91%N \/ c = 123%N ->
  Map_get KNOWN_VALUES (c :: rest) = VUndefined.
Proof. intros [-> | [-> | ->]]; reflexivity. Qed.

(** ** The cascade, step by step *)

Section Cascade.

Variable rt : Runtime.

Lemma Index_synapse_branch (text : jsstring) (options : Options) :
  Index.synapse rt (VString text) options =
  match Index.branch (Str.trim text) with
  | KnownLiteral => Return (Map_get KNOWN_VALUES (Str.trim text))
  | EmptyQuoted => Return (VString [])
  | QuotedLiteral => Return (VString (Str.slice (Str.trim text) 1 (-1)))
  | BigintLiteral => Index.bigintStep rt (VString text) (Str.trim text) options
  | StructuralJSON => Index.parseStep rt (VString text) text options
  | Fallback => Index.fallbackStep (VString text) options
  end.
Proof.
  unfold Index.synapse, Index.branch. cbv zeta.
  repeat match goal with
         | |- context [if ?b then _ else _] => destruct b eqn:?
         end; reflexivity.
Qed.

Lemma Part000_synapse_branch (text : jsstring) (options : Options) :
  Part000.synapse rt (VString text) options =
  match Part000.branch (Str.trim text) with
  | KnownLiteral =>
      Part000.quiet
        (Return (Map_get KNOWN_VALUES (Str.toLowerCase (Str.trim text))))
  | EmptyQuoted | QuotedLiteral =>
      Part000.quiet (Part000.quotedStep rt (VString text) (Str.trim text) options)
  | BigintLiteral =>
      Part000.quiet (Part000.bigintStep rt (VString text) (Str.trim text) options)
  | StructuralJSON =>
      Part000.parseStep rt (VString text) (Str.trim text) options
  | Fallback => Part000.quiet (Part000.fallbackStep (VString text) options)
  end.
Proof.
  unfold Part000.synapse, Part000.branch. cbv zeta.
  repeat match goal with
         | |- context [if ?b then _ else _] => destruct b eqn:?
         end; reflexivity.
Qed.

End Cascade.

(** ** Property lists *)

Lemma Obj_In_replace (o : Obj.props) (key k : jsstring) (v w : JSValue) :
  In (k, v) (Obj.replace o key w) -> (k = key /\ v = w) \/ In (k, v) o.
Proof.
  induction o as [|[k0 v0] o IH]; simpl; [tauto|].
  destruct (Str.eqb k0 key) eqn:E; simpl.
  - apply Str_eqb_eq in E; subst k0.
    intros [H | H]; [inversion H; subst; auto | auto].
  - intros [H | H]; [auto | destruct (IH H); auto].
Qed.

Lemma Obj_In_insertIndex (o : Obj.props) (i : N) (key k : jsstring) (v w : JSValue) :
  In (k, v) (Obj.insertIndex o i key w) -> (k = key /\ v = w) \/ In (k, v) o.
Proof.
  induction o as [|[k0 v0] o IH]; simpl.
  - intros [H | []]; inversion H; auto.
  - destruct (Obj.arrayIndex k0) as [j|]; [destruct (N.ltb j i)|]; simpl.
    + intros [H | H]; [auto | destruct (IH H); auto].
    + intros [H | H]; [inversion H; auto | auto].
    + intros [H | H]; [inversion H; auto | auto].
Qed.

(** Every property of [o[key] = w] is the new one or was there. *)
Lemma Obj_In_set (o : Obj.props) (key k : jsstring) (v w : JSValue) :
  In (k, v) (Obj.set o key w) -> (k = key /\ v = w) \/ In (k, v) o.
Proof.
  unfold Obj.set. destruct (Obj.has o key).
  - apply Obj_In_replace.
  - destruct (Obj.arrayIndex key).
    + apply Obj_In_insertIndex.
    + rewrite in_app_iff; simpl. intros [H | [H | []]]; [auto | inversion H; auto].
Qed.

Lemma Obj_has_get_replace (o : Obj.props) (key k : jsstring) (w : JSValue) :
  Obj.has (Obj.replace o key w) k = Obj.has o k /\
  Obj.get (Obj.replace o key w) k =
    if Str.eqb key k && Obj.has o key then w else Obj.get o k.
Proof.
  induction o as [|[k0 v0] o [IH1 IH2]]; simpl.
  - rewrite andb_false_r; auto.
  - destruct (Str.eqb k0 key) eqn:E; simpl.
    + apply Str_eqb_eq in E; subst k0. rewrite andb_true_r.
      destruct (Str.eqb key k); auto.
    + rewrite IH1, IH2. split; [reflexivity|].
      destruct (Str.eqb k0 k) eqn:E'; [|reflexivity].
      apply Str_eqb_eq in E'; subst k0.
      rewrite Str_eqb_sym, E. reflexivity.
Qed.

Lemma Obj_has_get_insertIndex (o : Obj.props) (i : N) (key k : jsstring) (w : JSValue) :
  Obj.has o key = false ->
  Obj.has (Obj.insertIndex o i key w) k = (Str.eqb key k || Obj.has o k) /\
  Obj.get (Obj.insertIndex o i key w) k =
    if Str.eqb key k then w else Obj.get o k.
Proof.
  induction o as [|[k0 v0] o IH]; simpl.
  - intros _. destruct (Str.eqb key k); auto.
  - intros H. apply orb_false_iff in H as [H0 H].
    destruct (IH H) as [IH1 IH2].
    destruct (Obj.arrayIndex k0) as [j|]; [destruct (N.ltb j i)|]; simpl;
      try (destruct (Str.eqb key k); auto; fail).
    rewrite IH1, IH2.
    destruct (Str.eqb k0 k) eqn:E; simpl.
    + apply Str_eqb_eq in E; subst k0. rewrite Str_eqb_sym, H0.
      rewrite orb_true_r. auto.
    + destruct (Str.eqb key k); auto.
Qed.

Lemma Obj_has_get_append (o : Obj.props) (key k : jsstring) (w : JSValue) :
  Obj.has o key = false ->
  Obj.has (o ++ [(key, w)]) k = (Str.eqb key k || Obj.has o k) /\
  Obj.get (o ++ [(key, w)]) k = if Str.eqb key k then w else Obj.get o k.
Proof.
  induction o as [|[k0 v0] o IH]; simpl.
  - intros _. rewrite orb_false_r. destruct (Str.eqb key k); auto.
  - intros H. apply orb_false_iff in H as [H0 H].
    destruct (IH H) as [IH1 IH2]. rewrite IH1, IH2.
    destruct (Str.eqb k0 k) eqn:E; simpl.
    + apply Str_eqb_eq in E; subst k0. rewrite Str_eqb_sym, H0.
      rewrite orb_true_r. auto.
    + destruct (Str.eqb key k); auto.
Qed.

(** Reading [o[key] = w] back. *)
Lemma Obj_has_get_set (o : Obj.props) (key k : jsstring) (w : JSValue) :
  Obj.has (Obj.set o key w) k = (Str.eqb key k || Obj.has o k) /\
  Obj.get (Obj.set o key w) k = if Str.eqb key k then w else Obj.get o k.
Proof.
  unfold Obj.set. destruct (Obj.has o key) eqn:H.
  - destruct (Obj_has_get_replace o key k w) as [H1 H2].
    rewrite H1, H2, H, andb_true_r.
    destruct (Str.eqb key k) eqn:E; auto.
    apply Str_eqb_eq in E; subst k. rewrite H; auto.
  - destruct (Obj.arrayIndex key).
    + apply Obj_has_get_insertIndex; exact H.
    + apply Obj_has_get_append; exact H.
Qed.

Lemma Obj_get_In (o : Obj.props) (key : jsstring) :
  Obj.get o key = VUndefined \/ exists k, In (k, Obj.get o key) o.
Proof.
  induction o as [|[k0 v0] o IH]; simpl; [auto|].
  destruct (Str.eqb k0 key).
  - right; exists k0; auto.
  - destruct IH as [IH | [k IH]]; [auto | right; exists k; auto].
Qed.

Lemma Obj_has_In (o : Obj.props) (key : jsstring) :
  Obj.has o key = true <-> In key (Obj.keys o).
Proof.
  unfold Obj.has, Obj.keys. rewrite existsb_exists, in_map_iff.
  split; intros [kv [H1 H2]]; exists kv.
  - apply Str_eqb_eq in H2; auto.
  - split; [|apply Str_eqb_eq]; auto.
Qed.

(** ** cleanObject *)

Lemma cleanObject_object (props : Obj.props) :
  Part000.cleanObject (VObject props) =
  VObject (fold_left (Part000.cleanLoop (Part000.cleanValues props)) (Obj.keys props) []).
Proof.
  simpl. do 3 f_equal. unfold Part000.cleanValues.
  induction props as [|[k v] props IH]; simpl; [reflexivity|].
  f_equal. exact IH.
Qed.

Lemma get_cleanValues (props : Obj.props) (key : jsstring) :
  Obj.has props key = true ->
  Obj.get (Part000.cleanValues props) key = Part000.cleanObject (Obj.get props key).
Proof.
  induction props as [|[k v] props IH]; simpl; [discriminate|].
  destruct (Str.eqb k key); simpl; auto.
Qed.

Lemma hasKeyDeep_object (key : jsstring) (props : Obj.props) :
  hasKeyDeep key (VObject props) =
  existsb (fun kv => Str.eqb (fst kv) key || hasKeyDeep key (snd kv)) props.
Proof.
  simpl. induction props as [|[k v] props IH]; simpl; [reflexivity|].
  rewrite IH. reflexivity.
Qed.

(** After the loop, every key that is not [__proto__] and was among the
    keys walked, or was already set to its cleaned value, is there with
    its cleaned value. *)
Lemma cleanLoop_keeps (cleaned : Obj.props) (ks : list jsstring) :
  forall (result : Obj.props) (key : jsstring),
    Str.eqb key (lit "__proto__") = false ->
    In key ks \/
      (Obj.has result key = true /\ Obj.get result key = Obj.get cleaned key) ->
    Obj.has (fold_left (Part000.cleanLoop cleaned) ks result) key = true /\
    Obj.get (fold_left (Part000.cleanLoop cleaned) ks result) key = Obj.get cleaned key.
Proof.
  induction ks as [|k ks IH]; simpl; intros result key Hkey H.
  - destruct H as [[] | H]; exact H.
  - apply IH; [exact Hkey|].
    destruct (Str.eqb k key) eqn:E.
    + apply Str_eqb_eq in E; subst k. right.
      unfold Part000.cleanLoop. rewrite Hkey.
      destruct (Obj_has_get_set result key key (Obj.get cleaned key)) as [H1 H2].
      rewrite H1, H2, Str_eqb_refl. auto.
    + destruct H as [[H | H] | H].
      * subst k. rewrite Str_eqb_refl in E. discriminate.
      * left; exact H.
      * right. unfold Part000.cleanLoop. destruct (Str.eqb k (lit "__proto__")); [exact H|].
        destruct (Obj_has_get_set result k key (Obj.get cleaned k)) as [H1 H2].
        rewrite H1, H2, E. exact H.
Qed.

Lemma cleanLoop_stripped (cleaned : Obj.props) (ks : list jsstring) :
  (forall k v, In (k, v) cleaned -> hasKeyDeep (lit "__proto__") v = false) ->
  forall result,
    Part000.stripped result ->
    Part000.stripped (fold_left (Part000.cleanLoop cleaned) ks result).
Proof.
  intros Hc. induction ks as [|k ks IH]; simpl; intros result Hr; [exact Hr|].
  apply IH. unfold Part000.cleanLoop.
  destruct (Str.eqb k (lit "__proto__")) eqn:E; [exact Hr|].
  intros k' v' H. apply Obj_In_set in H as [[-> ->] | H]; [|apply Hr; exact H].
  split; [exact E|].
  destruct (Obj_get_In cleaned k) as [-> | [k0 H]]; [reflexivity|].
  apply (Hc _ _ H).
Qed.

(** The walk leaves no key [__proto__] at any depth. *)
Lemma cleanObject_stripped (v : JSValue) :
  hasKeyDeep (lit "__proto__") (Part000.cleanObject v) = false.
Proof.
  induction v as [ | | b | n | z | s | r | r | items IH | props IH]
    using JSValue_ind; try reflexivity.
  - simpl. induction IH as [|x items Hx _ IHi]; simpl; [reflexivity|].
    rewrite Hx. exact IHi.
  - rewrite cleanObject_object, hasKeyDeep_object.
    assert (Hs : Part000.stripped
                   (fold_left (Part000.cleanLoop (Part000.cleanValues props))
                              (Obj.keys props) [])).
    { apply cleanLoop_stripped; [|intros k v []].
      intros k v H. unfold Part000.cleanValues in H. apply in_map_iff in H as [[k0 v0] [E H]].
      inversion E; subst. rewrite Forall_forall in IH. apply (IH _ H). }
    destruct (existsb _ _) eqn:E; [|reflexivity].
    apply existsb_exists in E as [[k v] [H E]]. destruct (Hs _ _ H) as [H1 H2].
    simpl in E. rewrite H1, H2 in E. discriminate.
Qed.

(** ** The bigint step under the reference runtime *)

Lemma Matches_Star_Class (p : N -> bool) (w : jsstring) :
  Rx.Matches (Rx.Star (Rx.Class p)) w -> forallb p w = true.
Proof.
  intros H. remember (Rx.Star (Rx.Class p)) as R eqn:ER.
  induction H; try discriminate; [reflexivity|].
  inversion ER; subst r. inversion H; subst. simpl.
  rewrite IHMatches2 by reflexivity.
  match goal with Hp : p _ = true |- _ => rewrite Hp end. reflexivity.
Qed.

(** A text the bigint pattern matches: an optional minus, one digit or
    more, and the letter. *)
Lemma BIGINT_REGEX_shape (s : jsstring) :
  Rx.test BIGINT_REGEX s = true ->
  exists sign d ds n,
    s = (sign ++ d :: ds) ++ [n]
    /\ (sign = [] \/ sign = [45%N])
    /\ forallb Obj.isDigit (d :: ds) = true
    /\ (n = 110%N \/ n = 78%N).
Proof.
  intros H. apply test_whole in H; [|reflexivity|reflexivity].
  change (Rx.pattern BIGINT_REGEX)
    with (Rx.Seq (Rx.Alt (Rx.Seq (Rx.Unit 45) Rx.Eps) Rx.Eps)
            (Rx.Seq (Rx.Seq Rx.digit (Rx.Star Rx.digit))
               (Rx.Seq (Rx.oneOf "nN") Rx.Eps))) in H.
  apply Matches_Seq_inv in H as [sign [w1 [-> [Hsign H]]]].
  apply Matches_Seq_inv in H as [ds' [w2 [-> [Hds H]]]].
  apply Matches_Seq_inv in H as [n' [e [-> [Hn He]]]].
  apply Matches_Seq_inv in Hds as [d' [ds [-> [Hd Hds]]]].
  inversion He; subst. inversion Hn as [ | | p n Hp | | | | | ]; subst.
  inversion Hd as [ | | p d Hpd | | | | | ]; subst.
  apply Matches_Star_Class in Hds.
  exists sign, d, ds, n. rewrite app_nil_r. simpl app.
  split; [rewrite <- app_assoc; reflexivity|]. split; [|split].
  - apply Matches_Alt_inv in Hsign as [Hs | Hs].
    + apply Matches_Seq_inv in Hs as [a [b [-> [Ha Hb]]]].
      inversion Ha; inversion Hb; subst. right; reflexivity.
    + inversion Hs; subst. left; reflexivity.
  - simpl. unfold Obj.isDigit at 1. rewrite Hpd. exact Hds.
  - simpl in Hp. rewrite orb_false_r in Hp.
    apply orb_true_iff in Hp as [Hp | Hp]; apply N.eqb_eq in Hp; auto.
Qed.

Lemma slice_without_last (x : jsstring) (n : N) : Str.slice (x ++ [n]) 0 (-1) = x.
Proof.
  unfold Str.slice, Str.length. rewrite length_app; simpl List.length.
  destruct (Z.ltb_spec 0 0); [lia|]. destruct (Z.ltb_spec (-1) 0); [|lia].
  rewrite Z.min_l, Z.max_l by lia. simpl skipn.
  replace (Z.to_nat _) with (List.length x + 0)%nat by lia.
  rewrite firstn_app_2. simpl. apply app_nil_r.
Qed.

Lemma isDigit_not_space (c : N) :
  Obj.isDigit c = true \/ c = 45%N -> Str.isWhiteSpace c = false.
Proof.
  unfold Obj.isDigit, Str.isWhiteSpace. intros H.
  assert (Hc : (45 <= c <= 57)%N).
  { destruct H as [H | ->]; [|lia].
    apply andb_true_iff in H as [H1 H2]. apply N.leb_le in H1, H2. lia. }
  repeat match goal with
         | |- context [N.eqb c ?k] =>
             replace (N.eqb c k) with false by (symmetry; apply N.eqb_neq; lia)
         end.
  replace (N.leb 0x2000 c) with false by (symmetry; apply N.leb_gt; lia).
  reflexivity.
Qed.

Lemma trimStart_tight (c : N) (r : jsstring) :
  Str.isWhiteSpace c = false -> Str.trimStart (c :: r) = c :: r.
Proof. intros H. simpl. rewrite H. reflexivity. Qed.

(** A text that neither starts nor ends with white space is its own
    trimmed form. *)
Lemma trim_tight (c : N) (mid : jsstring) (d : N) :
  Str.isWhiteSpace c = false -> Str.isWhiteSpace d = false ->
  Str.trim (c :: mid ++ [d]) = c :: mid ++ [d]
  /\ Str.trim [c] = [c].
Proof.
  intros Hc Hd. unfold Str.trim, Str.trimEnd. rewrite !trimStart_tight by exact Hc.
  split.
  - change (c :: mid ++ [d]) with ((c :: mid) ++ [d]).
    rewrite rev_app_distr. change (rev [d] ++ rev (c :: mid)) with (d :: rev (c :: mid)).
    rewrite trimStart_tight by exact Hd.
    change (d :: rev (c :: mid)) with ([d] ++ rev (c :: mid)).
    rewrite rev_app_distr, rev_involutive. reflexivity.
  - change (rev [c]) with [c]. rewrite trimStart_tight by exact Hc. reflexivity.
Qed.

Lemma digits_decimal (w : jsstring) :
  forallb Obj.isDigit w = true ->
  forall acc, exists n,
    fold_left
      (fun acc c =>
         match acc, JSON.hexValue c with
         | Some a, Some d => if N.ltb d 10 then Some (a * 10 + d)%N else None
         | _, _ => None
         end) w (Some acc) = Some n.
Proof.
  induction w as [|c w IH]; simpl; intros H acc; [eauto|].
  apply andb_true_iff in H as [Hc Hw].
  unfold JSON.hexValue. unfold Obj.isDigit in Hc. rewrite Hc.
  apply andb_true_iff in Hc as [H1 H2]. apply N.leb_le in H1, H2.
  replace (N.ltb (c - 48) 10) with true by (symmetry; apply N.ltb_lt; lia).
  apply IH; exact Hw.
Qed.

Lemma Ecma_digits_decimal (w : jsstring) :
  forallb Obj.isDigit w = true -> w <> [] -> exists n, Ecma.digits 10 w = Some n.
Proof.
  intros H Hne. unfold Ecma.digits. destruct w as [|c w]; [congruence|].
  apply digits_decimal; exact H.
Qed.

(** The reference [BigInt] accepts the digits of every text the bigint
    pattern matches: under it the [catch] of the bigint step is never
    entered. *)
Lemma reference_BigInt_accepts (s : jsstring) :
  Rx.test BIGINT_REGEX s = true ->
  exists z, BigInt ecmascript (Str.slice s 0 (-1)) = Return (VBigInt z).
Proof.
  intros H. apply BIGINT_REGEX_shape in H as [sign [d [ds [n [-> [Hs [Hd _]]]]]]].
  rewrite slice_without_last. simpl BigInt. unfold Ecma.BigInt, Ecma.StringToBigInt.
  assert (Hlast : exists mid l, d :: ds = mid ++ [l] /\ Obj.isDigit l = true).
  { destruct (exists_last (l := d :: ds)) as [mid [l E]]; [discriminate|].
    exists mid, l. split; [exact E|]. rewrite E, forallb_app in Hd.
    apply andb_true_iff in Hd as [_ Hl]. simpl in Hl. rewrite andb_true_r in Hl. exact Hl. }
  destruct Hlast as [mid [l [E Hl]]].
  destruct (@Ecma_digits_decimal (d :: ds) Hd) as [m Hm]; [discriminate|].
  pose proof Hd as Hd'. simpl in Hd'. apply andb_true_iff in Hd' as [Hd0 Hds].
  assert (Hd1 : (48 <= d <= 57)%N).
  { unfold Obj.isDigit in Hd0. apply andb_true_iff in Hd0 as [H1 H2].
    apply N.leb_le in H1, H2. lia. }
  destruct Hs as [-> | ->]; simpl app.
  - (* no sign *)
    assert (Ht : Str.trim (d :: ds) = d :: ds).
    { destruct mid as [|c mid]; simpl in E.
      - injection E as -> ->. apply (@trim_tight l [] l);
          apply isDigit_not_space; auto.
      - injection E as <- ->. apply trim_tight; apply isDigit_not_space; auto. }
    rewrite Ht.
    replace (N.eqb d 45) with false by (symmetry; apply N.eqb_neq; lia).
    replace (N.eqb d 43) with false by (symmetry; apply N.eqb_neq; lia).
    assert (Hp : match ds with
                 | [] => @None (option N)
                 | p :: r' =>
                     if N.eqb d 48 then
                       if N.eqb p 120 || N.eqb p 88 then Some (Ecma.digits 16 r')
                       else if N.eqb p 111 || N.eqb p 79 then Some (Ecma.digits 8 r')
                       else if N.eqb p 98 || N.eqb p 66 then Some (Ecma.digits 2 r')
                       else None
                     else None
                 end = None).
    { destruct ds as [|p r']; [reflexivity|]. simpl in Hds.
      apply andb_true_iff in Hds as [Hp _]. unfold Obj.isDigit in Hp.
      apply andb_true_iff in Hp as [_ H2]. apply N.leb_le in H2.
      repeat match goal with
             | |- context [N.eqb p ?k] =>
                 replace (N.eqb p k) with false by (symmetry; apply N.eqb_neq; lia)
             end.
      destruct (N.eqb d 48); reflexivity. }
    rewrite Hp, Hm. simpl. eauto.
  - (* a minus sign *)
    assert (Ht : Str.trim (45%N :: d :: ds) = 45%N :: d :: ds).
    { rewrite E. apply trim_tight; apply isDigit_not_space; auto. }
    rewrite Ht. simpl N.eqb. cbv iota.
    replace (match d :: ds with [] => @None (option N) | _ :: _ => None end)
      with (@None (option N)) by reflexivity.
    rewrite Hm. simpl. eauto.
Qed.

Lemma Index_branch_BigintLiteral (v : jsstring) :
  Index.branch v = BigintLiteral -> Rx.test BIGINT_REGEX v = true.
Proof.
  unfold Index.branch. cbv zeta.
  repeat match goal with
         | |- context [if ?b then _ else _] => destruct b eqn:?
         end; try discriminate; reflexivity.
Qed.

Lemma Part000_branch_BigintLiteral (v : jsstring) :
  Part000.branch v = BigintLiteral -> Rx.test BIGINT_REGEX v = true.
Proof.
  unfold Part000.branch. cbv zeta.
  repeat match goal with
         | |- context [if ?b then _ else _] => destruct b eqn:?
         end; try discriminate; reflexivity.
Qed.

(** Under the reference runtime no call raises the bigint error, in
    either mode and in either file. *)
Lemma reference_never_Invalid_BigInt (text : jsstring) (options : Options)
    (m : jsstring) :
  Index.synapse ecmascript (VString text) options
    <> Throw (SyntaxError (lit "[synapse] Invalid BigInt: " ++ m))
  /\ Part000.result (Part000.synapse ecmascript (VString text) options)
    <> Throw (SyntaxError (lit "[synapse] Invalid BigInt: " ++ m)).
Proof.
  assert (Hmsg : Throw (SyntaxError (lit "[synapse] Invalid JSON"))
                 <> Throw (SyntaxError (lit "[synapse] Invalid BigInt: " ++ m))).
  { intros H. cbv in H. discriminate H. }
  split.
  - rewrite Index_synapse_branch.
    destruct (Index.branch (Str.trim text)) eqn:Hb; try discriminate.
    + apply Index_branch_BigintLiteral in Hb.
      destruct (reference_BigInt_accepts _ Hb) as [z Hz].
      unfold Index.bigintStep. rewrite Hz. discriminate.
    + unfold Index.parseStep.
      destruct (isStrict options && _)%bool; simpl; [destruct (isStrict options); discriminate|].
      unfold JSON.parse. destruct (JSON.lex _ _ _) as [ts|]; simpl.
      * destruct (JSON.run _ ts); simpl; [discriminate|].
        destruct (isStrict options); discriminate.
      * destruct (isStrict options); discriminate.
    + unfold Index.fallbackStep. destruct (isStrict options); [|discriminate].
      exact Hmsg.
  - rewrite Part000_synapse_branch.
    destruct (Part000.branch (Str.trim text)) eqn:Hb; simpl; try discriminate.
    + unfold Part000.quotedStep. cbv zeta.
      destruct (isStrict options && _)%bool.
      { exact Hmsg. }
      destruct (_ && _)%bool; [discriminate|].
      simpl. unfold JSON.parse. destruct (JSON.lex _ _ _) as [ts|]; simpl.
      * destruct (JSON.run _ ts); simpl; [discriminate|].
        destruct (isStrict options); [|discriminate].
        exact Hmsg.
      * destruct (isStrict options); [|discriminate].
        exact Hmsg.
    + unfold Part000.quotedStep. cbv zeta.
      destruct (isStrict options && _)%bool.
      { exact Hmsg. }
      destruct (_ && _)%bool; [discriminate|].
      simpl. unfold JSON.parse. destruct (JSON.lex _ _ _) as [ts|]; simpl.
      * destruct (JSON.run _ ts); simpl; [discriminate|].
        destruct (isStrict options); [|discriminate].
        exact Hmsg.
      * destruct (isStrict options); [|discriminate].
        exact Hmsg.
    + apply Part000_branch_BigintLiteral in Hb.
      destruct (reference_BigInt_accepts _ Hb) as [z Hz].
      unfold Part000.bigintStep. rewrite Hz. discriminate.
    + destruct (Part000.checkPrototypePollution _ && _)%bool; simpl;
        [destruct (isStrict options); discriminate|].
      unfold JSON.parse. destruct (JSON.lex _ _ _) as [ts|]; simpl.
      * destruct (JSON.run _ ts); simpl; [discriminate|].
        destruct (isStrict options); discriminate.
      * destruct (isStrict options); discriminate.
    + unfold Part000.fallbackStep. destruct (isStrict options); [|discriminate].
      exact Hmsg.
Qed.

(** ** The patterns see the same matches before and after trimming *)

Lemma trimStart_suffix (s : jsstring) : exists w, s = w ++ Str.trimStart s.
Proof.
  induction s as [|c s [w IH]]; simpl; [exists []; reflexivity|].
  destruct (Str.isWhiteSpace c).
  - exists (c :: w). simpl. f_equal. exact IH.
  - exists []. reflexivity.
Qed.

Lemma trimEnd_prefix (s : jsstring) : exists w, s = Str.trimEnd s ++ w.
Proof.
  unfold Str.trimEnd. destruct (trimStart_suffix (rev s)) as [w E].
  exists (rev w). rewrite <- rev_app_distr, <- E, rev_involutive. reflexivity.
Qed.

Lemma trim_infix (s : jsstring) : exists w1 w2, s = w1 ++ Str.trim s ++ w2.
Proof.
  unfold Str.trim. destruct (trimStart_suffix s) as [w1 E1].
  destruct (trimEnd_prefix (Str.trimStart s)) as [w2 E2].
  exists w1, w2. rewrite <- E2. exact E1.
Qed.

Lemma trimStart_keeps (pre rest : jsstring) (c : N) :
  Str.isWhiteSpace c = false ->
  exists pre', Str.trimStart (pre ++ c :: rest) = pre' ++ c :: rest.
Proof.
  intros Hc. induction pre as [|x pre [pre' IH]]; simpl.
  - rewrite Hc. exists []. reflexivity.
  - destruct (Str.isWhiteSpace x); [exists pre'; exact IH|].
    exists (x :: pre). reflexivity.
Qed.

Lemma trimEnd_keeps (front post : jsstring) (d : N) :
  Str.isWhiteSpace d = false ->
  exists post', Str.trimEnd (front ++ d :: post) = front ++ d :: post'.
Proof.
  intros Hd. unfold Str.trimEnd. rewrite rev_app_distr. simpl rev.
  rewrite <- app_assoc. simpl app.
  destruct (@trimStart_keeps (rev post) (rev front) d Hd) as [post' E].
  rewrite E. exists (rev post').
  rewrite rev_app_distr. simpl rev. rewrite rev_involutive, <- app_assoc. reflexivity.
Qed.

(** A word with no white space at either end that occurs in a text
    occurs in its trimmed form. *)
Lemma trim_keeps (pre mid post : jsstring) (c d : N) :
  Str.isWhiteSpace c = false -> Str.isWhiteSpace d = false ->
  exists pre' post',
    Str.trim (pre ++ (c :: mid ++ [d]) ++ post) = pre' ++ (c :: mid ++ [d]) ++ post'.
Proof.
  intros Hc Hd. unfold Str.trim. simpl app.
  destruct (@trimStart_keeps pre ((mid ++ [d]) ++ post) c Hc) as [pre' E]. rewrite E.
  replace (pre' ++ c :: (mid ++ [d]) ++ post)
    with ((pre' ++ c :: mid) ++ d :: post)
    by (rewrite <- !app_assoc; reflexivity).
  destruct (@trimEnd_keeps (pre' ++ c :: mid) post d Hd) as [post' E']. rewrite E'.
  exists pre', post'. rewrite <- !app_assoc. reflexivity.
Qed.

Lemma Matches_seq_last (rs : list Rx.regex) (rl : Rx.regex) (u : jsstring) :
  Rx.Matches (Rx.seq (rs ++ [rl])) u ->
  exists u1 u2, u = u1 ++ u2 /\ Rx.Matches rl u2.
Proof.
  revert u. induction rs as [|r rs IH]; simpl; intros u H.
  - apply Matches_Seq_inv in H as [u1 [u2 [-> [H1 H2]]]]. inversion H2; subst.
    exists [], u1. rewrite app_nil_r. auto.
  - apply Matches_Seq_inv in H as [u1 [u2 [-> [H1 H2]]]].
    destruct (IH u2 H2) as [v1 [v2 [-> Hv]]].
    exists (u1 ++ v1), v2. rewrite app_assoc. auto.
Qed.

(** A word of a pattern that opens with a quote and closes with a colon
    is a quote, something, and a colon. *)
Lemma Matches_quote_colon (rs : list Rx.regex) (u : jsstring) :
  Rx.Matches (Rx.seq (Rx.Unit 34 :: rs ++ [Rx.text ":"])) u ->
  exists mid, u = 34%N :: mid ++ [58%N].
Proof.
  simpl. intros H. apply Matches_Seq_inv in H as [u1 [u2 [-> [H1 H2]]]].
  inversion H1; subst.
  apply Matches_seq_last in H2 as [v1 [v2 [-> Hv]]].
  change (Rx.text ":") with (Rx.Seq (Rx.Unit 58) Rx.Eps) in Hv.
  apply Matches_Seq_inv in Hv as [a [b [-> [Ha Hb]]]].
  inversion Ha; inversion Hb; subst. exists v1. reflexivity.
Qed.

Lemma test_trim (re : Rx.RegExp) (rs : list Rx.regex) (text : jsstring) :
  Rx.fromStart re = false -> Rx.toEnd re = false ->
  Rx.pattern re = Rx.seq (Rx.Unit 34 :: rs ++ [Rx.text ":"]) ->
  Rx.test re (Str.trim text) = Rx.test re text.
Proof.
  intros Hs He Hp. apply eq_true_iff_eq. rewrite !test_search by assumption. split.
  - intros [pre [u [post [E H]]]]. destruct (trim_infix text) as [w1 [w2 Et]].
    exists (w1 ++ pre), u, (post ++ w2). split; [|exact H].
    rewrite Et at 1. rewrite E, <- !app_assoc. reflexivity.
  - intros [pre [u [post [-> H]]]]. pose proof H as H'. rewrite Hp in H'.
    apply Matches_quote_colon in H' as [mid ->].
    destruct (@trim_keeps pre mid post 34 58) as [pre' [post' E]];
      [reflexivity | reflexivity |].
    exists pre', (34%N :: mid ++ [58%N]), post'. auto.
Qed.

(** Scanning the trimmed candidate (part_000) or the input as given
    (index.ts) comes to the same. *)
Lemma checkPrototypePollution_trim (text : jsstring) :
  Part000.checkPrototypePollution (Str.trim text)
  = (Rx.test suspectProtoRx text || Rx.test suspectConstructorRx text)%bool.
Proof.
  unfold Part000.checkPrototypePollution. f_equal.
  - eapply test_trim; try reflexivity.
    instantiate (1 :=
      [ Rx.times 2 (Rx.Alt (Rx.text "_") (u00 "5" (Rx.oneOf "Ff")));
        Rx.Alt (Rx.text "p") (u00 "7" (Rx.text "0"));
        Rx.Alt (Rx.text "r") (u00 "7" (Rx.text "2"));
        Rx.Alt (Rx.text "o") (u00 "6" (Rx.oneOf "Ff"));
        Rx.Alt (Rx.text "t") (u00 "7" (Rx.text "4"));
        Rx.Alt (Rx.text "o") (u00 "6" (Rx.oneOf "Ff"));
        Rx.times 2 (Rx.Alt (Rx.text "_") (u00 "5" (Rx.oneOf "Ff")));
        Rx.Unit 34; Rx.Star Rx.space ]).
    reflexivity.
  - eapply test_trim; try reflexivity.
    instantiate (1 :=
      [ Rx.Alt (Rx.text "c") (u4 "006" (Rx.text "3"));
        Rx.Alt (Rx.text "o") (u4 "006" (Rx.oneOf "Ff"));
        Rx.Alt (Rx.text "n") (u4 "006" (Rx.oneOf "Ee"));
        Rx.Alt (Rx.text "s") (u4 "007" (Rx.text "3"));
        Rx.Alt (Rx.text "t") (u4 "007" (Rx.text "4"));
        Rx.Alt (Rx.text "r") (u4 "007" (Rx.text "2"));
        Rx.Alt (Rx.text "u") (u4 "007" (Rx.text "5"));
        Rx.Alt (Rx.text "c") (u4 "006" (Rx.text "3"));
        Rx.Alt (Rx.text "t") (u4 "007" (Rx.text "4"));
        Rx.Alt (Rx.text "o") (u4 "006" (Rx.oneOf "Ff"));
        Rx.Alt (Rx.text "r") (u4 "007" (Rx.text "2"));
        Rx.Unit 34; Rx.Star Rx.space ]).
    reflexivity.
Qed.

(** ** The patterns find every spelling of the two keys *)

Lemma Spelled_cons_inv (c : N) (key text : jsstring) :
  Spelled (c :: key) text ->
  exists e rest, text = e ++ rest /\ SpelledUnit c e /\ Spelled key rest.
Proof. intros H. inversion H; subst. eauto. Qed.

Lemma Spelled_nil_inv (text : jsstring) : Spelled [] text -> text = [].
Proof. intros H. inversion H. reflexivity. Qed.

Lemma Matches_Star_Class_intro (p : N -> bool) (w : jsstring) :
  forallb p w = true -> Rx.Matches (Rx.Star (Rx.Class p)) w.
Proof.
  induction w as [|c w IH]; simpl; intros H; [constructor|].
  apply andb_true_iff in H as [Hc Hw].
  apply (Rx.MStarCons (u := [c])); [constructor; exact Hc | apply IH; exact Hw].
Qed.

(** [r{2}] followed by [s], read as [r], [r], [s]. *)
Lemma Matches_times_2 (r s : Rx.regex) (w : jsstring) :
  Rx.Matches (Rx.Seq r (Rx.Seq r s)) w -> Rx.Matches (Rx.Seq (Rx.times 2 r) s) w.
Proof.
  intros H. apply Matches_Seq_inv in H as [u [v [-> [Hu H]]]].
  apply Matches_Seq_inv in H as [u' [v' [-> [Hu' Hv']]]].
  rewrite app_assoc. constructor; [|exact Hv'].
  simpl. constructor; [exact Hu|].
  rewrite <- (app_nil_r u'). constructor; [exact Hu' | constructor].
Qed.

Ltac spelled_unit H :=
  destruct H as [|[|]]; apply accepts_Matches; vm_compute; reflexivity.

Lemma suspectProtoRx_finds (text : jsstring) :
  containsKey (lit "__proto__") text -> Rx.test suspectProtoRx text = true.
Proof.
  intros [pre [spelling [ws [post [-> [H Hws]]]]]].
  apply test_search; [reflexivity | reflexivity |].
  exists pre, (34%N :: spelling ++ 34%N :: ws ++ [58%N]), post.
  split; [repeat (progress (simpl; rewrite <- ?app_assoc)); reflexivity|].
  change (lit "__proto__") with [95; 95; 112; 114; 111; 116; 111; 95; 95]%N in H.
  apply Spelled_cons_inv in H as [e1 [t1 [-> [H1 H]]]].
  apply Spelled_cons_inv in H as [e2 [t2 [-> [H2 H]]]].
  apply Spelled_cons_inv in H as [e3 [t3 [-> [H3 H]]]].
  apply Spelled_cons_inv in H as [e4 [t4 [-> [H4 H]]]].
  apply Spelled_cons_inv in H as [e5 [t5 [-> [H5 H]]]].
  apply Spelled_cons_inv in H as [e6 [t6 [-> [H6 H]]]].
  apply Spelled_cons_inv in H as [e7 [t7 [-> [H7 H]]]].
  apply Spelled_cons_inv in H as [e8 [t8 [-> [H8 H]]]].
  apply Spelled_cons_inv in H as [e9 [t9 [-> [H9 H]]]].
  apply Spelled_nil_inv in H. subst t9.
  rewrite app_nil_r, <- !app_assoc.
  unfold suspectProtoRx, Rx.pattern. cbn [Rx.seq fold_right].
  apply (Rx.MSeq (u := [34%N])); [constructor|].
  apply Matches_times_2.
  apply Rx.MSeq; [spelled_unit H1|]. apply Rx.MSeq; [spelled_unit H2|].
  apply Rx.MSeq; [spelled_unit H3|]. apply Rx.MSeq; [spelled_unit H4|].
  apply Rx.MSeq; [spelled_unit H5|]. apply Rx.MSeq; [spelled_unit H6|].
  apply Rx.MSeq; [spelled_unit H7|].
  apply Matches_times_2.
  apply Rx.MSeq; [spelled_unit H8|]. apply Rx.MSeq; [spelled_unit H9|].
  apply (Rx.MSeq (u := [34%N])); [constructor|].
  apply Rx.MSeq; [apply Matches_Star_Class_intro; exact Hws|].
  apply accepts_Matches. vm_compute. reflexivity.
Qed.

Lemma suspectConstructorRx_finds (text : jsstring) :
  containsKey (lit "constructor") text -> Rx.test suspectConstructorRx text = true.
Proof.
  intros [pre [spelling [ws [post [-> [H Hws]]]]]].
  apply test_search; [reflexivity | reflexivity |].
  exists pre, (34%N :: spelling ++ 34%N :: ws ++ [58%N]), post.
  split; [repeat (progress (simpl; rewrite <- ?app_assoc)); reflexivity|].
  change (lit "constructor")
    with [99; 111; 110; 115; 116; 114; 117; 99; 116; 111; 114]%N in H.
  apply Spelled_cons_inv in H as [e1 [t1 [-> [H1 H]]]].
  apply Spelled_cons_inv in H as [e2 [t2 [-> [H2 H]]]].
  apply Spelled_cons_inv in H as [e3 [t3 [-> [H3 H]]]].
  apply Spelled_cons_inv in H as [e4 [t4 [-> [H4 H]]]].
  apply Spelled_cons_inv in H as [e5 [t5 [-> [H5 H]]]].
  apply Spelled_cons_inv in H as [e6 [t6 [-> [H6 H]]]].
  apply Spelled_cons_inv in H as [e7 [t7 [-> [H7 H]]]].
  apply Spelled_cons_inv in H as [e8 [t8 [-> [H8 H]]]].
  apply Spelled_cons_inv in H as [e9 [t9 [-> [H9 H]]]].
  apply Spelled_cons_inv in H as [e10 [t10 [-> [H10 H]]]].
  apply Spelled_cons_inv in H as [e11 [t11 [-> [H11 H]]]].
  apply Spelled_nil_inv in H. subst t11.
  rewrite app_nil_r, <- !app_assoc.
  unfold suspectConstructorRx, Rx.pattern. cbn [Rx.seq fold_right].
  apply (Rx.MSeq (u := [34%N])); [constructor|].
  apply Rx.MSeq; [spelled_unit H1|]. apply Rx.MSeq; [spelled_unit H2|].
  apply Rx.MSeq; [spelled_unit H3|]. apply Rx.MSeq; [spelled_unit H4|].
  apply Rx.MSeq; [spelled_unit H5|]. apply Rx.MSeq; [spelled_unit H6|].
  apply Rx.MSeq; [spelled_unit H7|]. apply Rx.MSeq; [spelled_unit H8|].
  apply Rx.MSeq; [spelled_unit H9|]. apply Rx.MSeq; [spelled_unit H10|].
  apply Rx.MSeq; [spelled_unit H11|].
  apply (Rx.MSeq (u := [34%N])); [constructor|].
  apply Rx.MSeq; [apply Matches_Star_Class_intro; exact Hws|].
  apply accepts_Matches. vm_compute. reflexivity.
Qed.

Lemma Spelled_refl (key : jsstring) : Spelled key key.
Proof.
  induction key as [|c key IH]; [constructor|].
  apply (SpelledCons (e := [c])); [constructor | exact IH].
Qed.

(** In strict mode the structural JSON step raises the pollution error
    as soon as one of the patterns matches, before the parser is
    called: the runtime has no part in the result. *)
Lemma strict_parseStep_on_match (rt : Runtime) (text : jsstring) (options : Options) :
  isStrict options = true ->
  Rx.test suspectProtoRx text || Rx.test suspectConstructorRx text = true ->
  Index.parseStep rt (VString text) text options = Throw (Error pollutionMessage)
  /\ Part000.parseStep rt (VString text) (Str.trim text) options
     = {| Part000.console := [pollutionMessage];
          Part000.result := Throw (Error pollutionMessage) |}.
Proof.
  intros Hs Hm. unfold Index.parseStep, Part000.parseStep.
  rewrite checkPrototypePollution_trim, Hs, Hm. split; reflexivity.
Qed.

(** ** The specification's other examples, run on both files *)

Example coerce_true :
  Index.synapse ecmascript (VString (lit "true")) defaultOptions = Return (VBool true)
  /\ Part000.synapse ecmascript (VString (lit "true")) defaultOptions
     = Part000.quiet (Return (VBool true)).
Proof. split; vm_compute; reflexivity. Qed.

Example coerce_padded_true :
  Index.synapse ecmascript (VString (lit "  true  ")) defaultOptions = Return (VBool true)
  /\ Part000.synapse ecmascript (VString (lit "  true  ")) defaultOptions
     = Part000.quiet (Return (VBool true)).
Proof. split; vm_compute; reflexivity. Qed.

Example coerce_empty_quoted :
  Index.synapse ecmascript (VString (quoted "''")) defaultOptions = Return (VString [])
  /\ Part000.synapse ecmascript (VString (quoted "''")) defaultOptions
     = Part000.quiet (Return (VString [])).
Proof. split; vm_compute; reflexivity. Qed.

Example coerce_quoted_hello :
  Index.synapse ecmascript (VString (quoted "'hello'")) defaultOptions
    = Return (VString (lit "hello"))
  /\ Part000.synapse ecmascript (VString (quoted "'hello'")) defaultOptions
     = Part000.quiet (Return (VString (lit "hello"))).
Proof. split; vm_compute; reflexivity. Qed.

Example coerce_42 :
  Index.synapse ecmascript (VString (lit "42")) defaultOptions = Return (int 42)
  /\ Part000.synapse ecmascript (VString (lit "42")) defaultOptions
     = Part000.quiet (Return (int 42)).
Proof. split; vm_compute; reflexivity. Qed.

Example coerce_array :
  Index.synapse ecmascript (VString (lit "[1,2,3]")) defaultOptions
    = Return (VArray [int 1; int 2; int 3])
  /\ Part000.synapse ecmascript (VString (lit "[1,2,3]")) defaultOptions
     = Part000.quiet (Return (VArray [int 1; int 2; int 3])).
Proof. split; vm_compute; reflexivity. Qed.

Example coerce_object :
  Index.synapse ecmascript (VString (quoted "{'a':1}")) defaultOptions
    = Return (VObject [(lit "a", int 1)])
  /\ Part000.synapse ecmascript (VString (quoted "{'a':1}")) defaultOptions
     = Part000.quiet (Return (VObject [(lit "a", int 1)])).
Proof. split; vm_compute; reflexivity. Qed.

Example coerce_bigint :
  Index.synapse ecmascript (VString (lit "123n")) defaultOptions = Return (VBigInt 123)
  /\ Part000.synapse ecmascript (VString (lit "123n")) defaultOptions
     = Part000.quiet (Return (VBigInt 123)).
Proof. split; vm_compute; reflexivity. Qed.

(** Array-index keys are listed first and in ascending order, a repeated
    key keeps its first place and its last value. *)
Example parse_key_order :
  JSON.parse (quoted "{'b':1,'10':2,'9':3,'b':[true,null,-1.5e3]}")
  = Return (VObject [ (lit "9", int 3); (lit "10", int 2);
                      (lit "b", VArray [VBool true; VNull;
                                        VNumber (Finite true 15 2)]) ]).
Proof. vm_compute. reflexivity. Qed.

(** ** Candidates between two quotes *)

Lemma endsWith_last (l : jsstring) (x : N) : Str.endsWith (l ++ [x]) [x] = true.
Proof.
  unfold Str.endsWith. rewrite length_app; simpl List.length.
  replace (List.length l + 1 - 1)%nat with (List.length l + 0)%nat by lia.
  rewrite skipn_app, skipn_all2 by lia.
  replace (List.length l + 0 - List.length l)%nat with 0%nat by lia.
  replace (List.length l + 1)%nat with (S (List.length l)) by lia.
  simpl. rewrite N.eqb_refl. reflexivity.
Qed.

Lemma Index_branch_between_quotes (inner : jsstring) :
  Index.branch (34%N :: inner ++ [34%N]) =
  match inner with [] => EmptyQuoted | _ => QuotedLiteral end.
Proof.
  unfold Index.branch. cbv zeta.
  rewrite Map_get_KNOWN_VALUES_opening by auto. simpl isDefined.
  rewrite andb_false_r.
  destruct inner as [|c inner]; [reflexivity|].
  replace (Str.length (34%N :: (c :: inner) ++ [34%N]) =? 2)%Z with false.
  2:{ symmetry. apply Z.eqb_neq. unfold Str.length. simpl. rewrite length_app. simpl. lia. }
  simpl andb.
  replace (Str.codePointAt (34%N :: (c :: inner) ++ [34%N]) 0) with (Some 34%N)
    by reflexivity.
  rewrite (@codePointAt_plain _ _ 34%N); [reflexivity | | reflexivity].
  apply (at_last (34%N :: c :: inner) 34).
Qed.

Lemma Part000_branch_between_quotes (inner : jsstring) :
  Part000.branch (34%N :: inner ++ [34%N]) =
  match inner with [] => EmptyQuoted | _ => QuotedLiteral end.
Proof.
  unfold Part000.branch. cbv zeta.
  change (Str.toLowerCase (34%N :: inner ++ [34%N]))
    with (34%N :: Str.toLowerCase (inner ++ [34%N])).
  rewrite Map_get_KNOWN_VALUES_opening by auto.
  replace (Str.eqb (34%N :: Str.toLowerCase (inner ++ [34%N])) (lit "null"))
    with false by reflexivity.
  replace (Str.eqb (34%N :: Str.toLowerCase (inner ++ [34%N])) (lit "undefined"))
    with false by reflexivity.
  simpl isDefined. simpl orb. rewrite andb_false_r.
  replace (equals (Str.at_ (34%N :: inner ++ [34%N]) 0) 34) with true by reflexivity.
  destruct inner as [|c inner]; [reflexivity|].
  replace (Str.length (34%N :: (c :: inner) ++ [34%N]) =? 2)%Z with false; [reflexivity|].
  symmetry. apply Z.eqb_neq. unfold Str.length. simpl. rewrite length_app. simpl. lia.
Qed.

(** ** Candidates that open with a bracket or a brace *)

Lemma dead_not_nullable (r : Rx.regex) : Rx.dead r = true -> Rx.nullable r = false.
Proof.
  induction r; simpl; try discriminate; try reflexivity.
  - intros H. apply orb_true_iff in H as [H | H].
    + rewrite IHr1 by exact H. reflexivity.
    + rewrite IHr2 by exact H. apply andb_false_r.
  - intros H. apply andb_true_iff in H as [H1 H2].
    rewrite IHr1, IHr2 by assumption. reflexivity.
Qed.

Lemma dead_deriv (r : Rx.regex) (c : N) : Rx.dead r = true -> Rx.dead (Rx.deriv r c) = true.
Proof.
  induction r; simpl; try discriminate; try reflexivity.
  - intros H. apply orb_true_iff in H as [H | H].
    + rewrite (dead_not_nullable _ H). simpl. rewrite IHr1 by exact H. reflexivity.
    + destruct (Rx.nullable r1); simpl.
      * rewrite H, IHr2 by exact H. rewrite orb_true_r. reflexivity.
      * rewrite H. apply orb_true_r.
  - intros H. apply andb_true_iff in H as [H1 H2].
    rewrite IHr1, IHr2 by assumption. reflexivity.
Qed.

Lemma dead_accepts (s : jsstring) :
  forall r, Rx.dead r = true -> Rx.accepts r s = false.
Proof.
  induction s as [|c s IH]; simpl; intros r H.
  - apply dead_not_nullable; exact H.
  - apply IH, dead_deriv; exact H.
Qed.

(** A candidate that opens with [[] or [{] is not a bigint literal. *)
Lemma BIGINT_REGEX_opening (c : N) (rest : jsstring) :
  c = 91%N \/ c = 123%N -> Rx.test BIGINT_REGEX (c :: rest) = false.
Proof.
  intros H.
  change (Rx.test BIGINT_REGEX (c :: rest))
    with (Rx.accepts (Rx.deriv (Rx.pattern BIGINT_REGEX) c) rest).
  apply dead_accepts. destruct H as [-> | ->]; vm_compute; reflexivity.
Qed.

(** Such a candidate goes to the structural JSON step, in both files. *)
Lemma branch_opening (c : N) (rest : jsstring) :
  c = 91%N \/ c = 123%N ->
  Index.branch (c :: rest) = StructuralJSON
  /\ Part000.branch (c :: rest) = StructuralJSON.
Proof.
  intros H.
  assert (Hb := BIGINT_REGEX_opening rest H).
  assert (Hk : Map_get KNOWN_VALUES (c :: rest) = VUndefined)
    by (apply Map_get_KNOWN_VALUES_opening; tauto).
  assert (Hl : Str.lowerUnit c = c) by (destruct H as [-> | ->]; reflexivity).
  assert (Hk' : Map_get KNOWN_VALUES (c :: Str.toLowerCase rest) = VUndefined)
    by (apply Map_get_KNOWN_VALUES_opening; tauto).
  split.
  - unfold Index.branch. cbv zeta. rewrite Hk, Hb. simpl isDefined.
    rewrite andb_false_r.
    destruct H as [-> | ->]; simpl; rewrite andb_false_r; reflexivity.
  - unfold Part000.branch. cbv zeta.
    change (Str.toLowerCase (c :: rest)) with (Str.lowerUnit c :: Str.toLowerCase rest).
    rewrite Hl, Hk', Hb. simpl isDefined.
    destruct H as [-> | ->]; simpl; rewrite andb_false_r; reflexivity.
Qed.

(** ** Well-formed values: the walk is a filter *)

Lemma arrayIndex_proto : Obj.arrayIndex (lit "__proto__") = None.
Proof. vm_compute. reflexivity. Qed.

Lemma before_distinct (k1 k2 : jsstring) :
  before k1 k2 = true -> Str.eqb k1 k2 = false.
Proof.
  unfold before. intros H. apply Str_eqb_neq. intros ->.
  destruct (Obj.arrayIndex k2) as [i|].
  - apply N.ltb_lt in H. lia.
  - rewrite Str_eqb_refl in H. discriminate.
Qed.

Lemma before_index (k1 k2 : jsstring) (i : N) :
  before k1 k2 = true -> Obj.arrayIndex k2 = Some i ->
  exists j, Obj.arrayIndex k1 = Some j /\ N.ltb j i = true.
Proof.
  unfold before. intros H E. rewrite E in H.
  destruct (Obj.arrayIndex k1) as [j|]; [eauto | discriminate].
Qed.

Lemma keys_In (o : Obj.props) (k : jsstring) (v : JSValue) :
  In (k, v) o -> In k (Obj.keys o).
Proof. intros H. unfold Obj.keys. apply in_map_iff. exists (k, v). auto. Qed.

(** In an ordered list each key is read back with its own value. *)
Lemma get_ordered (o : Obj.props) (k : jsstring) (v : JSValue) :
  ordered (Obj.keys o) = true -> In (k, v) o -> Obj.get o k = v.
Proof.
  induction o as [|[k0 v0] o IH]; simpl; intros Ho H; [contradiction|].
  apply andb_true_iff in Ho as [Hb Ho]. destruct H as [H | H].
  - inversion H; subst. rewrite Str_eqb_refl. reflexivity.
  - rewrite forallb_forall in Hb.
    rewrite (before_distinct _ _ (Hb k (keys_In _ _ _ H))). apply IH; assumption.
Qed.

Lemma has_all_before (acc : Obj.props) (k : jsstring) :
  (forall k', In k' (Obj.keys acc) -> before k' k = true) ->
  Obj.has acc k = false.
Proof.
  intros H. destruct (Obj.has acc k) eqn:E; [|reflexivity].
  apply Obj_has_In in E. apply H, before_distinct in E.
  rewrite Str_eqb_refl in E. discriminate.
Qed.

Lemma insertIndex_all_before (acc : Obj.props) (i : N) (k : jsstring) (v : JSValue) :
  (forall k', In k' (Obj.keys acc) -> before k' k = true) ->
  Obj.arrayIndex k = Some i ->
  Obj.insertIndex acc i k v = acc ++ [(k, v)].
Proof.
  intros H E. induction acc as [|[k0 v0] acc IH]; simpl; [reflexivity|].
  destruct (before_index k0 k (H k0 (or_introl eq_refl)) E) as [j [Ej Hj]].
  rewrite Ej, Hj. f_equal. apply IH. intros k' Hk'. apply H. right. exact Hk'.
Qed.

(** A new key that comes after all the keys present is put last. *)
Lemma set_all_before (acc : Obj.props) (k : jsstring) (v : JSValue) :
  (forall k', In k' (Obj.keys acc) -> before k' k = true) ->
  Obj.set acc k v = acc ++ [(k, v)].
Proof.
  intros H. unfold Obj.set. rewrite (has_all_before acc k H).
  destruct (Obj.arrayIndex k) as [i|] eqn:E; [|reflexivity].
  apply insertIndex_all_before; assumption.
Qed.

(** Over keys in order, the loop of [cleanObject] appends, one by one,
    the properties that are not named [__proto__]. *)
Lemma cleanLoop_ordered (cleaned : Obj.props) (ps : Obj.props) :
  forall acc : Obj.props,
    ordered (Obj.keys ps) = true ->
    (forall k' k, In k' (Obj.keys acc) -> In k (Obj.keys ps) -> before k' k = true) ->
    fold_left (Part000.cleanLoop cleaned) (Obj.keys ps) acc
    = acc ++ filter notProto (map (fun kv => (fst kv, Obj.get cleaned (fst kv))) ps).
Proof.
  induction ps as [|[k v] ps IH]; simpl; intros acc Ho Hacc.
  - rewrite app_nil_r. reflexivity.
  - apply andb_true_iff in Ho as [Hb Ho]. rewrite forallb_forall in Hb.
    unfold Part000.cleanLoop at 2. unfold notProto at 1. simpl fst.
    destruct (Str.eqb k (lit "__proto__")); simpl negb; cbv iota.
    + apply IH; [exact Ho|]. intros k' k2 H1 H2. apply Hacc; auto.
    + rewrite set_all_before by (intros k' H1; apply Hacc; auto).
      rewrite IH; [rewrite <- app_assoc; reflexivity | exact Ho |].
      intros k' k2 H1 H2. unfold Obj.keys in H1. rewrite map_app, in_app_iff in H1.
      destruct H1 as [H1 | [<- | []]]; [apply Hacc; auto | apply Hb; exact H2].
Qed.

Lemma strip_object (props : Obj.props) :
  strip (VObject props)
  = VObject (filter notProto (map (fun kv => (fst kv, strip (snd kv))) props)).
Proof.
  simpl. f_equal. induction props as [|[k v] props IH]; simpl; [reflexivity|].
  unfold notProto at 1. simpl fst.
  destruct (Str.eqb k (lit "__proto__")); simpl; rewrite IH; reflexivity.
Qed.

Lemma wellFormed_object (props : Obj.props) :
  wellFormed (VObject props)
  = ordered (Obj.keys props) && forallb (fun kv => wellFormed (snd kv)) props.
Proof.
  simpl. f_equal. induction props as [|[k v] props IH]; simpl; [reflexivity|].
  rewrite IH. reflexivity.
Qed.

Lemma keys_cleanValues (props : Obj.props) :
  Obj.keys (Part000.cleanValues props) = Obj.keys props.
Proof.
  unfold Obj.keys, Part000.cleanValues. rewrite map_map. reflexivity.
Qed.

(** On a well-formed value the walk of part_000 does what [strip] says. *)
Lemma cleanObject_strip (v : JSValue) :
  wellFormed v = true -> Part000.cleanObject v = strip v.
Proof.
  induction v as [ | | b | n | z | s | r | r | items IH | props IH]
    using JSValue_ind; try reflexivity; intros Hw.
  - simpl in *. f_equal. apply map_ext_in. intros x Hx.
    rewrite Forall_forall in IH. rewrite forallb_forall in Hw. auto.
  - rewrite wellFormed_object in Hw. apply andb_true_iff in Hw as [Ho Hv].
    rewrite cleanObject_object, strip_object.
    rewrite cleanLoop_ordered; [|exact Ho|intros k' k []]. simpl app.
    do 2 f_equal. apply map_ext_in. intros [k w] Hin. simpl. f_equal.
    rewrite Forall_forall in IH. rewrite forallb_forall in Hv.
    pose proof (IH _ Hin (Hv _ Hin)) as E. simpl in E. rewrite <- E.
    apply get_ordered; [rewrite keys_cleanValues; exact Ho|].
    unfold Part000.cleanValues. apply in_map_iff. exists (k, w). auto.
Qed.

Lemma strip_fixed (v : JSValue) :
  hasKeyDeep (lit "__proto__") v = false -> strip v = v.
Proof.
  induction v as [ | | b | n | z | s | r | r | items IH | props IH]
    using JSValue_ind; try reflexivity; intros H.
  - simpl in *. f_equal. rewrite <- (map_id items) at 2. apply map_ext_in.
    intros x Hx. rewrite Forall_forall in IH. apply IH; [exact Hx|].
    destruct (hasKeyDeep (lit "__proto__") x) eqn:E; [|reflexivity].
    rewrite <- H. symmetry. apply existsb_exists. eauto.
  - rewrite hasKeyDeep_object in H. rewrite strip_object. f_equal.
    induction props as [|[k w] props IHp]; simpl; [reflexivity|].
    simpl in H. apply orb_false_iff in H as [H1 H2].
    apply orb_false_iff in H1 as [Hk Hw].
    inversion IH as [|? ? IHw IHrest]; subst. simpl in IHw.
    unfold notProto at 1. simpl fst. rewrite Hk. simpl.
    rewrite (IHw Hw), (IHp IHrest H2). reflexivity.
Qed.

Lemma strip_stripped (v : JSValue) : hasKeyDeep (lit "__proto__") (strip v) = false.
Proof.
  induction v as [ | | b | n | z | s | r | r | items IH | props IH]
    using JSValue_ind; try reflexivity.
  - simpl. induction IH as [|x items Hx _ IHi]; simpl; [reflexivity|].
    rewrite Hx. exact IHi.
  - rewrite strip_object, hasKeyDeep_object.
    induction IH as [|[k w] props Hw _ IHp]; simpl; [reflexivity|].
    unfold notProto at 1. simpl fst.
    destruct (Str.eqb k (lit "__proto__")) eqn:E; simpl; [exact IHp|].
    simpl in Hw. rewrite E, Hw. exact IHp.
Qed.

Lemma ordered_filter (p : jsstring -> bool) (ks : list jsstring) :
  ordered ks = true -> ordered (filter p ks) = true.
Proof.
  induction ks as [|k ks IH]; simpl; intros H; [reflexivity|].
  apply andb_true_iff in H as [Hb Ho].
  destruct (p k); simpl; [|apply IH; exact Ho].
  rewrite IH by exact Ho. rewrite andb_true_r.
  rewrite forallb_forall in *. intros x Hx. apply Hb.
  apply filter_In in Hx. tauto.
Qed.

Lemma wellFormed_strip (v : JSValue) :
  wellFormed v = true -> wellFormed (strip v) = true.
Proof.
  induction v as [ | | b | n | z | s | r | r | items IH | props IH]
    using JSValue_ind; try reflexivity; intros Hw.
  - simpl in *. rewrite forallb_forall in *. intros x Hx.
    apply in_map_iff in Hx as [y [<- Hy]]. rewrite Forall_forall in IH. auto.
  - rewrite wellFormed_object in Hw. apply andb_true_iff in Hw as [Ho Hv].
    rewrite strip_object, wellFormed_object. apply andb_true_iff. split.
    + replace (Obj.keys (filter notProto (map (fun kv => (fst kv, strip (snd kv))) props)))
        with (filter (fun k => negb (Str.eqb k (lit "__proto__"))) (Obj.keys props)).
      { apply ordered_filter; exact Ho. }
      clear. induction props as [|[k w] props IHp]; simpl; [reflexivity|].
      unfold notProto at 1. simpl fst.
      destruct (Str.eqb k (lit "__proto__")); simpl; rewrite IHp; reflexivity.
    + rewrite forallb_forall in *. intros [k w] Hin.
      apply filter_In in Hin as [Hin _]. apply in_map_iff in Hin as [[k0 w0] [E Hin]].
      inversion E; subst. simpl. rewrite Forall_forall in IH.
      apply (IH _ Hin). apply (Hv _ Hin).
Qed.

(** ** Trimming *)

Lemma trimStart_cases (s : jsstring) :
  Str.trimStart s = []
  \/ exists c r, Str.trimStart s = c :: r /\ Str.isWhiteSpace c = false.
Proof.
  induction s as [|c s IH]; simpl; [auto|].
  destruct (Str.isWhiteSpace c) eqn:E; [exact IH|]. right. eauto.
Qed.

(** A trimmed text is empty, or starts and ends with units that are not
    white space. *)
Lemma trim_cases (s : jsstring) :
  Str.trim s = []
  \/ (exists c, Str.trim s = [c] /\ Str.isWhiteSpace c = false)
  \/ (exists c mid d,
        Str.trim s = c :: mid ++ [d]
        /\ Str.isWhiteSpace c = false /\ Str.isWhiteSpace d = false).
Proof.
  unfold Str.trim, Str.trimEnd.
  destruct (trimStart_cases s) as [-> | [c [r [-> Hc]]]]; [left; reflexivity|].
  right. simpl rev.
  destruct (@trimStart_keeps (rev r) [] c Hc) as [pre E]. rewrite E.
  rewrite rev_app_distr. simpl.
  destruct (trimStart_cases (rev r ++ [c])) as [E0 | [d [r2 [E2 Hd]]]].
  - rewrite E in E0. destruct pre; discriminate.
  - rewrite E in E2.
    destruct (rev pre) as [|x xs] eqn:Ep; [left; eauto|]. right.
    destruct (@exists_last _ (x :: xs)) as [mid [l El]]; [discriminate|].
    rewrite El. exists c, mid, l. split; [reflexivity|]. split; [exact Hc|].
    assert (Hl : pre = l :: rev mid).
    { rewrite <- (rev_involutive pre), Ep, El, rev_app_distr. reflexivity. }
    rewrite Hl in E2. simpl in E2. injection E2 as -> _. exact Hd.
Qed.

Lemma trim_idempotent (s : jsstring) : Str.trim (Str.trim s) = Str.trim s.
Proof.
  destruct (trim_cases s) as [-> | [[c [-> Hc]] | [c [mid [d [-> [Hc Hd]]]]]]].
  - reflexivity.
  - apply (@trim_tight c [] c); exact Hc.
  - apply trim_tight; assumption.
Qed.

Lemma trim_white (s : jsstring) :
  forallb Str.isWhiteSpace s = true -> Str.trim s = [].
Proof.
  intros H. unfold Str.trim.
  replace (Str.trimStart s) with (@nil N); [reflexivity|].
  induction s as [|c s IH]; simpl in *; [reflexivity|].
  apply andb_true_iff in H as [-> H]. auto.
Qed.

(** ** The two modes *)

Lemma Part000_branch_EmptyQuoted (v : jsstring) :
  Part000.branch v = EmptyQuoted ->
  ((Str.length v =? 2)%Z && equals (Str.at_ v 1) 34)%bool = true
  /\ Str.endsWith v [34%N] = true.
Proof.
  unfold Part000.branch. cbv zeta.
  destruct (_ && _)%bool; [discriminate|].
  destruct (equals (Str.at_ v 0) 34).
  - destruct ((Str.length v =? 2)%Z && equals (Str.at_ v 1) 34)%bool eqn:E;
      [|discriminate]. intros _. split; [reflexivity|].
    apply andb_true_iff in E as [El E1]. apply Z.eqb_eq in El.
    destruct v as [|a [|b [|c v]]]; try (unfold Str.length in El; simpl in El; lia).
    unfold Str.at_ in E1. simpl in E1. apply N.eqb_eq in E1. subst b.
    reflexivity.
  - destruct (Rx.test BIGINT_REGEX v); [discriminate|].
    destruct (_ || _)%bool; discriminate.
Qed.

Lemma Part000_branch_QuotedLiteral (v : jsstring) :
  Part000.branch v = QuotedLiteral ->
  ((Str.length v =? 2)%Z && equals (Str.at_ v 1) 34)%bool = false.
Proof.
  unfold Part000.branch. cbv zeta.
  destruct (_ && _)%bool; [discriminate|].
  destruct (equals (Str.at_ v 0) 34).
  - destruct ((Str.length v =? 2)%Z && equals (Str.at_ v 1) 34)%bool;
      [discriminate | reflexivity].
  - destruct (Rx.test BIGINT_REGEX v); [discriminate|].
    destruct (_ || _)%bool; discriminate.
Qed.

(** ** The patterns find nothing but spellings of the two keys *)

Ltac invert_matches :=
  repeat match goal with
         | H : Rx.Matches (Rx.Seq _ _) _ |- _ =>
             apply Matches_Seq_inv in H as [? [? [-> [? ?]]]]
         | H : Rx.Matches (Rx.Alt _ _) _ |- _ =>
             apply Matches_Alt_inv in H as [H | H]
         | H : Rx.Matches Rx.Eps _ |- _ => inversion H; subst; clear H
         | H : Rx.Matches (Rx.Unit _) _ |- _ => inversion H; subst; clear H
         | H : Rx.Matches (Rx.Class _) _ |- _ => inversion H; subst; clear H
         end.

Ltac spelled_unit_of :=
  intros e H;
  cbv [u00 u4 Rx.text Rx.times Rx.oneOf Rx.seq fold_right map lit
       list_ascii_of_string] in H;
  invert_matches; cbv beta in *;
  simpl in *;
  repeat match goal with
         | H : (_ || _)%bool = true |- _ => apply orb_true_iff in H as [H | H]
         | H : N.eqb _ _ = true |- _ => apply N.eqb_eq in H; subst
         | H : false = true |- _ => discriminate H
         end;
  first [ exact (AsIs _) | exact (Escaped _ true) | exact (Escaped _ false) ].

Lemma unit_underscore : forall e,
  Rx.Matches (Rx.Alt (Rx.text "_") (u00 "5" (Rx.oneOf "Ff"))) e -> SpelledUnit 95 e.
Proof. spelled_unit_of. Qed.

Lemma unit_p : forall e,
  Rx.Matches (Rx.Alt (Rx.text "p") (u00 "7" (Rx.text "0"))) e -> SpelledUnit 112 e.
Proof. spelled_unit_of. Qed.

Lemma unit_r : forall e,
  Rx.Matches (Rx.Alt (Rx.text "r") (u00 "7" (Rx.text "2"))) e -> SpelledUnit 114 e.
Proof. spelled_unit_of. Qed.

Lemma unit_o : forall e,
  Rx.Matches (Rx.Alt (Rx.text "o") (u00 "6" (Rx.oneOf "Ff"))) e -> SpelledUnit 111 e.
Proof. spelled_unit_of. Qed.

Lemma unit_t : forall e,
  Rx.Matches (Rx.Alt (Rx.text "t") (u00 "7" (Rx.text "4"))) e -> SpelledUnit 116 e.
Proof. spelled_unit_of. Qed.

Lemma unit4_c : forall e,
  Rx.Matches (Rx.Alt (Rx.text "c") (u4 "006" (Rx.text "3"))) e -> SpelledUnit 99 e.
Proof. spelled_unit_of. Qed.

Lemma unit4_o : forall e,
  Rx.Matches (Rx.Alt (Rx.text "o") (u4 "006" (Rx.oneOf "Ff"))) e -> SpelledUnit 111 e.
Proof. spelled_unit_of. Qed.

Lemma unit4_n : forall e,
  Rx.Matches (Rx.Alt (Rx.text "n") (u4 "006" (Rx.oneOf "Ee"))) e -> SpelledUnit 110 e.
Proof. spelled_unit_of. Qed.

Lemma unit4_s : forall e,
  Rx.Matches (Rx.Alt (Rx.text "s") (u4 "007" (Rx.text "3"))) e -> SpelledUnit 115 e.
Proof. spelled_unit_of. Qed.

Lemma unit4_t : forall e,
  Rx.Matches (Rx.Alt (Rx.text "t") (u4 "007" (Rx.text "4"))) e -> SpelledUnit 116 e.
Proof. spelled_unit_of. Qed.

Lemma unit4_r : forall e,
  Rx.Matches (Rx.Alt (Rx.text "r") (u4 "007" (Rx.text "2"))) e -> SpelledUnit 114 e.
Proof. spelled_unit_of. Qed.

Lemma unit4_u : forall e,
  Rx.Matches (Rx.Alt (Rx.text "u") (u4 "007" (Rx.text "5"))) e -> SpelledUnit 117 e.
Proof. spelled_unit_of. Qed.

(** The end of both patterns: a quote, white space, a colon. *)
Lemma Matches_closing (w : jsstring) :
  Rx.Matches (Rx.Seq (Rx.Unit 34) (Rx.Seq (Rx.Star Rx.space)
                (Rx.Seq (Rx.text ":") Rx.Eps))) w ->
  exists ws, w = 34%N :: ws ++ [58%N] /\ forallb Str.isWhiteSpace ws = true.
Proof.
  intros H. apply Matches_Seq_inv in H as [q [w1 [-> [Hq H]]]].
  apply Matches_Seq_inv in H as [ws [w2 [-> [Hws H]]]].
  cbv [Rx.text Rx.seq fold_right map lit list_ascii_of_string] in H.
  invert_matches.
  exists ws. split; [reflexivity|].
  apply Matches_Star_Class. exact Hws.
Qed.

Ltac next_unit H lemma :=
  let e := fresh "e" in
  let He := fresh "He" in
  apply Matches_Seq_inv in H as [e [? [-> [He H]]]]; apply lemma in He.

Lemma suspectProtoRx_only (text : jsstring) :
  Rx.test suspectProtoRx text = true -> containsKey (lit "__proto__") text.
Proof.
  intros H. apply test_search in H as [pre [u [post [-> H]]]];
    [|reflexivity|reflexivity].
  unfold suspectProtoRx, Rx.pattern in H. cbn [Rx.seq fold_right Rx.times] in H.
  apply Matches_Seq_inv in H as [q [? [-> [Hq H]]]]. inversion Hq; subst.
  apply Matches_Seq_inv in H as [tt [? [-> [H12 H]]]].
  next_unit H12 unit_underscore. next_unit H12 unit_underscore. inversion H12; subst.
  next_unit H unit_p. next_unit H unit_r. next_unit H unit_o.
  next_unit H unit_t. next_unit H unit_o.
  apply Matches_Seq_inv in H as [tt [? [-> [H89 H]]]].
  next_unit H89 unit_underscore. next_unit H89 unit_underscore. inversion H89; subst.
  apply Matches_closing in H as [ws [-> Hws]].
  exists pre, (e ++ e0 ++ e1 ++ e2 ++ e3 ++ e4 ++ e5 ++ e6 ++ e7 ++ []), ws, post.
  split; [repeat (progress (simpl; rewrite <- ?app_assoc)); reflexivity|].
  split; [|exact Hws].
  change (lit "__proto__") with [95; 95; 112; 114; 111; 116; 111; 95; 95]%N.
  repeat (apply SpelledCons; [assumption|]). apply SpelledNil.
Qed.

Lemma suspectConstructorRx_only (text : jsstring) :
  Rx.test suspectConstructorRx text = true -> containsKey (lit "constructor") text.
Proof.
  intros H. apply test_search in H as [pre [u [post [-> H]]]];
    [|reflexivity|reflexivity].
  unfold suspectConstructorRx, Rx.pattern in H. cbn [Rx.seq fold_right] in H.
  apply Matches_Seq_inv in H as [q [? [-> [Hq H]]]]. inversion Hq; subst.
  next_unit H unit4_c. next_unit H unit4_o. next_unit H unit4_n.
  next_unit H unit4_s. next_unit H unit4_t. next_unit H unit4_r.
  next_unit H unit4_u. next_unit H unit4_c. next_unit H unit4_t.
  next_unit H unit4_o. next_unit H unit4_r.
  apply Matches_closing in H as [ws [-> Hws]].
  exists pre, (e ++ e0 ++ e1 ++ e2 ++ e3 ++ e4 ++ e5 ++ e6 ++ e7 ++ e8 ++ e9 ++ []),
    ws, post.
  split; [repeat (progress (simpl; rewrite <- ?app_assoc)); reflexivity|].
  split; [|exact Hws].
  change (lit "constructor")
    with [99; 111; 110; 115; 116; 114; 117; 99; 116; 111; 114]%N.
  repeat (apply SpelledCons; [assumption|]). apply SpelledNil.
Qed.

(** ** Bigint literals *)

Lemma digits_value (w : jsstring) :
  forallb Obj.isDigit w = true ->
  forall acc,
    fold_left
      (fun acc c =>
         match acc, JSON.hexValue c with
         | Some a, Some d => if N.ltb d 10 then Some (a * 10 + d)%N else None
         | _, _ => None
         end) w (Some acc)
    = Some (fold_left (fun acc c => (acc * 10 + (c - 48))%N) w acc).
Proof.
  induction w as [|c w IH]; simpl; intros H acc; [reflexivity|].
  apply andb_true_iff in H as [Hc Hw].
  unfold JSON.hexValue. unfold Obj.isDigit in Hc. rewrite Hc.
  apply andb_true_iff in Hc as [H1 H2]. apply N.leb_le in H1, H2.
  replace (N.ltb (c - 48) 10) with true by (symmetry; apply N.ltb_lt; lia).
  apply IH; exact Hw.
Qed.

Lemma Ecma_digits_value (w : jsstring) :
  forallb Obj.isDigit w = true -> w <> [] ->
  Ecma.digits 10 w = Some (Obj.decimal w).
Proof.
  intros H Hne. unfold Ecma.digits, Obj.decimal. destruct w as [|c w]; [congruence|].
  apply digits_value; exact H.
Qed.

(** The value the reference [BigInt] gives to a run of digits with an
    optional minus. *)
Lemma StringToBigInt_digits (negative : bool) (d : N) (ds : jsstring) :
  forallb Obj.isDigit (d :: ds) = true ->
  Ecma.StringToBigInt ((if negative then [45%N] else []) ++ d :: ds)
  = Some (if negative then (- Z.of_N (Obj.decimal (d :: ds)))%Z
          else Z.of_N (Obj.decimal (d :: ds))).
Proof.
  intros Hd. unfold Ecma.StringToBigInt.
  assert (Hlast : exists mid l, d :: ds = mid ++ [l] /\ Obj.isDigit l = true).
  { destruct (exists_last (l := d :: ds)) as [mid [l E]]; [discriminate|].
    exists mid, l. split; [exact E|]. rewrite E, forallb_app in Hd.
    apply andb_true_iff in Hd as [_ Hl]. simpl in Hl. rewrite andb_true_r in Hl. exact Hl. }
  destruct Hlast as [mid [l [E Hl]]].
  pose proof (@Ecma_digits_value (d :: ds) Hd) as Hm.
  pose proof Hd as Hd'. simpl in Hd'. apply andb_true_iff in Hd' as [Hd0 Hds].
  assert (Hd1 : (48 <= d <= 57)%N).
  { unfold Obj.isDigit in Hd0. apply andb_true_iff in Hd0 as [H1 H2].
    apply N.leb_le in H1, H2. lia. }
  destruct negative; simpl app.
  - assert (Ht : Str.trim (45%N :: d :: ds) = 45%N :: d :: ds).
    { rewrite E. apply trim_tight; apply isDigit_not_space; auto. }
    rewrite Ht. simpl N.eqb. cbv iota.
    replace (match d :: ds with [] => @None (option N) | _ :: _ => None end)
      with (@None (option N)) by reflexivity.
    rewrite Hm by discriminate. reflexivity.
  - assert (Ht : Str.trim (d :: ds) = d :: ds).
    { destruct mid as [|c mid]; simpl in E.
      - injection E as -> ->. apply (@trim_tight l [] l);
          apply isDigit_not_space; auto.
      - injection E as <- ->. apply trim_tight; apply isDigit_not_space; auto. }
    rewrite Ht.
    replace (N.eqb d 45) with false by (symmetry; apply N.eqb_neq; lia).
    replace (N.eqb d 43) with false by (symmetry; apply N.eqb_neq; lia).
    assert (Hp : match ds with
                 | [] => @None (option N)
                 | p :: r' =>
                     if N.eqb d 48 then
                       if N.eqb p 120 || N.eqb p 88 then Some (Ecma.digits 16 r')
                       else if N.eqb p 111 || N.eqb p 79 then Some (Ecma.digits 8 r')
                       else if N.eqb p 98 || N.eqb p 66 then Some (Ecma.digits 2 r')
                       else None
                     else None
                 end = None).
    { destruct ds as [|p r']; [reflexivity|]. simpl in Hds.
      apply andb_true_iff in Hds as [Hp _]. unfold Obj.isDigit in Hp.
      apply andb_true_iff in Hp as [_ H2]. apply N.leb_le in H2.
      repeat match goal with
             | |- context [N.eqb p ?k] =>
                 replace (N.eqb p k) with false by (symmetry; apply N.eqb_neq; lia)
             end.
      destruct (N.eqb d 48); reflexivity. }
    rewrite Hp, Hm by discriminate. reflexivity.
Qed.

Lemma Map_get_In (m : list (jsstring * JSValue)) (k : jsstring) :
  isDefined (Map_get m k) = true -> In (k, Map_get m k) m.
Proof.
  induction m as [|[k0 v0] m IH]; simpl; [discriminate|].
  destruct (Str.eqb k0 k) eqn:E.
  - apply Str_eqb_eq in E. subst. auto.
  - auto.
Qed.

(** A text that starts with a digit, or with a minus and a digit, is not
    in the table, in either spelling. *)
Lemma Map_get_KNOWN_VALUES_numeric (negative : bool) (d : N) (rest : jsstring) :
  Obj.isDigit d = true ->
  Map_get KNOWN_VALUES ((if negative then [45%N] else []) ++ d :: rest) = VUndefined.
Proof.
  intros Hd. unfold Obj.isDigit in Hd. apply andb_true_iff in Hd as [H1 H2].
  apply N.leb_le in H1, H2.
  destruct (Map_get KNOWN_VALUES _) eqn:E; try reflexivity; exfalso.
  all: assert (Hin : isDefined (Map_get KNOWN_VALUES
                       ((if negative then [45%N] else []) ++ d :: rest)) = true)
         by (rewrite E; reflexivity).
  all: apply Map_get_In in Hin; unfold KNOWN_VALUES in Hin; simpl in Hin.
  all: destruct negative; simpl in Hin;
    repeat (destruct Hin as [Hin | Hin]; [injection Hin as ? ?; try lia; try discriminate|]);
    try contradiction.
Qed.

Lemma BIGINT_REGEX_matches (negative : bool) (d : N) (ds : jsstring) (n : N) :
  forallb Obj.isDigit (d :: ds) = true ->
  n = 110%N \/ n = 78%N ->
  Rx.test BIGINT_REGEX ((if negative then [45%N] else []) ++ d :: ds ++ [n]) = true.
Proof.
  intros Hd Hn. apply test_whole; [reflexivity | reflexivity |].
  change (Rx.pattern BIGINT_REGEX)
    with (Rx.Seq (Rx.Alt (Rx.Seq (Rx.Unit 45) Rx.Eps) Rx.Eps)
            (Rx.Seq (Rx.Seq Rx.digit (Rx.Star Rx.digit))
               (Rx.Seq (Rx.oneOf "nN") Rx.Eps))).
  simpl in Hd. apply andb_true_iff in Hd as [Hd0 Hds].
  constructor.
  - destruct negative.
    + apply Rx.MAltL. apply (Rx.MSeq (u := [45%N]) (v := [])); constructor.
    + apply Rx.MAltR. constructor.
  - change (d :: ds ++ [n]) with ((d :: ds) ++ [n]). constructor.
    + apply (Rx.MSeq (u := [d])).
      * constructor. exact Hd0.
      * apply Matches_Star_Class_intro. exact Hds.
    + apply (Rx.MSeq (u := [n]) (v := [])); [|constructor].
      constructor. destruct Hn as [-> | ->]; reflexivity.
Qed.

Lemma lowerUnit_low (c : N) : (c < 65)%N -> Str.lowerUnit c = c.
Proof.
  intros H. unfold Str.lowerUnit.
  replace (N.leb 65 c) with false by (symmetry; apply N.leb_gt; lia).
  replace (N.leb 0xC0 c) with false by (symmetry; apply N.leb_gt; lia).
  replace (N.eqb c 0x212A) with false by (symmetry; apply N.eqb_neq; lia).
  reflexivity.
Qed.

(** A candidate made of an optional minus, digits and the letter goes
    to the bigint step, in both files. *)
Lemma branch_bigint (negative : bool) (d : N) (ds : jsstring) (n : N) :
  forallb Obj.isDigit (d :: ds) = true ->
  n = 110%N \/ n = 78%N ->
  Index.branch ((if negative then [45%N] else []) ++ d :: ds ++ [n]) = BigintLiteral
  /\ Part000.branch ((if negative then [45%N] else []) ++ d :: ds ++ [n])
     = BigintLiteral.
Proof.
  intros Hd Hn.
  pose proof (@BIGINT_REGEX_matches negative d ds n Hd Hn) as Hb.
  pose proof Hd as Hd'. simpl in Hd'. apply andb_true_iff in Hd' as [Hd0 _].
  pose proof (@Map_get_KNOWN_VALUES_numeric negative d (ds ++ [n]) Hd0) as Hk.
  pose proof (@Map_get_KNOWN_VALUES_numeric negative d (Str.toLowerCase (ds ++ [n])) Hd0)
    as Hk'.
  assert (Hd1 : (48 <= d <= 57)%N).
  { unfold Obj.isDigit in Hd0. apply andb_true_iff in Hd0 as [H1 H2].
    apply N.leb_le in H1, H2. lia. }
  assert (Hd34 : N.eqb d 34 = false) by (apply N.eqb_neq; lia).
  assert (Hdh : Str.isHighSurrogate d = false).
  { unfold Str.isHighSurrogate.
    replace (N.leb 0xD800 d) with false by (symmetry; apply N.leb_gt; lia).
    reflexivity. }
  assert (Hl : Str.lowerUnit d = d) by (apply lowerUnit_low; lia).
  split.
  - unfold Index.branch. cbv zeta. rewrite Hk, Hb. simpl isDefined.
    rewrite andb_false_r.
    assert (Hc : equals (Str.codePointAt
                           ((if negative then [45%N] else []) ++ d :: ds ++ [n]) 0) 34
                 = false).
    { destruct negative; [reflexivity|]. simpl app.
      rewrite (@codePointAt_plain _ 0 d); [exact Hd34 | reflexivity | exact Hdh]. }
    rewrite Hc. rewrite andb_false_r. reflexivity.
  - unfold Part000.branch. cbv zeta.
    assert (Hlow : Str.toLowerCase ((if negative then [45%N] else []) ++ d :: ds ++ [n])
                   = (if negative then [45%N] else []) ++ d :: Str.toLowerCase (ds ++ [n])).
    { unfold Str.toLowerCase. destruct negative; simpl; rewrite Hl; reflexivity. }
    rewrite Hlow, Hk', Hb. simpl isDefined.
    assert (Hn1 : Str.eqb ((if negative then [45%N] else [])
                           ++ d :: Str.toLowerCase (ds ++ [n])) (lit "null") = false).
    { destruct negative; [reflexivity|]. simpl.
      replace (N.eqb d 110) with false by (symmetry; apply N.eqb_neq; lia). reflexivity. }
    assert (Hn2 : Str.eqb ((if negative then [45%N] else [])
                           ++ d :: Str.toLowerCase (ds ++ [n])) (lit "undefined") = false).
    { destruct negative; [reflexivity|]. simpl.
      replace (N.eqb d 117) with false by (symmetry; apply N.eqb_neq; lia). reflexivity. }
    rewrite Hn1, Hn2. simpl orb. rewrite andb_false_r.
    assert (Hc : equals (Str.at_ ((if negative then [45%N] else []) ++ d :: ds ++ [n]) 0) 34
                 = false).
    { destruct negative; [reflexivity|]. simpl. exact Hd34. }
    rewrite Hc. reflexivity.
Qed.

(** ** Array indices are spelled in one way *)

Lemma decimal_acc (r : jsstring) :
  forall acc,
    fold_left (fun acc c => (acc * 10 + (c - 48))%N) r acc
    = (acc * 10 ^ N.of_nat (List.length r) + Obj.decimal r)%N.
Proof.
  unfold Obj.decimal.
  induction r as [|c r IH]; intros acc.
  - simpl. lia.
  - cbn [fold_left List.length]. rewrite IH, (IH (0 * 10 + (c - 48))%N).
    rewrite Nat2N.inj_succ, N.pow_succ_r'. lia.
Qed.

Lemma decimal_cons (c : N) (r : jsstring) :
  Obj.decimal (c :: r)
  = ((c - 48) * 10 ^ N.of_nat (List.length r) + Obj.decimal r)%N.
Proof.
  unfold Obj.decimal at 1. cbn [fold_left]. rewrite decimal_acc. lia.
Qed.

Lemma decimal_bound (r : jsstring) :
  forallb Obj.isDigit r = true ->
  (Obj.decimal r < 10 ^ N.of_nat (List.length r))%N.
Proof.
  induction r as [|c r IH]; intros H.
  - vm_compute. reflexivity.
  - simpl in H. apply andb_true_iff in H as [Hc Hr].
    unfold Obj.isDigit in Hc. apply andb_true_iff in Hc as [H1 H2].
    apply N.leb_le in H1, H2. specialize (IH Hr).
    rewrite decimal_cons. cbn [List.length]. rewrite Nat2N.inj_succ, N.pow_succ_r'.
    nia.
Qed.

Lemma decimal_same_length (a : jsstring) :
  forall b,
    forallb Obj.isDigit a = true -> forallb Obj.isDigit b = true ->
    List.length a = List.length b ->
    Obj.decimal a = Obj.decimal b -> a = b.
Proof.
  induction a as [|c a IH]; intros [|d b] Ha Hb Hl E; try discriminate; [reflexivity|].
  simpl in Ha, Hb, Hl. injection Hl as Hl.
  apply andb_true_iff in Ha as [Hc Ha]. apply andb_true_iff in Hb as [Hd Hb].
  unfold Obj.isDigit in Hc, Hd.
  apply andb_true_iff in Hc as [Hc1 Hc2]. apply andb_true_iff in Hd as [Hd1 Hd2].
  apply N.leb_le in Hc1, Hc2, Hd1, Hd2.
  rewrite !decimal_cons, <- Hl in E.
  pose proof (decimal_bound a Ha) as Ba. pose proof (decimal_bound b Hb) as Bb.
  rewrite <- Hl in Bb.
  assert (Hcd : (c - 48 = d - 48)%N) by nia.
  assert (Hab : Obj.decimal a = Obj.decimal b) by nia.
  f_equal; [lia | apply IH; assumption].
Qed.

(** The spelling of an array index: digits, no leading zero unless it is
    the one digit [0]. *)
Lemma arrayIndex_spelling (k : jsstring) (i : N) :
  Obj.arrayIndex k = Some i ->
  forallb Obj.isDigit k = true
  /\ i = Obj.decimal k
  /\ exists c rest, k = c :: rest /\ (c = 48%N -> rest = []).
Proof.
  unfold Obj.arrayIndex. destruct k as [|c rest]; [discriminate|].
  destruct (forallb Obj.isDigit (c :: rest)) eqn:Hd; [|discriminate]. simpl andb.
  destruct (negb (N.eqb c 48) || match rest with [] => true | _ => false end)%bool eqn:Hz;
    [|discriminate]. simpl andb.
  destruct (_ && _)%bool; [|discriminate].
  intros E. injection E as <-. split; [reflexivity|]. split; [reflexivity|].
  exists c, rest. split; [reflexivity|]. intros ->. simpl in Hz.
  destruct rest; [reflexivity | discriminate].
Qed.

Lemma canonical_lower (c : N) (rest : jsstring) :
  forallb Obj.isDigit (c :: rest) = true -> c <> 48%N ->
  (10 ^ N.of_nat (List.length rest) <= Obj.decimal (c :: rest))%N.
Proof.
  intros H Hc. simpl in H. apply andb_true_iff in H as [Hd _].
  unfold Obj.isDigit in Hd. apply andb_true_iff in Hd as [H1 H2].
  apply N.leb_le in H1, H2. rewrite decimal_cons. nia.
Qed.

Lemma arrayIndex_injective (k1 k2 : jsstring) (i : N) :
  Obj.arrayIndex k1 = Some i -> Obj.arrayIndex k2 = Some i -> k1 = k2.
Proof.
  intros H1 H2.
  apply arrayIndex_spelling in H1 as [D1 [E1 [c1 [r1 [-> Z1]]]]].
  apply arrayIndex_spelling in H2 as [D2 [E2 [c2 [r2 [-> Z2]]]]].
  assert (E : Obj.decimal (c1 :: r1) = Obj.decimal (c2 :: r2)) by congruence.
  apply decimal_same_length; try assumption.
  pose proof (decimal_bound _ D1) as B1. pose proof (decimal_bound _ D2) as B2.
  cbn [List.length] in *.
  destruct (Nat.lt_trichotomy (List.length r1) (List.length r2)) as [L | [L | L]];
    [exfalso | congruence | exfalso].
  - destruct (N.eq_dec c2 48) as [-> | N2].
    + rewrite (Z2 eq_refl) in L. simpl in L. lia.
    + pose proof (@canonical_lower c2 r2 D2 N2) as L2.
      assert (10 ^ N.of_nat (S (List.length r1)) <= 10 ^ N.of_nat (List.length r2))%N
        by (apply N.pow_le_mono_r; lia).
      lia.
  - destruct (N.eq_dec c1 48) as [-> | N1].
    + rewrite (Z1 eq_refl) in L. simpl in L. lia.
    + pose proof (@canonical_lower c1 r1 D1 N1) as L1.
      assert (10 ^ N.of_nat (S (List.length r2)) <= 10 ^ N.of_nat (List.length r1))%N
        by (apply N.pow_le_mono_r; lia).
      lia.
Qed.

(** ** Setting a property keeps the keys in order *)

Lemma keys_replace (o : Obj.props) (k : jsstring) (v : JSValue) :
  Obj.keys (Obj.replace o k v) = Obj.keys o.
Proof.
  induction o as [|[k0 v0] o IH]; simpl; [reflexivity|].
  destruct (Str.eqb k0 k); simpl; [reflexivity | rewrite IH; reflexivity].
Qed.

Lemma ordered_app_last (ks : list jsstring) (k : jsstring) :
  ordered ks = true ->
  (forall k', In k' ks -> before k' k = true) ->
  ordered (ks ++ [k]) = true.
Proof.
  induction ks as [|k0 ks IH]; simpl; intros Ho H; [reflexivity|].
  apply andb_true_iff in Ho as [Hb Ho]. rewrite IH by auto.
  rewrite forallb_app, Hb. simpl. rewrite (H k0) by auto. reflexivity.
Qed.

Lemma keys_insertIndex_In (o : Obj.props) (i : N) (k : jsstring) (v : JSValue)
    (x : jsstring) :
  In x (Obj.keys (Obj.insertIndex o i k v)) -> x = k \/ In x (Obj.keys o).
Proof.
  induction o as [|[k0 v0] o IH]; simpl.
  - intros [<- | []]. auto.
  - destruct (Obj.arrayIndex k0) as [j|]; [destruct (N.ltb j i)|]; simpl.
    + intros [<- | H]; [auto | destruct (IH H); auto].
    + intros [<- | H]; auto.
    + intros [<- | H]; auto.
Qed.

Lemma insertIndex_ordered (o : Obj.props) (i : N) (k : jsstring) (v : JSValue) :
  ordered (Obj.keys o) = true ->
  Obj.has o k = false ->
  Obj.arrayIndex k = Some i ->
  ordered (Obj.keys (Obj.insertIndex o i k v)) = true.
Proof.
  intros Ho Hh Ek. induction o as [|[k0 v0] o IH]; [reflexivity|].
  simpl in Ho, Hh. apply andb_true_iff in Ho as [Hb Ho].
  apply orb_false_iff in Hh as [Hk0 Hh]. rewrite forallb_forall in Hb.
  assert (Hnew : ordered (k :: k0 :: Obj.keys o) = true ->
                 ordered (Obj.keys ((k, v) :: (k0, v0) :: o)) = true) by (intros H; exact H).
  cbn [Obj.insertIndex].
  destruct (Obj.arrayIndex k0) as [j|] eqn:E0; [destruct (N.ltb j i) eqn:Hji|].
  - (* the new key goes further down *)
    change (ordered (k0 :: Obj.keys (Obj.insertIndex o i k v)) = true).
    cbn [ordered]. rewrite (IH Ho Hh), andb_true_r.
    apply forallb_forall. intros x Hx.
    apply keys_insertIndex_In in Hx as [-> | Hx]; [|apply Hb; exact Hx].
    unfold before. rewrite E0, Ek. exact Hji.
  - (* the new key goes before a larger index *)
    apply Hnew. cbn [ordered]. rewrite Ho, andb_true_r.
    assert (Hij : (i < j)%N).
    { apply N.ltb_ge in Hji. destruct (N.eq_dec i j) as [<- | Hne]; [|lia].
      rewrite (arrayIndex_injective _ _ E0 Ek), Str_eqb_refl in Hk0. discriminate. }
    apply andb_true_iff. split; [|apply forallb_forall; exact Hb].
    cbn [forallb]. apply andb_true_iff. split.
    + unfold before. rewrite Ek, E0. apply N.ltb_lt. exact Hij.
    + apply forallb_forall. intros x Hx. specialize (Hb x Hx).
      unfold before in *. rewrite Ek. rewrite E0 in Hb.
      destruct (Obj.arrayIndex x) as [jx|]; [|reflexivity].
      apply N.ltb_lt in Hb. apply N.ltb_lt. lia.
  - (* the new key goes before the first name *)
    apply Hnew. cbn [ordered]. rewrite Ho, andb_true_r.
    apply andb_true_iff. split; [|apply forallb_forall; exact Hb].
    cbn [forallb]. apply andb_true_iff. split.
    + unfold before. rewrite Ek, E0. reflexivity.
    + apply forallb_forall. intros x Hx. specialize (Hb x Hx).
      unfold before in *. rewrite Ek. rewrite E0 in Hb.
      destruct (Obj.arrayIndex x) as [jx|]; [discriminate | reflexivity].
Qed.

Lemma set_ordered (o : Obj.props) (k : jsstring) (v : JSValue) :
  ordered (Obj.keys o) = true -> ordered (Obj.keys (Obj.set o k v)) = true.
Proof.
  intros Ho. unfold Obj.set. destruct (Obj.has o k) eqn:Hh.
  - rewrite keys_replace. exact Ho.
  - destruct (Obj.arrayIndex k) as [i|] eqn:Ek.
    + apply insertIndex_ordered; assumption.
    + unfold Obj.keys. rewrite map_app. cbn [map fst].
      apply ordered_app_last; [exact Ho|].
      intros k' Hk'. unfold before. rewrite Ek.
      destruct (Obj.arrayIndex k'); [reflexivity|].
      apply negb_true_iff. destruct (Str.eqb k' k) eqn:E; [|reflexivity].
      apply Str_eqb_eq in E. subst k'.
      apply Obj_has_In in Hk'. congruence.
Qed.

Lemma wellFormed_set (o : Obj.props) (k : jsstring) (v : JSValue) :
  wellFormed (VObject o) = true -> wellFormed v = true ->
  wellFormed (VObject (Obj.set o k v)) = true.
Proof.
  rewrite !wellFormed_object. intros H Hv. apply andb_true_iff in H as [Ho Ha].
  apply andb_true_iff. split; [apply set_ordered; exact Ho|].
  rewrite forallb_forall in *. intros [k' w] Hin.
  apply Obj_In_set in Hin as [[-> ->] | Hin]; [exact Hv | apply (Ha _ Hin)].
Qed.

(** ** The reference parser builds well-formed values *)

Lemma wordValue_wellFormed (w : jsstring) (v : JSValue) :
  JSON.wordValue w = Some v -> wellFormed v = true.
Proof.
  unfold JSON.wordValue.
  repeat match goal with
         | |- context [if ?b then _ else _] => destruct b
         end; intros H; inversion H; reflexivity.
Qed.

Ltac split_andb :=
  repeat match goal with
         | H : _ && _ = true |- _ => apply andb_true_iff in H as [? ?]
         end;
  repeat (apply andb_true_iff; split); auto.

Lemma complete_wellFormed (stack : list JSON.frame) (v : JSValue) (st : JSON.state) :
  forallb frameWellFormed stack = true -> wellFormed v = true ->
  JSON.complete stack v = Some st -> stateWellFormed st = true.
Proof.
  intros Hs Hv. unfold JSON.complete.
  destruct stack as [|[items | members [k|]] stack]; intros H; inversion H; subst;
    unfold stateWellFormed; cbn [fst snd forallb frameWellFormed] in *;
    try (cbn [wellFormed forallb]; fold wellFormed; split_andb; fail).
  apply andb_true_iff in Hs as [Hm Hs]. rewrite Hs, !andb_true_r.
  apply (wellFormed_set members k v Hm Hv).
Qed.

Lemma step_wellFormed (st st' : JSON.state) (t : JSON.token) :
  stateWellFormed st = true -> JSON.step st t = Some st' ->
  stateWellFormed st' = true.
Proof.
  destruct st as [stack e]. unfold stateWellFormed at 1. simpl fst. simpl snd.
  intros H. apply andb_true_iff in H as [Hs _].
  assert (Hvalue : JSON.value stack t = Some st' -> stateWellFormed st' = true).
  { unfold JSON.value. destruct t; try discriminate.
    - intros E; inversion E; subst. unfold stateWellFormed.
      cbn [fst snd forallb frameWellFormed]. rewrite Hs. reflexivity.
    - intros E; inversion E; subst. unfold stateWellFormed.
      cbn [fst snd forallb frameWellFormed]. rewrite Hs. reflexivity.
    - apply complete_wellFormed; [exact Hs | reflexivity].
    - destruct (JSON.wordValue w) as [v|] eqn:E; [|discriminate].
      apply complete_wellFormed; [exact Hs | apply (wordValue_wellFormed _ E)]. }
  assert (Hkey : JSON.key stack t = Some st' -> stateWellFormed st' = true).
  { unfold JSON.key. destruct t; try discriminate.
    destruct stack as [|[items | members [k|]] stack]; try discriminate.
    intros E; inversion E; subst. unfold stateWellFormed.
    cbn [fst snd forallb frameWellFormed] in *. rewrite Hs. reflexivity. }
  assert (HcloseA : JSON.closeArray stack = Some st' -> stateWellFormed st' = true).
  { unfold JSON.closeArray. destruct stack as [|[items | members k] stack];
      try discriminate. cbn [forallb frameWellFormed] in Hs.
    apply andb_true_iff in Hs as [Hi Hs].
    apply complete_wellFormed; [exact Hs|].
    change (forallb wellFormed (rev items) = true).
    rewrite forallb_forall in *. intros x Hx. apply Hi, in_rev, Hx. }
  assert (HcloseO : JSON.closeObject stack = Some st' -> stateWellFormed st' = true).
  { unfold JSON.closeObject. destruct stack as [|[items | members [k|]] stack];
      try discriminate. cbn [forallb frameWellFormed] in Hs.
    apply andb_true_iff in Hs as [Hm Hs].
    apply complete_wellFormed; [exact Hs | exact Hm]. }
  unfold JSON.step. destruct e; try discriminate.
  - exact Hvalue.
  - destruct t; auto.
  - destruct t; auto.
  - exact Hkey.
  - destruct t; try discriminate. intros E; inversion E; subst.
    unfold stateWellFormed. cbn [fst snd]. rewrite Hs. reflexivity.
  - destruct t; try discriminate; auto.
    destruct stack as [|[items | members k] stack]; try discriminate;
      intros E; inversion E; subst; unfold stateWellFormed; cbn [fst snd];
      rewrite Hs; reflexivity.
Qed.

Lemma run_wellFormed (ts : list JSON.token) :
  forall (st : JSON.state) (v : JSValue),
    stateWellFormed st = true -> JSON.run st ts = Some v -> wellFormed v = true.
Proof.
  induction ts as [|t ts IH]; simpl; intros st v Hst.
  - destruct st as [stack e]. destruct e; try discriminate.
    intros E; inversion E; subst. unfold stateWellFormed in Hst. simpl in Hst.
    apply andb_true_iff in Hst as [_ Hv]. exact Hv.
  - destruct (JSON.step st t) as [st'|] eqn:E; [|discriminate].
    apply IH. apply (step_wellFormed _ _ Hst E).
Qed.

(** Every value the reference [JSON.parse] returns is well formed. *)
Lemma JSON_parse_wellFormed (text : jsstring) (v : JSValue) :
  JSON.parse text = Return v -> wellFormed v = true.
Proof.
  unfold JSON.parse. destruct (JSON.lex _ _ _) as [ts|]; [|discriminate].
  destruct (JSON.run _ ts) as [w|] eqn:E; [|discriminate].
  intros H. injection H as <-. apply (@run_wellFormed ts ([], JSON.EValue) w); [reflexivity | exact E].
Qed.

(** ** Texts that no step takes *)

(** What the first unit of a match of the two patterns anchored at the
    start can be. *)
Lemma BIGINT_REGEX_first (c : N) (rest : jsstring) :
  Rx.test BIGINT_REGEX (c :: rest) = true -> c = 45%N \/ Obj.isDigit c = true.
Proof.
  intros H. apply BIGINT_REGEX_shape in H as [sign [d [ds [n [E [Hs [Hd _]]]]]]].
  simpl in Hd. apply andb_true_iff in Hd as [Hd _].
  destruct Hs as [-> | ->]; simpl in E; injection E as -> _; auto.
Qed.

Lemma leadingDigitRegex_first (c : N) (rest : jsstring) :
  Rx.test leadingDigitRegex (c :: rest) = true ->
  Str.isWhiteSpace c = true \/ c = 45%N \/ Obj.isDigit c = true.
Proof.
  intros H. apply test_prefix in H; [|reflexivity|reflexivity].
  destruct H as [u [v [E H]]].
  change (Rx.pattern leadingDigitRegex)
    with (Rx.Seq (Rx.Star Rx.space)
            (Rx.Seq (Rx.Alt (Rx.Seq (Rx.Unit 45) Rx.Eps) Rx.Eps)
               (Rx.Seq Rx.digit Rx.Eps))) in H.
  apply Matches_Seq_inv in H as [sp [w [-> [Hsp H]]]].
  apply Matches_Star_Class in Hsp.
  destruct sp as [|x sp].
  - apply Matches_Seq_inv in H as [sign [w2 [-> [Hsign H]]]].
    apply Matches_Seq_inv in H as [d' [e [-> [Hd He]]]].
    inversion He; subst. inversion Hd as [ | | p d Hpd | | | | | ]; subst.
    apply Matches_Alt_inv in Hsign as [Hs | Hs].
    + apply Matches_Seq_inv in Hs as [a [b [-> [Ha Hb]]]].
      inversion Ha; inversion Hb; subst. simpl in E. injection E as -> _. auto.
    + inversion Hs; subst. simpl in E. injection E as -> _.
      right; right. exact Hpd.
  - simpl in E. injection E as -> _. simpl in Hsp.
    apply andb_true_iff in Hsp as [Hx _]. auto.
Qed.

(** The first unit of a trimmed text is not white space. *)
Lemma trim_first (s : jsstring) (c : N) (rest : jsstring) :
  Str.trim s = c :: rest -> Str.isWhiteSpace c = false.
Proof.
  intros E.
  destruct (trim_cases s) as [E0 | [[c0 [E0 Hc]] | [c0 [mid [d [E0 [Hc _]]]]]]];
    rewrite E in E0; [discriminate | |]; injection E0 as -> _; exact Hc.
Qed.

(** Lower-casing gives no ASCII capital, and a minus only from a minus. *)
Lemma lowerUnit_not_capital (c : N) :
  (Str.lowerUnit c < 65 \/ 90 < Str.lowerUnit c)%N.
Proof.
  unfold Str.lowerUnit.
  destruct (N.leb 65 c) eqn:E1; [apply N.leb_le in E1 | apply N.leb_gt in E1];
    destruct (N.leb c 90) eqn:E2; try apply N.leb_le in E2; try apply N.leb_gt in E2;
    cbn [andb]; try lia.
  all: destruct (N.leb 192 c && N.leb c 222 && negb (N.eqb c 215))%bool eqn:E3;
    [apply andb_true_iff in E3 as [E3 _]; apply andb_true_iff in E3 as [E3 _];
     apply N.leb_le in E3; lia|].
  all: destruct (N.eqb c 8490) eqn:E4; lia.
Qed.

Lemma lowerUnit_minus (c : N) : Str.lowerUnit c = 45%N -> c = 45%N.
Proof.
  unfold Str.lowerUnit.
  destruct (N.leb 65 c && N.leb c 90)%bool eqn:E1.
  - apply andb_true_iff in E1 as [E1 _]. apply N.leb_le in E1. lia.
  - destruct (N.leb 192 c && N.leb c 222 && negb (N.eqb c 215))%bool eqn:E3.
    + apply andb_true_iff in E3 as [E3 _]; apply andb_true_iff in E3 as [E3 _].
      apply N.leb_le in E3. lia.
    + destruct (N.eqb c 8490); [discriminate | auto].
Qed.

(** The first unit of a text, read as a code point, is one of the four
    opening marks only if the unit is. *)
Lemma codePointAt_first (c : N) (rest : jsstring) (k : N) :
  (k < 0xD800)%N ->
  equals (Str.codePointAt (c :: rest) 0) k = N.eqb c k.
Proof.
  intros Hk. unfold Str.codePointAt.
  change (Str.at_ (c :: rest) 0) with (Some c). cbv beta iota.
  destruct (Str.isHighSurrogate c) eqn:Eh; [|reflexivity].
  unfold Str.isHighSurrogate in Eh. apply andb_true_iff in Eh as [E1 E2].
  apply N.leb_le in E1, E2.
  assert (Hc : N.eqb c k = false) by (apply N.eqb_neq; lia). rewrite Hc.
  destruct (Str.at_ (c :: rest) (0 + 1)) as [second|]; [|exact Hc].
  destruct (Str.isLowSurrogate second); [|exact Hc].
  unfold equals. apply N.eqb_neq. lia.
Qed.

(** A text that opens with none of the marks and is no word of the
    table, in any case of its letters, is taken by no step. *)
Lemma branch_plain (c : N) (rest : jsstring) :
  Str.isWhiteSpace c = false ->
  Obj.isDigit c = false ->
  ~ In c [34; 45; 91; 123]%N ->
  ~ In (Str.toLowerCase (c :: rest))
       [lit "true"; lit "false"; lit "null"; lit "undefined"; lit "nan";
        lit "infinity"] ->
  Index.branch (c :: rest) = Fallback /\ Part000.branch (c :: rest) = Fallback.
Proof.
  intros Hw Hd Hc Hl.
  assert (H34 : N.eqb c 34 = false) by (apply N.eqb_neq; intros ->; apply Hc; simpl; auto).
  assert (H91 : N.eqb c 91 = false) by (apply N.eqb_neq; intros ->; apply Hc; simpl; auto).
  assert (H123 : N.eqb c 123 = false) by (apply N.eqb_neq; intros ->; apply Hc; simpl; auto).
  assert (H45 : c <> 45%N) by (intros ->; apply Hc; simpl; auto).
  assert (Hb : Rx.test BIGINT_REGEX (c :: rest) = false).
  { destruct (Rx.test BIGINT_REGEX (c :: rest)) eqn:E; [|reflexivity].
    apply BIGINT_REGEX_first in E as [E | E]; congruence. }
  assert (Hg : Rx.test leadingDigitRegex (c :: rest) = false).
  { destruct (Rx.test leadingDigitRegex (c :: rest)) eqn:E; [|reflexivity].
    apply leadingDigitRegex_first in E as [E | [E | E]]; congruence. }
  assert (Hi : isDefined (Map_get KNOWN_VALUES (c :: rest)) = false).
  { destruct (isDefined (Map_get KNOWN_VALUES (c :: rest))) eqn:E; [|reflexivity].
    exfalso. assert (E' := E). apply Map_get_In in E.
    destruct (Map_get KNOWN_VALUES (c :: rest)) eqn:Ev; try discriminate E'.
    all: unfold KNOWN_VALUES in E; simpl in E.
    all: repeat (destruct E as [E | E];
                 [injection E as E1 E2 E3; try discriminate;
                  try (apply H45; symmetry; exact E1);
                  try (apply Hl; rewrite <- E1, <- E2; vm_compute; tauto) |]);
      try contradiction. }
  assert (Hp : isDefined (Map_get KNOWN_VALUES (Str.toLowerCase (c :: rest)))
               || Str.eqb (Str.toLowerCase (c :: rest)) (lit "null")
               || Str.eqb (Str.toLowerCase (c :: rest)) (lit "undefined") = false).
  { apply orb_false_iff. split; [apply orb_false_iff; split|].
    - destruct (isDefined (Map_get KNOWN_VALUES (Str.toLowerCase (c :: rest)))) eqn:E;
        [|reflexivity].
      exfalso. assert (E' := E). apply Map_get_In in E.
      destruct (Map_get KNOWN_VALUES (Str.toLowerCase (c :: rest))) eqn:Ev;
        try discriminate E'.
      all: unfold KNOWN_VALUES in E; simpl in E.
      all: pose proof (lowerUnit_not_capital c) as Hcap.
      all: repeat (destruct E as [E | E];
                   [first [ injection E as E1 E2 | injection E as E1 ];
                    try discriminate;
                    try (rewrite <- E1 in Hcap; lia);
                    try (apply H45, lowerUnit_minus; symmetry; exact E1);
                    try (apply Hl; simpl; rewrite <- E1;
                         first [rewrite <- E2 | idtac]; simpl; tauto) |]);
        try contradiction.
    - apply Str_eqb_neq. intros E. apply Hl. rewrite E. simpl. tauto.
    - apply Str_eqb_neq. intros E. apply Hl. rewrite E. simpl. tauto. }
  split.
  - unfold Index.branch. cbv zeta.
    rewrite Hi, Hb, Hg, !codePointAt_first, H34, H91, H123 by lia.
    rewrite !andb_false_r. reflexivity.
  - unfold Part000.branch. cbv zeta. rewrite Hp, Hb, Hg.
    change (Str.at_ (c :: rest) 0) with (Some c). unfold equals.
    rewrite H34, H91, H123, andb_false_r. reflexivity.
Qed.

(* ================================================================== *)
(** * The claims *)
(* ================================================================== *)

(** C1.  index.ts returns what the parser built: on the text of the
    specification's example, which goes to the structural JSON step and
    parses, the result still has the key [__proto__]. *)
Lemma Index_returns_proto_key :
  Index.branch (Str.trim pollutedText) = StructuralJSON
  /\ Index.synapse ecmascript (VString pollutedText) defaultOptions
     = Return (VObject [ (lit "__proto__", VObject [(lit "polluted", VBool true)]);
                         (lit "a", int 1) ])
  /\ hasKeyDeep (lit "__proto__")
       (VObject [ (lit "__proto__", VObject [(lit "polluted", VBool true)]);
                  (lit "a", int 1) ]) = true.
Proof. repeat split; vm_compute; reflexivity. Qed.

(** C1, amended.  In part_000, when a text goes to the structural JSON
    step and the runtime's parser accepts it, the lenient call returns
    the parsed structure cleaned, and that structure has no key
    [__proto__] at any depth; on the example it is the object with the
    one property [a: 1].  (index.ts returns the parsed structure as it
    is.) *)
Theorem Part000_result_is_stripped :
  (forall (rt : Runtime) (text : jsstring) (options : Options) (parsed : JSValue),
      isStrict options = false ->
      Part000.branch (Str.trim text) = StructuralJSON ->
      JSON_parse rt (Str.trim text) = Return parsed ->
      Part000.result (Part000.synapse rt (VString text) options)
        = Return (Part000.cleanObject parsed)
      /\ hasKeyDeep (lit "__proto__") (Part000.cleanObject parsed) = false)
  /\ Part000.result (Part000.synapse ecmascript (VString pollutedText) defaultOptions)
     = Return (VObject [(lit "a", int 1)])
  /\ (forall (rt : Runtime) (text : jsstring) (options : Options) (parsed : JSValue),
      isStrict options = false ->
      Index.branch (Str.trim text) = StructuralJSON ->
      JSON_parse rt text = Return parsed ->
      Index.synapse rt (VString text) options = Return parsed).
Proof.
  split; [|split].
  - intros rt text options parsed Hs Hb Hp. split; [|apply cleanObject_stripped].
    rewrite Part000_synapse_branch, Hb. unfold Part000.parseStep; simpl.
    rewrite Hs, andb_false_r, Hp. reflexivity.
  - vm_compute. reflexivity.
  - intros rt text options parsed Hs Hb Hp.
    rewrite Index_synapse_branch, Hb. unfold Index.parseStep.
    rewrite Hs, Hp. reflexivity.
Qed.

Lemma Part000_result_is_stripped_witness :
  Part000.result (Part000.synapse ecmascript (VString pollutedText) defaultOptions)
    = Return (Part000.cleanObject
                (VObject [ (lit "__proto__", VObject [(lit "polluted", VBool true)]);
                           (lit "a", int 1) ]))
  /\ hasKeyDeep (lit "__proto__")
       (Part000.cleanObject
          (VObject [ (lit "__proto__", VObject [(lit "polluted", VBool true)]);
                     (lit "a", int 1) ])) = false.
Proof.
  apply (proj1 Part000_result_is_stripped ecmascript pollutedText defaultOptions);
    vm_compute; reflexivity.
Defined.

(** C2.  Strict mode does not raise the pollution error on every text
    that contains such a key: when the text starts and ends with a
    quote, index.ts returns what is between the two and part_000 raises
    [Invalid JSON]. *)
Lemma strict_without_pollution_error :
  containsKey (lit "__proto__") keyOnlyText
  /\ Rx.test suspectProtoRx keyOnlyText = true
  /\ Index.safesynapse ecmascript (VString keyOnlyText) defaultOptions
     = Return (VString (quoted "__proto__':'"))
  /\ Part000.result (Part000.safesynapse ecmascript (VString keyOnlyText) defaultOptions)
     = Throw (SyntaxError (lit "[synapse] Invalid JSON")).
Proof.
  split; [|repeat split; vm_compute; reflexivity].
  exists [], (lit "__proto__"), [], (quoted "''").
  split; [reflexivity|]. split; [apply Spelled_refl | reflexivity].
Qed.

(** C2, amended.  In strict mode, a text that goes to the structural
    JSON step and contains the key [__proto__] or [constructor] between
    quotes, each character as it stands or as a [\uXXXX] escape, then
    optional white space and a colon, raises the pollution error,
    whatever the runtime's parser would do with it; part_000 writes its
    warning first.  So do the two examples, the key spelled out or with
    its underscores escaped. *)
Theorem strict_pollution_error :
  (forall (rt : Runtime) (text : jsstring) (options : Options),
      isStrict options = true ->
      Index.branch (Str.trim text) = StructuralJSON ->
      containsKey (lit "__proto__") text \/ containsKey (lit "constructor") text ->
      Index.synapse rt (VString text) options = Throw (Error pollutionMessage))
  /\ (forall (rt : Runtime) (text : jsstring) (options : Options),
      isStrict options = true ->
      Part000.branch (Str.trim text) = StructuralJSON ->
      containsKey (lit "__proto__") text \/ containsKey (lit "constructor") text ->
      Part000.synapse rt (VString text) options
      = {| Part000.console := [pollutionMessage];
           Part000.result := Throw (Error pollutionMessage) |})
  /\ (forall (rt : Runtime) (options : Options),
      Index.safesynapse rt (VString protoText) options = Throw (Error pollutionMessage)
      /\ Index.safesynapse rt (VString escapedProtoText) options
         = Throw (Error pollutionMessage)
      /\ Part000.result (Part000.safesynapse rt (VString protoText) options)
         = Throw (Error pollutionMessage)
      /\ Part000.result (Part000.safesynapse rt (VString escapedProtoText) options)
         = Throw (Error pollutionMessage)).
Proof.
  assert (Hfind : forall text,
             containsKey (lit "__proto__") text \/ containsKey (lit "constructor") text ->
             Rx.test suspectProtoRx text || Rx.test suspectConstructorRx text = true).
  { intros text [H | H]; apply orb_true_iff.
    - left. apply suspectProtoRx_finds; exact H.
    - right. apply suspectConstructorRx_finds; exact H. }
  split; [|split].
  - intros rt text options Hs Hb Hk.
    rewrite Index_synapse_branch, Hb.
    apply strict_parseStep_on_match; auto.
  - intros rt text options Hs Hb Hk.
    rewrite Part000_synapse_branch, Hb.
    apply strict_parseStep_on_match; auto.
  - intros rt options. repeat split; vm_compute; reflexivity.
Qed.

Lemma strict_pollution_error_witness :
  Index.synapse ecmascript (VString (quoted " {'constructor' : {}} "))
    {| strict := Some true |} = Throw (Error pollutionMessage)
  /\ Part000.synapse ecmascript (VString escapedProtoText) {| strict := Some true |}
     = {| Part000.console := [pollutionMessage];
          Part000.result := Throw (Error pollutionMessage) |}.
Proof.
  split.
  - apply (proj1 strict_pollution_error ecmascript);
      [reflexivity | vm_compute; reflexivity |].
    right. exists (lit " {"), (lit "constructor"), [32%N], (lit " {}} ").
    split; [reflexivity|]. split; [apply Spelled_refl | reflexivity].
  - apply (proj1 (proj2 strict_pollution_error) ecmascript);
      [reflexivity | vm_compute; reflexivity |].
    left. exists (lit "{"), (lit "\u005f\u005fproto\u005f\u005f"), [], (lit "1}").
    split; [reflexivity|]. split; [|reflexivity].
    change (Spelled (lit "__proto__")
              (escapeOf false 95 ++ escapeOf false 95 ++ lit "proto"
               ++ escapeOf false 95 ++ escapeOf false 95 ++ [])).
    do 2 (apply SpelledCons; [apply Escaped|]).
    do 5 (apply (SpelledCons (e := [_])); [apply AsIs|]).
    do 2 (apply SpelledCons; [apply Escaped|]).
    apply SpelledNil.
Defined.

(** C3.  In lenient mode neither file raises, on any input and with any
    runtime, and on each failure path the input string comes back as it
    was given. *)
Theorem lenient_never_raises :
  (forall (rt : Runtime) (value : JSValue) (options : Options),
      isStrict options = false ->
      (exists v, Index.synapse rt value options = Return v)
      /\ (exists v, Part000.result (Part000.synapse rt value options) = Return v))
  /\ (forall (rt : Runtime) (text : jsstring) (options : Options),
      isStrict options = false ->
      Index.failure rt text ->
      Index.synapse rt (VString text) options = Return (VString text))
  /\ (forall (rt : Runtime) (text : jsstring) (options : Options),
      isStrict options = false ->
      Part000.failure rt text ->
      Part000.result (Part000.synapse rt (VString text) options)
      = Return (VString text)).
Proof.
  split; [|split].
  - intros rt value options Hs.
    destruct value as [ | | b | n | z | text | r | r | items | props];
      try (split; eexists; reflexivity).
    rewrite Index_synapse_branch, Part000_synapse_branch. split.
    + destruct (Index.branch (Str.trim text)); try (eexists; reflexivity).
      * unfold Index.bigintStep. rewrite Hs.
        destruct (BigInt rt _); eexists; reflexivity.
      * unfold Index.parseStep. rewrite Hs. simpl.
        destruct (JSON_parse rt text); eexists; reflexivity.
      * unfold Index.fallbackStep. rewrite Hs. eexists; reflexivity.
    + destruct (Part000.branch (Str.trim text)); try (eexists; reflexivity).
      * unfold Part000.quotedStep. cbv zeta. rewrite Hs. simpl.
        destruct (_ && _)%bool; [eexists; reflexivity|].
        destruct (JSON_parse rt _); eexists; reflexivity.
      * unfold Part000.quotedStep. cbv zeta. rewrite Hs. simpl.
        destruct (_ && _)%bool; [eexists; reflexivity|].
        destruct (JSON_parse rt _); eexists; reflexivity.
      * simpl. unfold Part000.bigintStep. rewrite Hs.
        destruct (BigInt rt _); eexists; reflexivity.
      * unfold Part000.parseStep. simpl. rewrite Hs, andb_false_r.
        destruct (JSON_parse rt _); eexists; reflexivity.
      * simpl. unfold Part000.fallbackStep. rewrite Hs. eexists; reflexivity.
  - intros rt text options Hs [e Hb He | e Hb He | Hb];
      rewrite Index_synapse_branch, Hb.
    + unfold Index.parseStep. rewrite Hs, He. reflexivity.
    + unfold Index.bigintStep. rewrite Hs, He. reflexivity.
    + unfold Index.fallbackStep. rewrite Hs. reflexivity.
  - intros rt text options Hs [e Hb He | e Hb He | e Hb He | Hb];
      rewrite Part000_synapse_branch, Hb.
    + unfold Part000.quotedStep. cbv zeta. rewrite Hs, He. simpl.
      unfold Part000.branch in Hb. cbv zeta in Hb.
      destruct (_ && _)%bool in Hb; [discriminate|].
      destruct (equals (Str.at_ (Str.trim text) 0) 34); [|
        destruct (Rx.test BIGINT_REGEX (Str.trim text)); [discriminate|];
        destruct (_ || _)%bool in Hb; discriminate].
      destruct (_ && _)%bool; [discriminate|]. reflexivity.
    + unfold Part000.parseStep. simpl. rewrite Hs, andb_false_r, He. reflexivity.
    + simpl. unfold Part000.bigintStep. rewrite Hs, He. reflexivity.
    + simpl. unfold Part000.fallbackStep. rewrite Hs. reflexivity.
Qed.

Lemma lenient_never_raises_witness :
  ((exists v, Index.synapse ecmascript (VString (lit " [1, 2")) defaultOptions = Return v)
   /\ (exists v,
         Part000.result (Part000.synapse ecmascript (VString (lit " [1, 2")) defaultOptions)
         = Return v))
  /\ Index.synapse ecmascript (VString (lit " [1, 2")) defaultOptions
     = Return (VString (lit " [1, 2"))
  /\ Part000.result (Part000.synapse ecmascript (VString (lit " [1, 2")) defaultOptions)
     = Return (VString (lit " [1, 2")).
Proof.
  split; [|split].
  - apply (proj1 lenient_never_raises ecmascript). reflexivity.
  - apply (proj1 (proj2 lenient_never_raises) ecmascript); [reflexivity|].
    apply (Index.unparseable ecmascript (lit " [1, 2") (e := NativeSyntaxError));
      vm_compute; reflexivity.
  - apply (proj2 (proj2 lenient_never_raises) ecmascript); [reflexivity|].
    apply (Part000.unparseable ecmascript (lit " [1, 2") (e := NativeSyntaxError));
      vm_compute; reflexivity.
Defined.

(** C4.  On ["null"] and ["undefined"] with the default options,
    index.ts finds [undefined] in the table, takes that for a miss and
    ends by returning the input string; part_000 returns [undefined]. *)
Theorem null_and_undefined_texts (rt : Runtime) :
  Index.synapse rt (VString (lit "null")) defaultOptions
    = Return (VString (lit "null"))
  /\ Index.synapse rt (VString (lit "undefined")) defaultOptions
    = Return (VString (lit "undefined"))
  /\ Part000.synapse rt (VString (lit "null")) defaultOptions
    = Part000.quiet (Return VUndefined)
  /\ Part000.synapse rt (VString (lit "undefined")) defaultOptions
    = Part000.quiet (Return VUndefined).
Proof. repeat split; vm_compute; reflexivity. Qed.

(** C5.  On ["NaN"], ["Infinity"] and ["-Infinity"] with the default
    options, index.ts returns the three numeric sentinels; part_000
    looks the lower-cased text up, misses the capitalised keys and
    returns the input string. *)
Theorem sentinel_texts (rt : Runtime) :
  Index.synapse rt (VString (lit "NaN")) defaultOptions = Return (VNumber NaN)
  /\ Index.synapse rt (VString (lit "Infinity")) defaultOptions
    = Return (VNumber PositiveInfinity)
  /\ Index.synapse rt (VString (lit "-Infinity")) defaultOptions
    = Return (VNumber NegativeInfinity)
  /\ Part000.synapse rt (VString (lit "NaN")) defaultOptions
    = Part000.quiet (Return (VString (lit "NaN")))
  /\ Part000.synapse rt (VString (lit "Infinity")) defaultOptions
    = Part000.quiet (Return (VString (lit "Infinity")))
  /\ Part000.synapse rt (VString (lit "-Infinity")) defaultOptions
    = Part000.quiet (Return (VString (lit "-Infinity"))).
Proof. repeat split; vm_compute; reflexivity. Qed.

(** C6.  part_000 decodes the escape in ["a\nb"]: the result has a line
    feed where the text between the quotes has a backslash and an [n]. *)
Lemma Part000_quoted_text_is_unescaped :
  Str.trim escapedNewlineText = 34%N :: lit "a\nb" ++ [34%N]
  /\ Part000.synapse ecmascript (VString escapedNewlineText) defaultOptions
     = Part000.quiet (Return (VString [97; 10; 98]%N))
  /\ VString [97; 10; 98]%N <> VString (lit "a\nb").
Proof. repeat split; try (vm_compute; reflexivity). discriminate. Qed.

(** C6, amended.  In index.ts a candidate that starts and ends with a
    quote gives the text between the two quotes as it stands, without a
    call of the parser.  In part_000 such a candidate, when more than two
    units long, is handed to the JSON parser: its value is returned, and
    when it is rejected the strict mode raises [Invalid JSON] and the
    lenient mode returns the input. *)
Theorem quoted_candidate (rt : Runtime) (text inner : jsstring) (options : Options) :
  Str.trim text = 34%N :: inner ++ [34%N] ->
  inner <> [] ->
  Index.synapse rt (VString text) options = Return (VString inner)
  /\ Part000.synapse rt (VString text) options =
     Part000.quiet
       (match JSON_parse rt (Str.trim text) with
        | Return v => Return v
        | Throw _ =>
            if isStrict options
            then Throw (SyntaxError (lit "[synapse] Invalid JSON"))
            else Return (VString text)
        end).
Proof.
  intros H Hne. destruct inner as [|c inner]; [congruence|]. split.
  - rewrite Index_synapse_branch, H, Index_branch_between_quotes.
    rewrite slice_inner. reflexivity.
  - rewrite Part000_synapse_branch, H, Part000_branch_between_quotes.
    unfold Part000.quotedStep. cbv zeta.
    assert (He : Str.endsWith (34%N :: (c :: inner) ++ [34%N]) [34%N] = true)
      by apply (endsWith_last (34%N :: c :: inner) 34).
    assert (Hl : (Str.length (34%N :: (c :: inner) ++ [34%N]) <? 2)%Z = false).
    { apply Z.ltb_ge. unfold Str.length. simpl. rewrite length_app. simpl. lia. }
    assert (Hl' : (Str.length (34%N :: (c :: inner) ++ [34%N]) =? 2)%Z = false).
    { apply Z.eqb_neq. unfold Str.length. simpl. rewrite length_app. simpl. lia. }
    rewrite He, Hl, Hl'.
    simpl negb. simpl orb. rewrite andb_false_r. simpl andb.
    unfold tryCatch. reflexivity.
Qed.

Lemma quoted_candidate_witness :
  Index.synapse ecmascript (VString escapedNewlineText) defaultOptions
    = Return (VString (lit "a\nb"))
  /\ Part000.synapse ecmascript (VString escapedNewlineText) defaultOptions =
     Part000.quiet
       (match JSON_parse ecmascript (Str.trim escapedNewlineText) with
        | Return v => Return v
        | Throw _ =>
            if isStrict defaultOptions
            then Throw (SyntaxError (lit "[synapse] Invalid JSON"))
            else Return (VString escapedNewlineText)
        end).
Proof.
  apply (@quoted_candidate ecmascript escapedNewlineText (lit "a\nb") defaultOptions).
  - vm_compute. reflexivity.
  - discriminate.
Defined.

(** C7.  Under the reference runtime the strict call on ["12x3n"] ends
    with the parser's own error, not with the bigint error: the text
    does not match the bigint pattern. *)
Lemma strict_12x3n_not_bigint_error :
  Index.safesynapse ecmascript (VString (lit "12x3n")) defaultOptions
    = Throw NativeSyntaxError
  /\ Part000.result (Part000.safesynapse ecmascript (VString (lit "12x3n")) defaultOptions)
    = Throw NativeSyntaxError
  /\ Throw NativeSyntaxError
    <> Throw (SyntaxError (lit "[synapse] Invalid BigInt: 12x3n")).
Proof. repeat split; try (vm_compute; reflexivity). discriminate. Qed.

(** C7, amended.  The text ["12x3n"] fails the bigint pattern and is
    taken by the structural JSON step; when the runtime's parser rejects
    it, the strict call raises the parser's error, in both files. *)
Theorem strict_12x3n_parser_error (rt : Runtime) (options : Options) (e : exn) :
  JSON_parse rt (lit "12x3n") = Throw e ->
  Rx.test BIGINT_REGEX (lit "12x3n") = false
  /\ Index.branch (Str.trim (lit "12x3n")) = StructuralJSON
  /\ Part000.branch (Str.trim (lit "12x3n")) = StructuralJSON
  /\ Index.safesynapse rt (VString (lit "12x3n")) options = Throw e
  /\ Part000.safesynapse rt (VString (lit "12x3n")) options
     = Part000.quiet (Throw e).
Proof.
  intros H.
  assert (Hi : Index.branch (Str.trim (lit "12x3n")) = StructuralJSON)
    by (vm_compute; reflexivity).
  assert (Hp : Part000.branch (Str.trim (lit "12x3n")) = StructuralJSON)
    by (vm_compute; reflexivity).
  assert (Ht : Str.trim (lit "12x3n") = lit "12x3n") by (vm_compute; reflexivity).
  split; [vm_compute; reflexivity|]. split; [exact Hi|]. split; [exact Hp|]. split.
  - unfold Index.safesynapse. rewrite Index_synapse_branch, Hi.
    unfold Index.parseStep.
    replace (Rx.test suspectProtoRx (lit "12x3n")) with false by (vm_compute; reflexivity).
    replace (Rx.test suspectConstructorRx (lit "12x3n")) with false
      by (vm_compute; reflexivity).
    rewrite andb_false_r, H. reflexivity.
  - unfold Part000.safesynapse. rewrite Part000_synapse_branch, Hp, Ht.
    unfold Part000.parseStep, Part000.quiet.
    replace (Part000.checkPrototypePollution (lit "12x3n")) with false
      by (vm_compute; reflexivity).
    rewrite H. reflexivity.
Qed.

Lemma strict_12x3n_parser_error_witness :
  Rx.test BIGINT_REGEX (lit "12x3n") = false
  /\ Index.branch (Str.trim (lit "12x3n")) = StructuralJSON
  /\ Part000.branch (Str.trim (lit "12x3n")) = StructuralJSON
  /\ Index.safesynapse ecmascript (VString (lit "12x3n")) defaultOptions
     = Throw NativeSyntaxError
  /\ Part000.safesynapse ecmascript (VString (lit "12x3n")) defaultOptions
     = Part000.quiet (Throw NativeSyntaxError).
Proof.
  apply (@strict_12x3n_parser_error ecmascript defaultOptions NativeSyntaxError).
  vm_compute. reflexivity.
Defined.

(** C8.  An input that is not a string comes back as it is, whatever the
    options and whatever the runtime, from both files; part_000 writes
    no warning on the way. *)
Theorem non_string_identity (rt : Runtime) (v : JSValue) (options : Options) :
  typeof v <> "string"%string ->
  Index.synapse rt v options = Return v
  /\ Part000.synapse rt v options = Part000.quiet (Return v).
Proof.
  intros H. destruct v; try (split; reflexivity).
  exfalso; apply H; reflexivity.
Qed.

Lemma non_string_identity_witness :
  Index.synapse ecmascript (VArray [int 1; VNull]) {| strict := Some true |}
    = Return (VArray [int 1; VNull])
  /\ Part000.synapse ecmascript (VArray [int 1; VNull]) {| strict := Some true |}
    = Part000.quiet (Return (VArray [int 1; VNull])).
Proof.
  apply (non_string_identity ecmascript (VArray [int 1; VNull]) {| strict := Some true |}).
  simpl. discriminate.
Defined.

(** C9.  The walk of part_000 keeps every key other than [__proto__],
    with its cleaned value.  On the example with a [constructor] key
    the detection patterns match (a warning is written, and the strict
    call raises), and the lenient call returns the object with its
    [constructor] property. *)
Theorem cleanObject_keeps_other_keys :
  (forall (props : Obj.props) (key : jsstring),
      key <> lit "__proto__" ->
      Obj.has props key = true ->
      exists kept,
        Part000.cleanObject (VObject props) = VObject kept
        /\ Obj.has kept key = true
        /\ Obj.get kept key = Part000.cleanObject (Obj.get props key))
  /\ Part000.checkPrototypePollution constructorText = true
  /\ Part000.synapse ecmascript (VString constructorText) defaultOptions
     = {| Part000.console := [pollutionMessage];
          Part000.result :=
            Return (VObject [(lit "constructor", VObject [(lit "x", int 1)])]) |}
  /\ Part000.result
       (Part000.safesynapse ecmascript (VString constructorText) defaultOptions)
     = Throw (Error pollutionMessage).
Proof.
  split; [|repeat split; vm_compute; reflexivity].
  intros props key Hkey Hhas.
  exists (fold_left (Part000.cleanLoop (Part000.cleanValues props)) (Obj.keys props) []).
  split; [apply cleanObject_object|].
  rewrite <- (get_cleanValues props key Hhas).
  apply cleanLoop_keeps.
  - apply Str_eqb_neq; exact Hkey.
  - left. apply Obj_has_In; exact Hhas.
Qed.

Lemma cleanObject_keeps_other_keys_witness :
  exists kept,
    Part000.cleanObject (VObject [(lit "constructor", VObject [(lit "x", int 1)])])
      = VObject kept
    /\ Obj.has kept (lit "constructor") = true
    /\ Obj.get kept (lit "constructor")
       = Part000.cleanObject
           (Obj.get [(lit "constructor", VObject [(lit "x", int 1)])] (lit "constructor")).
Proof.
  apply (proj1 cleanObject_keeps_other_keys
           [(lit "constructor", VObject [(lit "x", int 1)])] (lit "constructor")).
  - vm_compute. discriminate.
  - vm_compute. reflexivity.
Defined.

(** C10.  In index.ts a candidate of exactly two code units whose first
    is a quote gives the empty string, whatever the second unit, the
    options and the runtime; so does the strict entry point. *)
Theorem Index_quote_and_one_unit (rt : Runtime) (text : jsstring) (c : N)
    (options : Options) :
  Str.trim text = [34%N; c] ->
  Index.synapse rt (VString text) options = Return (VString [])
  /\ Index.safesynapse rt (VString text) options = Return (VString []).
Proof.
  intros H. unfold Index.safesynapse.
  rewrite !Index_synapse_branch, H. split; reflexivity.
Qed.

Lemma Index_quote_and_one_unit_witness :
  Index.synapse ecmascript (VString (quoted "'a")) defaultOptions = Return (VString [])
  /\ Index.safesynapse ecmascript (VString (quoted "'a")) defaultOptions
    = Return (VString []).
Proof.
  apply (@Index_quote_and_one_unit ecmascript (quoted "'a") 97%N defaultOptions).
  reflexivity.
Defined.

(* ================================================================== *)
(** * Further properties of the two files *)
(* ================================================================== *)

(** X1.  On a value whose objects list their keys in the runtime's
    order, [cleanObject] returns the same value without the properties
    named [__proto__]: every other property keeps its place, arrays keep
    their length and order, and the result is again well formed. *)
Theorem cleanObject_is_strip (v : JSValue) :
  wellFormed v = true ->
  Part000.cleanObject v = strip v
  /\ wellFormed (Part000.cleanObject v) = true.
Proof.
  intros H. rewrite (cleanObject_strip v H). split; [reflexivity|].
  apply wellFormed_strip; exact H.
Qed.

Lemma cleanObject_is_strip_witness :
  Part000.cleanObject
    (VObject [ (lit "7", VNull);
               (lit "__proto__", VObject [(lit "polluted", VBool true)]);
               (lit "a", VArray [VObject [(lit "__proto__", int 1); (lit "b", int 2)]]) ])
  = strip
      (VObject [ (lit "7", VNull);
                 (lit "__proto__", VObject [(lit "polluted", VBool true)]);
                 (lit "a", VArray [VObject [(lit "__proto__", int 1); (lit "b", int 2)]]) ])
  /\ wellFormed
       (Part000.cleanObject
          (VObject [ (lit "7", VNull);
                     (lit "__proto__", VObject [(lit "polluted", VBool true)]);
                     (lit "a", VArray [VObject [(lit "__proto__", int 1);
                                                (lit "b", int 2)]]) ])) = true.
Proof.
  apply (@cleanObject_is_strip
           (VObject [ (lit "7", VNull);
                      (lit "__proto__", VObject [(lit "polluted", VBool true)]);
                      (lit "a", VArray [VObject [(lit "__proto__", int 1);
                                                 (lit "b", int 2)]]) ])).
  vm_compute. reflexivity.
Defined.

(** X2.  [cleanObject] leaves harmless data alone: a well-formed value
    with no key [__proto__] at any depth comes back unchanged. *)
Theorem cleanObject_keeps_clean_values (v : JSValue) :
  wellFormed v = true ->
  hasKeyDeep (lit "__proto__") v = false ->
  Part000.cleanObject v = v.
Proof.
  intros Hw Hk. rewrite (cleanObject_strip v Hw). apply strip_fixed. exact Hk.
Qed.

Lemma cleanObject_keeps_clean_values_witness :
  Part000.cleanObject
    (VObject [ (lit "0", VArray [int 1; VNull]); (lit "constructor", VObject []);
               (lit "proto", VString (lit "__proto__")) ])
  = VObject [ (lit "0", VArray [int 1; VNull]); (lit "constructor", VObject []);
              (lit "proto", VString (lit "__proto__")) ].
Proof.
  apply (@cleanObject_keeps_clean_values
           (VObject [ (lit "0", VArray [int 1; VNull]); (lit "constructor", VObject []);
                      (lit "proto", VString (lit "__proto__")) ]));
    vm_compute; reflexivity.
Defined.

(** X3.  [cleanObject] is idempotent on well-formed values: cleaning a
    cleaned value changes nothing. *)
Theorem cleanObject_idempotent (v : JSValue) :
  wellFormed v = true ->
  Part000.cleanObject (Part000.cleanObject v) = Part000.cleanObject v.
Proof.
  intros Hw. rewrite (cleanObject_strip v Hw).
  rewrite (cleanObject_strip (strip v) (wellFormed_strip v Hw)).
  apply strip_fixed, strip_stripped.
Qed.

Lemma cleanObject_idempotent_witness :
  Part000.cleanObject
    (Part000.cleanObject
       (VArray [VObject [(lit "__proto__", VObject [(lit "a", int 1)]); (lit "b", VNull)]]))
  = Part000.cleanObject
      (VArray [VObject [(lit "__proto__", VObject [(lit "a", int 1)]); (lit "b", VNull)]]).
Proof.
  apply (@cleanObject_idempotent
           (VArray [VObject [(lit "__proto__", VObject [(lit "a", int 1)]);
                             (lit "b", VNull)]])).
  vm_compute. reflexivity.
Defined.

(** X4.  [checkPrototypePollution] holds of a text exactly when the text
    contains, between quotes and followed by optional white space and a
    colon, a spelling of [__proto__] or of [constructor], each character
    as it stands or as its [\uXXXX] escape: it flags nothing else. *)
Theorem checkPrototypePollution_exact (text : jsstring) :
  Part000.checkPrototypePollution text = true
  <-> containsKey (lit "__proto__") text \/ containsKey (lit "constructor") text.
Proof.
  unfold Part000.checkPrototypePollution. rewrite orb_true_iff. split.
  - intros [H | H]; [left; apply suspectProtoRx_only | right; apply suspectConstructorRx_only];
      exact H.
  - intros [H | H]; [left; apply suspectProtoRx_finds | right; apply suspectConstructorRx_finds];
      exact H.
Qed.

Lemma checkPrototypePollution_exact_witness :
  containsKey (lit "__proto__") protoText \/ containsKey (lit "constructor") protoText.
Proof.
  apply (proj1 (checkPrototypePollution_exact protoText)). vm_compute. reflexivity.
Defined.

(** X5.  part_000 writes at most one warning, always the same line, and
    writes it exactly when the input is a string that goes to the
    structural JSON step and contains one of the two keys; the mode
    plays no part. *)
Theorem Part000_warning (rt : Runtime) (value : JSValue) (options : Options) :
  (Part000.console (Part000.synapse rt value options) = []
   \/ Part000.console (Part000.synapse rt value options) = [pollutionMessage])
  /\ (Part000.console (Part000.synapse rt value options) = [pollutionMessage]
      <-> exists text,
            value = VString text
            /\ Part000.branch (Str.trim text) = StructuralJSON
            /\ (containsKey (lit "__proto__") text
                \/ containsKey (lit "constructor") text)).
Proof.
  assert (Hno : forall c, Part000.console (Part000.quiet c) = []) by reflexivity.
  destruct value as [ | | b | n | z | text | r | r | items | props];
    try (split; [left; reflexivity|];
         split; [discriminate | intros [t [E _]]; discriminate E]).
  rewrite Part000_synapse_branch.
  assert (Hc : forall t, (containsKey (lit "__proto__") t
                          \/ containsKey (lit "constructor") t)
                         <-> Part000.checkPrototypePollution (Str.trim t) = true).
  { intros t. rewrite checkPrototypePollution_trim, orb_true_iff. split.
    - intros [H | H]; [left; apply suspectProtoRx_finds
                      | right; apply suspectConstructorRx_finds]; exact H.
    - intros [H | H]; [left; apply suspectProtoRx_only
                      | right; apply suspectConstructorRx_only]; exact H. }
  destruct (Part000.branch (Str.trim text)) eqn:Hb;
    try (rewrite Hno; split; [left; reflexivity|];
         split; [discriminate | intros [t [E [Hb' _]]]; injection E as <-; congruence]).
  unfold Part000.parseStep. simpl Part000.console.
  destruct (Part000.checkPrototypePollution (Str.trim text)) eqn:E.
  - split; [right; reflexivity|]. split; [|reflexivity].
    intros _. exists text. split; [reflexivity|]. split; [exact Hb|].
    apply Hc. exact E.
  - split; [left; reflexivity|]. split; [discriminate|].
    intros [t [Et [_ Hk]]]. injection Et as <-. apply Hc in Hk. congruence.
Qed.

(** X6.  What a call can raise.  Only a strict call raises, and what it
    raises is one of the three errors the source constructs or the error
    the runtime's parser raised on the text it was handed (the input as
    given in index.ts, the trimmed input in part_000). *)
Theorem thrown_errors :
  (forall (rt : Runtime) (value : JSValue) (options : Options) (e : exn),
      Index.synapse rt value options = Throw e ->
      isStrict options = true
      /\ exists text,
           value = VString text
           /\ (e = SyntaxError (lit "[synapse] Invalid JSON")
               \/ e = SyntaxError (lit "[synapse] Invalid BigInt: " ++ Str.trim text)
               \/ e = Error pollutionMessage
               \/ JSON_parse rt text = Throw e))
  /\ (forall (rt : Runtime) (value : JSValue) (options : Options) (e : exn),
      Part000.result (Part000.synapse rt value options) = Throw e ->
      isStrict options = true
      /\ exists text,
           value = VString text
           /\ (e = SyntaxError (lit "[synapse] Invalid JSON")
               \/ e = SyntaxError (lit "[synapse] Invalid BigInt: " ++ Str.trim text)
               \/ e = Error pollutionMessage
               \/ JSON_parse rt (Str.trim text) = Throw e)).
Proof.
  split.
  - intros rt value options e H.
    destruct value as [ | | b | n | z | text | r | r | items | props];
      try discriminate.
    rewrite Index_synapse_branch in H.
    destruct (Index.branch (Str.trim text)); try discriminate.
    + unfold Index.bigintStep, tryCatch in H.
      destruct (BigInt rt _); [discriminate|].
      destruct (isStrict options); [|discriminate].
      injection H as <-. split; [reflexivity|]. exists text. auto.
    + unfold Index.parseStep, tryCatch in H.
      destruct (isStrict options); simpl in H.
      * split; [reflexivity|]. exists text. split; [reflexivity|].
        destruct (_ || _)%bool.
        -- injection H as <-. auto.
        -- destruct (JSON_parse rt text) eqn:E; [discriminate|].
           injection H as <-. auto.
      * destruct (JSON_parse rt text); discriminate.
    + unfold Index.fallbackStep in H.
      destruct (isStrict options); [|discriminate].
      injection H as <-. split; [reflexivity|]. exists text. auto.
  - intros rt value options e H.
    destruct value as [ | | b | n | z | text | r | r | items | props];
      try discriminate.
    rewrite Part000_synapse_branch in H.
    assert (Hq : Part000.quotedStep rt (VString text) (Str.trim text) options = Throw e ->
                 isStrict options = true
                 /\ e = SyntaxError (lit "[synapse] Invalid JSON")).
    { unfold Part000.quotedStep, tryCatch. cbv zeta.
      destruct (isStrict options); simpl.
      - destruct (_ || _)%bool; [intros E; injection E as <-; auto|].
        destruct (_ && _)%bool; [discriminate|].
        destruct (JSON_parse rt _); [discriminate|].
        intros E; injection E as <-; auto.
      - destruct (_ && _)%bool; [discriminate|].
        destruct (JSON_parse rt _); discriminate. }
    destruct (Part000.branch (Str.trim text)); simpl in H; try discriminate.
    + destruct (Hq H) as [Hs ->]. split; [exact Hs|]. exists text. auto.
    + destruct (Hq H) as [Hs ->]. split; [exact Hs|]. exists text. auto.
    + unfold Part000.bigintStep, tryCatch in H.
      destruct (BigInt rt _); [discriminate|].
      destruct (isStrict options); [|discriminate].
      injection H as <-. split; [reflexivity|]. exists text. auto.
    + unfold tryCatch in H. destruct (isStrict options).
      * split; [reflexivity|]. exists text. split; [reflexivity|].
        rewrite andb_true_r in H.
        destruct (Part000.checkPrototypePollution _).
        -- injection H as <-. auto.
        -- destruct (JSON_parse rt (Str.trim text)) eqn:E; [discriminate|].
           injection H as <-. auto.
      * rewrite andb_false_r in H.
        destruct (JSON_parse rt (Str.trim text)); discriminate.
    + unfold Part000.fallbackStep in H.
      destruct (isStrict options); [|discriminate].
      injection H as <-. split; [reflexivity|]. exists text. auto.
Qed.

Lemma thrown_errors_witness :
  isStrict {| strict := Some true |} = true
  /\ exists text,
       VString (lit "12x3n") = VString text
       /\ (NativeSyntaxError = SyntaxError (lit "[synapse] Invalid JSON")
           \/ NativeSyntaxError
              = SyntaxError (lit "[synapse] Invalid BigInt: " ++ Str.trim text)
           \/ NativeSyntaxError = Error pollutionMessage
           \/ JSON_parse ecmascript text = Throw NativeSyntaxError).
Proof.
  apply (proj1 thrown_errors ecmascript (VString (lit "12x3n"))
           {| strict := Some true |} NativeSyntaxError).
  vm_compute. reflexivity.
Defined.

(** X7.  Strict mode only turns returns into errors: whenever the strict
    entry point returns a value, the lenient call returns the same value
    (and, in part_000, writes the same warnings). *)
Theorem strict_return_is_lenient_return :
  (forall (rt : Runtime) (value : JSValue) (options lenient : Options) (r : JSValue),
      isStrict lenient = false ->
      Index.safesynapse rt value options = Return r ->
      Index.synapse rt value lenient = Return r)
  /\ (forall (rt : Runtime) (value : JSValue) (options lenient : Options) (r : JSValue),
      isStrict lenient = false ->
      Part000.result (Part000.safesynapse rt value options) = Return r ->
      Part000.synapse rt value lenient = Part000.safesynapse rt value options).
Proof.
  split.
  - intros rt value options lenient r Hl. unfold Index.safesynapse.
    destruct value as [ | | b | n | z | text | r0 | r0 | items | props];
      try (intros H; exact H).
    rewrite !Index_synapse_branch.
    destruct (Index.branch (Str.trim text)); try (intros H; exact H).
    + unfold Index.bigintStep, tryCatch.
      destruct (BigInt rt _); [intros H; exact H | discriminate].
    + unfold Index.parseStep, tryCatch. rewrite Hl. simpl.
      destruct (_ || _)%bool; [discriminate|].
      destruct (JSON_parse rt text); [intros H; exact H | discriminate].
    + unfold Index.fallbackStep. simpl. discriminate.
  - intros rt value options lenient r Hl. unfold Part000.safesynapse.
    destruct value as [ | | b | n | z | text | r0 | r0 | items | props];
      try reflexivity.
    rewrite !Part000_synapse_branch.
    assert (Hq : Part000.quotedStep rt (VString text) (Str.trim text)
                   {| strict := Some true |} = Return r ->
                 Part000.quotedStep rt (VString text) (Str.trim text) lenient
                 = Part000.quotedStep rt (VString text) (Str.trim text)
                     {| strict := Some true |}).
    { unfold Part000.quotedStep, tryCatch. cbv zeta. rewrite Hl. simpl.
      destruct (_ || _)%bool; [discriminate|].
      destruct (_ && _)%bool; [reflexivity|].
      destruct (JSON_parse rt _); [reflexivity | discriminate]. }
    destruct (Part000.branch (Str.trim text)); simpl; try reflexivity.
    + intros H. rewrite (Hq H). reflexivity.
    + intros H. rewrite (Hq H). reflexivity.
    + unfold Part000.bigintStep, tryCatch.
      destruct (BigInt rt _); [reflexivity | discriminate].
    + unfold Part000.parseStep, tryCatch. rewrite Hl. simpl.
      rewrite andb_true_r, andb_false_r.
      destruct (Part000.checkPrototypePollution _); [discriminate|].
      destruct (JSON_parse rt _); [reflexivity | discriminate].
    + unfold Part000.fallbackStep. simpl. discriminate.
Qed.

Lemma strict_return_is_lenient_return_witness :
  Index.synapse ecmascript (VString (lit " [1,2,3] ")) defaultOptions
    = Return (VArray [int 1; int 2; int 3])
  /\ Part000.synapse ecmascript (VString (lit " [1,2,3] ")) defaultOptions
     = Part000.safesynapse ecmascript (VString (lit " [1,2,3] ")) defaultOptions.
Proof.
  split.
  - apply (proj1 strict_return_is_lenient_return ecmascript _ defaultOptions);
      vm_compute; reflexivity.
  - apply (proj2 strict_return_is_lenient_return ecmascript _ defaultOptions
             defaultOptions (VArray [int 1; int 2; int 3]));
      vm_compute; reflexivity.
Defined.

(** X8.  part_000 looks at the trimmed input only.  A strict call gives
    the same outcome on a text and on its trimmed form; so does a
    lenient call, unless it ends on a failure path (where each call
    returns the string it was given). *)
Theorem Part000_result_of_trimmed :
  (forall (rt : Runtime) (text : jsstring) (options : Options),
      isStrict options = true ->
      Part000.synapse rt (VString text) options
      = Part000.synapse rt (VString (Str.trim text)) options)
  /\ (forall (rt : Runtime) (text : jsstring) (options : Options),
      isStrict options = false ->
      Part000.failure rt text
      \/ Part000.synapse rt (VString text) options
         = Part000.synapse rt (VString (Str.trim text)) options).
Proof.
  split.
  - intros rt text options Hs.
    rewrite !Part000_synapse_branch, !trim_idempotent.
    destruct (Part000.branch (Str.trim text)); try reflexivity.
    + unfold Part000.quotedStep. cbv zeta. rewrite Hs. reflexivity.
    + unfold Part000.quotedStep. cbv zeta. rewrite Hs. reflexivity.
    + unfold Part000.bigintStep. rewrite Hs. reflexivity.
    + unfold Part000.parseStep. rewrite Hs. reflexivity.
    + unfold Part000.fallbackStep. rewrite Hs. reflexivity.
  - intros rt text options Hs.
    rewrite !Part000_synapse_branch, !trim_idempotent.
    destruct (Part000.branch (Str.trim text)) eqn:Hb.
    + right; reflexivity.
    + right. unfold Part000.quotedStep. cbv zeta. rewrite Hs. simpl.
      destruct (Part000_branch_EmptyQuoted _ Hb) as [-> _]. reflexivity.
    + unfold Part000.quotedStep. cbv zeta. rewrite Hs. simpl.
      rewrite (Part000_branch_QuotedLiteral _ Hb).
      destruct (JSON_parse rt (Str.trim text)) eqn:E; [right; reflexivity|].
      left. exact (Part000.unparseableQuoted rt text Hb E).
    + unfold Part000.bigintStep.
      destruct (BigInt rt _) eqn:E; [right; reflexivity|].
      left. exact (Part000.rejectedBigint rt text Hb E).
    + unfold Part000.parseStep. rewrite Hs, andb_false_r.
      destruct (JSON_parse rt (Str.trim text)) eqn:E; [right; reflexivity|].
      left. exact (Part000.unparseable rt text Hb E).
    + left. exact (Part000.noMatch rt text Hb).
Qed.

Lemma Part000_result_of_trimmed_witness :
  Part000.synapse ecmascript (VString (quoted "  {'a' : 1} ")) {| strict := Some true |}
  = Part000.synapse ecmascript (VString (Str.trim (quoted "  {'a' : 1} ")))
      {| strict := Some true |}.
Proof.
  apply (proj1 Part000_result_of_trimmed ecmascript). reflexivity.
Defined.

(** X9.  index.ts looks at the trimmed input only until the structural
    JSON step, where the parser and the patterns are handed the input as
    given.  Outside that step a strict call gives the same result on a
    text and on its trimmed form, and so does a lenient call unless it
    ends on a failure path. *)
Theorem Index_result_of_trimmed :
  (forall (rt : Runtime) (text : jsstring) (options : Options),
      isStrict options = true ->
      Index.branch (Str.trim text) <> StructuralJSON ->
      Index.synapse rt (VString text) options
      = Index.synapse rt (VString (Str.trim text)) options)
  /\ (forall (rt : Runtime) (text : jsstring) (options : Options),
      isStrict options = false ->
      Index.branch (Str.trim text) <> StructuralJSON ->
      Index.failure rt text
      \/ Index.synapse rt (VString text) options
         = Index.synapse rt (VString (Str.trim text)) options).
Proof.
  split.
  - intros rt text options Hs Hn.
    rewrite !Index_synapse_branch, !trim_idempotent.
    destruct (Index.branch (Str.trim text)); try reflexivity.
    + unfold Index.bigintStep. rewrite Hs. reflexivity.
    + congruence.
    + unfold Index.fallbackStep. rewrite Hs. reflexivity.
  - intros rt text options Hs Hn.
    rewrite !Index_synapse_branch, !trim_idempotent.
    destruct (Index.branch (Str.trim text)) eqn:Hb; try (right; reflexivity).
    + unfold Index.bigintStep.
      destruct (BigInt rt _) eqn:E; [right; reflexivity|].
      left. exact (Index.rejectedBigint rt text Hb E).
    + congruence.
    + left. exact (Index.noMatch rt text Hb).
Qed.

Lemma Index_result_of_trimmed_witness :
  Index.synapse ecmascript (VString (lit "  -12N ")) {| strict := Some true |}
  = Index.synapse ecmascript (VString (Str.trim (lit "  -12N "))) {| strict := Some true |}.
Proof.
  apply (proj1 Index_result_of_trimmed ecmascript); [reflexivity|].
  vm_compute. discriminate.
Defined.

(** X10.  part_000 reads the words [true], [false], [null] and
    [undefined] in any capitalisation and with any white space around
    them, in both modes and without a call of the runtime. *)
Theorem Part000_literal_any_case (rt : Runtime) (text : jsstring) (options : Options)
    (v : JSValue) :
  In (Str.toLowerCase (Str.trim text), v)
     [ (lit "true", VBool true); (lit "false", VBool false);
       (lit "null", VUndefined); (lit "undefined", VUndefined) ] ->
  Part000.synapse rt (VString text) options = Part000.quiet (Return v).
Proof.
  intros H. rewrite Part000_synapse_branch.
  assert (Hlen : Str.length (Str.trim text)
                 = Z.of_nat (List.length (Str.toLowerCase (Str.trim text)))).
  { unfold Str.length, Str.toLowerCase. rewrite length_map. reflexivity. }
  unfold Part000.branch. cbv zeta. rewrite Hlen.
  simpl in H.
  destruct H as [H | [H | [H | [H | []]]]]; injection H as <- <-; reflexivity.
Qed.

Lemma Part000_literal_any_case_witness :
  Part000.synapse ecmascript (VString (lit "  TrUe ")) {| strict := Some true |}
  = Part000.quiet (Return (VBool true)).
Proof.
  apply (@Part000_literal_any_case ecmascript (lit "  TrUe ") {| strict := Some true |}).
  left. reflexivity.
Defined.

(** X11.  index.ts returns, for a text whose trimmed form is one of the
    keys of the table as it is spelled there, the value of that key when
    it is not [undefined]: the two booleans and the three numeric
    sentinels, with any white space around, in both modes. *)
Theorem Index_literal (rt : Runtime) (text : jsstring) (options : Options)
    (v : JSValue) :
  In (Str.trim text, v) KNOWN_VALUES ->
  isDefined v = true ->
  Index.synapse rt (VString text) options = Return v.
Proof.
  intros H Hv. rewrite Index_synapse_branch. unfold KNOWN_VALUES in H. simpl in H.
  destruct H as [H | [H | [H | [H | [H | [H | [H | []]]]]]]];
    injection H as E <-; try discriminate; rewrite <- E; reflexivity.
Qed.

Lemma Index_literal_witness :
  Index.synapse ecmascript (VString (lit " -Infinity  ")) {| strict := Some true |}
  = Return (VNumber NegativeInfinity).
Proof.
  apply (@Index_literal ecmascript (lit " -Infinity  ") {| strict := Some true |}).
  - vm_compute. tauto.
  - reflexivity.
Defined.

(** X12.  An input that is empty or all white space is taken by no
    step: in both files the lenient call returns it as it is and the
    strict call raises [Invalid JSON], without a call of the runtime. *)
Theorem white_input (rt : Runtime) (text : jsstring) (options : Options) :
  forallb Str.isWhiteSpace text = true ->
  Index.synapse rt (VString text) options
  = (if isStrict options then Throw (SyntaxError (lit "[synapse] Invalid JSON"))
     else Return (VString text))
  /\ Part000.synapse rt (VString text) options
     = Part000.quiet
         (if isStrict options then Throw (SyntaxError (lit "[synapse] Invalid JSON"))
          else Return (VString text)).
Proof.
  intros H. rewrite Index_synapse_branch, Part000_synapse_branch, (trim_white _ H).
  split; reflexivity.
Qed.

Lemma white_input_witness :
  Index.synapse ecmascript (VString [32; 9; 160; 10]%N) defaultOptions
  = (if isStrict defaultOptions
     then Throw (SyntaxError (lit "[synapse] Invalid JSON"))
     else Return (VString [32; 9; 160; 10]%N))
  /\ Part000.synapse ecmascript (VString [32; 9; 160; 10]%N) defaultOptions
     = Part000.quiet
         (if isStrict defaultOptions
          then Throw (SyntaxError (lit "[synapse] Invalid JSON"))
          else Return (VString [32; 9; 160; 10]%N)).
Proof.
  apply (@white_input ecmascript [32; 9; 160; 10]%N defaultOptions). reflexivity.
Defined.

(** X13.  Under the reference runtime, a text whose trimmed form is an
    optional minus, one decimal digit or more and the letter [n] or [N]
    gives the integer those digits spell, with its sign, in both files
    and both modes. *)
Theorem bigint_literal (text : jsstring) (negative : bool) (d : N) (ds : jsstring)
    (n : N) (options : Options) :
  Str.trim text = (if negative then [45%N] else []) ++ d :: ds ++ [n] ->
  forallb Obj.isDigit (d :: ds) = true ->
  n = 110%N \/ n = 78%N ->
  Index.synapse ecmascript (VString text) options
  = Return (VBigInt (if negative then (- Z.of_N (Obj.decimal (d :: ds)))%Z
                     else Z.of_N (Obj.decimal (d :: ds))))
  /\ Part000.synapse ecmascript (VString text) options
     = Part000.quiet
         (Return (VBigInt (if negative then (- Z.of_N (Obj.decimal (d :: ds)))%Z
                           else Z.of_N (Obj.decimal (d :: ds))))).
Proof.
  intros Ht Hd Hn.
  destruct (@branch_bigint negative d ds n Hd Hn) as [Hi Hp].
  assert (Hs : Str.slice (Str.trim text) 0 (-1)
               = (if negative then [45%N] else []) ++ d :: ds).
  { rewrite Ht.
    replace ((if negative then [45%N] else []) ++ d :: ds ++ [n])
      with (((if negative then [45%N] else []) ++ d :: ds) ++ [n])
      by (rewrite <- app_assoc; reflexivity).
    apply slice_without_last. }
  rewrite Index_synapse_branch, Part000_synapse_branch, Ht, Hi, Hp, <- Ht.
  unfold Index.bigintStep, Part000.bigintStep. rewrite Hs. simpl BigInt.
  unfold Ecma.BigInt. rewrite (@StringToBigInt_digits negative d ds Hd).
  split; reflexivity.
Qed.

Lemma bigint_literal_witness :
  Index.synapse ecmascript (VString (lit " -0042N ")) {| strict := Some true |}
  = Return (VBigInt (- Z.of_N (Obj.decimal (lit "0042")))%Z)
  /\ Part000.synapse ecmascript (VString (lit " -0042N ")) {| strict := Some true |}
     = Part000.quiet (Return (VBigInt (- Z.of_N (Obj.decimal (lit "0042")))%Z)).
Proof.
  apply (@bigint_literal (lit " -0042N ") true 48%N (lit "042") 78%N
           {| strict := Some true |}).
  - reflexivity.
  - reflexivity.
  - right. reflexivity.
Defined.

(** X14.  With the reference [JSON.parse], what part_000 returns for a
    structural candidate it does not refuse is the parsed value without
    its properties named [__proto__], every other property and array
    item in the place the parser gave it. *)
Theorem Part000_structure_of_reference_parse
    (text : jsstring) (options : Options) (parsed : JSValue) :
  Part000.branch (Str.trim text) = StructuralJSON ->
  JSON.parse (Str.trim text) = Return parsed ->
  Part000.checkPrototypePollution (Str.trim text) && isStrict options = false ->
  Part000.result (Part000.synapse ecmascript (VString text) options)
  = Return (strip parsed)
  /\ wellFormed (strip parsed) = true.
Proof.
  intros Hb Hp Hs. assert (Hw := JSON_parse_wellFormed _ Hp). split.
  - rewrite (@Part000_synapse_branch ecmascript text options), Hb.
    unfold Part000.parseStep. cbn [Part000.result JSON_parse ecmascript].
    rewrite Hs, Hp. cbn [tryCatch]. rewrite (cleanObject_strip parsed Hw).
    reflexivity.
  - apply wellFormed_strip. exact Hw.
Qed.

Lemma Part000_structure_of_reference_parse_witness :
  Part000.result
    (Part000.synapse ecmascript
       (VString (quoted " { 'b': [ { '__proto__': 1, '2': null } ], '__proto__': {}, '10': true, '9': 's' } "))
       defaultOptions)
  = Return (strip (VObject [ (lit "9", VString (lit "s")); (lit "10", VBool true);
                             (lit "b", VArray [VObject [ (lit "2", VNull);
                                                         (lit "__proto__", int 1) ]]);
                             (lit "__proto__", VObject []) ]))
  /\ wellFormed
       (strip (VObject [ (lit "9", VString (lit "s")); (lit "10", VBool true);
                         (lit "b", VArray [VObject [ (lit "2", VNull);
                                                     (lit "__proto__", int 1) ]]);
                         (lit "__proto__", VObject []) ])) = true.
Proof.
  apply (@Part000_structure_of_reference_parse
           (quoted " { 'b': [ { '__proto__': 1, '2': null } ], '__proto__': {}, '10': true, '9': 's' } ")
           defaultOptions
           (VObject [ (lit "9", VString (lit "s")); (lit "10", VBool true);
                      (lit "b", VArray [VObject [ (lit "2", VNull);
                                                  (lit "__proto__", int 1) ]]);
                      (lit "__proto__", VObject []) ])).
  - vm_compute. reflexivity.
  - vm_compute. reflexivity.
  - vm_compute. reflexivity.
Defined.

(** X15.  The two files agree on a text that opens with a bracket or a
    brace, has no white space around it, and whose parse by the
    reference [JSON.parse], if there is one, holds no key [__proto__]:
    same value, same error, in either mode. *)
Theorem structure_same_in_both_files (c : N) (rest : jsstring) (options : Options) :
  c = 91%N \/ c = 123%N ->
  Str.trim (c :: rest) = c :: rest ->
  (forall parsed : JSValue,
      JSON.parse (c :: rest) = Return parsed ->
      hasKeyDeep (lit "__proto__") parsed = false) ->
  Part000.result (Part000.synapse ecmascript (VString (c :: rest)) options)
  = Index.synapse ecmascript (VString (c :: rest)) options.
Proof.
  intros Hc Ht Hk. destruct (branch_opening rest Hc) as [Hi Hp].
  rewrite (@Part000_synapse_branch ecmascript (c :: rest) options),
          (@Index_synapse_branch ecmascript (c :: rest) options), Ht, Hi, Hp.
  unfold Part000.parseStep, Index.parseStep, Part000.checkPrototypePollution.
  cbn [Part000.result JSON_parse ecmascript].
  rewrite (andb_comm _ (isStrict options)).
  destruct (isStrict options && _); [reflexivity|].
  destruct (JSON.parse (c :: rest)) as [parsed | e] eqn:E; [|reflexivity].
  cbn [tryCatch].
  rewrite (cleanObject_strip parsed (JSON_parse_wellFormed _ E)).
  rewrite (strip_fixed parsed (Hk parsed eq_refl)). reflexivity.
Qed.

Lemma structure_same_in_both_files_witness :
  Part000.result
    (Part000.synapse ecmascript
       (VString (91%N :: quoted "{ 'constructor': [1, 2] }, { '1': 'a', 'x': { '0': null } } ]"))
       defaultOptions)
  = Index.synapse ecmascript
      (VString (91%N :: quoted "{ 'constructor': [1, 2] }, { '1': 'a', 'x': { '0': null } } ]"))
      defaultOptions.
Proof.
  apply (@structure_same_in_both_files 91%N
           (quoted "{ 'constructor': [1, 2] }, { '1': 'a', 'x': { '0': null } } ]")
           defaultOptions).
  - left. reflexivity.
  - vm_compute. reflexivity.
  - intros parsed H. vm_compute in H. injection H as <-. vm_compute. reflexivity.
Defined.

(** X16.  A text whose trimmed form opens with no quote, minus,
    bracket, brace or digit and is, whatever the case of its letters, no
    word of the literal table, is taken by no step: in both files, and
    without a call of the runtime, the lenient call returns the text as
    it came and the strict call raises [Invalid JSON]. *)
Theorem plain_text (rt : Runtime) (text : jsstring) (c : N) (rest : jsstring)
    (options : Options) :
  Str.trim text = c :: rest ->
  Obj.isDigit c = false ->
  ~ In c [34; 45; 91; 123]%N ->
  ~ In (Str.toLowerCase (c :: rest))
       [lit "true"; lit "false"; lit "null"; lit "undefined"; lit "nan";
        lit "infinity"] ->
  Index.synapse rt (VString text) options
  = (if isStrict options then Throw (SyntaxError (lit "[synapse] Invalid JSON"))
     else Return (VString text))
  /\ Part000.synapse rt (VString text) options
     = Part000.quiet
         (if isStrict options then Throw (SyntaxError (lit "[synapse] Invalid JSON"))
          else Return (VString text)).
Proof.
  intros Ht Hd Hc Hl.
  destruct (@branch_plain c rest (trim_first text Ht) Hd Hc Hl) as [Hi Hp].
  rewrite (@Index_synapse_branch rt text options),
          (@Part000_synapse_branch rt text options), Ht, Hi, Hp.
  split; reflexivity.
Qed.

Lemma plain_text_witness :
  Index.synapse ecmascript (VString (lit "  Hello, world ")) {| strict := Some true |}
  = (if isStrict {| strict := Some true |}
     then Throw (SyntaxError (lit "[synapse] Invalid JSON"))
     else Return (VString (lit "  Hello, world ")))
  /\ Part000.synapse ecmascript (VString (lit "  Hello, world "))
       {| strict := Some true |}
     = Part000.quiet
         (if isStrict {| strict := Some true |}
          then Throw (SyntaxError (lit "[synapse] Invalid JSON"))
          else Return (VString (lit "  Hello, world "))).
Proof.
  apply (@plain_text ecmascript (lit "  Hello, world ") 72%N (lit "ello, world")
           {| strict := Some true |}).
  - vm_compute. reflexivity.
  - reflexivity.
  - simpl. intros [H | [H | [H | [H | []]]]]; discriminate H.
  - vm_compute. intros [H | [H | [H | [H | [H | [H | []]]]]]]; discriminate H.
Defined.
